(** * KotlinPdfium JNI wrapper: a shallow embedding of [pdfium_jni.cpp]

    The wrapper is a layer of [extern "C"] entry points around the PDFium
    library.  Each entry point is embedded as a function in a state monad
    over a [World] holding the two globals of the file
    ([libraryReferenceCount] and [g_docBuffers]), the C++ heap blocks the
    wrapper allocates, the pixel memory of Android bitmaps, and the trace of
    the calls made to the collaborators (PDFium, POSIX, the Android bitmap
    API).  What a collaborator answers is not part of the wrapper: it is an
    oracle [env], a function of the calls made so far and of the current
    call, and the theorems quantify over it. *)

From Stdlib Require Import ZArith Lia PrimFloat.
From stdpp Require Import gmap strings list.

Local Open Scope Z_scope.

(** ** Machine integers *)

Module MachineInt.

(** [unsigned long] and [size_t] on the 64-bit Android ABIs. *)
Definition wrap_u64 (z : Z) : Z := z mod 2 ^ 64.

(** [unsigned char]. *)
Definition wrap_u8 (z : Z) : Z := z mod 2 ^ 8.

(** [uint32_t]. *)
Definition wrap_u32 (z : Z) : Z := z mod 2 ^ 32.

(** [int], [jint] and [jsize]: 32-bit two's complement. *)
Definition wrap_i32 (z : Z) : Z := (z + 2 ^ 31) mod 2 ^ 32 - 2 ^ 31.

(** [off_t] and [ssize_t]: 64-bit two's complement. *)
Definition wrap_i64 (z : Z) : Z := (z + 2 ^ 63) mod 2 ^ 64 - 2 ^ 63.

Definition INT_MAX : Z := 2 ^ 31 - 1.

End MachineInt.
Export MachineInt.

(** ** Values crossing the boundary *)

(** A [jlong] carrying a PDFium handle; [0] is the null handle. *)
Abbreviation handle := Z.

(** A [jstring] argument or a C string: [None] is [nullptr]. *)
Abbreviation cstring := (option string).

(** A Java string built by [NewString]/[NewStringUTF]: its UTF-16 code
    units.  A unit is [None] when it was read from a part of the native
    buffer that nothing had written. *)
Definition jstring_val : Type := list (option Z).

(** [AndroidBitmapInfo], the fields the wrapper reads: [width], [height]
    and [stride] are [uint32_t], [format] is [int32_t], and what is read
    from the structure is reduced to these ranges ([out_info]). *)
Record AndroidBitmapInfo := mkInfo {
  info_width : Z;
  info_height : Z;
  info_stride : Z;
  info_format : Z
}.

(** ** Calls to the collaborators

    One constructor per external function the embedded entry points call,
    with the arguments as the callee receives them: where the wrapper
    passes an integer of another type than the parameter's (an [off_t] or
    a [uint32_t] for an [int]), the entry point converts it.  Pointers to
    wrapper memory are block names ([positive]) for heap blocks and [Z] for
    pixel memory. *)
Inductive BufArg :=
  | NullBuffer                       (* [nullptr] *)
  | UnitBuffer (capacity : Z).       (* a [new unsigned short[capacity]] *)

Inductive Call :=
  (* fpdfview.h *)
  | FPDF_InitLibraryWithConfig (version : Z)
  | FPDF_DestroyLibrary
  | FPDF_GetLastError
  | FPDF_LoadMemDocument (buf : positive) (contents : list Byte.byte)
                         (size : Z) (password : cstring)
  | FPDF_LoadDocument (path : string) (password : cstring)
  | FPDF_CloseDocument (doc : handle)
  | FPDF_GetPageCount (doc : handle)
  | FPDF_LoadPage (doc : handle) (index : Z)
  | FPDF_ClosePage (page : handle)
  | FPDF_GetPageSizeByIndex (doc : handle) (index : Z)
  | FPDFBitmap_CreateEx (width height format : Z) (first_scan : Z) (stride : Z)
  | FPDFBitmap_FillRect (bitmap : handle) (left top width height : Z) (color : Z)
  | FPDF_RenderPageBitmap (bitmap page : handle)
                          (start_x start_y size_x size_y rotate flags : Z)
  | FPDFBitmap_Destroy (bitmap : handle)
  (* fpdf_doc.h *)
  | FPDF_GetMetaText (doc : handle) (tag : string) (buffer : BufArg) (buflen : Z)
  | FPDF_GetPageLabel (doc : handle) (index : Z) (buffer : BufArg) (buflen : Z)
  (* fpdf_text.h *)
  | FPDFText_CountChars (text_page : handle)
  (* fpdf_edit.h *)
  | FPDFPageObj_CreateNewPath (x y : float)
  | FPDFPath_MoveTo (path : handle) (x y : float)
  | FPDFPath_LineTo (path : handle) (x y : float)
  | FPDFPath_BezierTo (path : handle) (x1 y1 x2 y2 x3 y3 : float)
  | FPDFPath_Close (path : handle)
  | FPDFPath_SetDrawMode (path : handle) (fillmode stroke : Z)
  | FPDFPageObj_SetStrokeWidth (page_object : handle) (width : float)
  | FPDFPageObj_GetType (page_object : handle)
  (* fpdf_progressive.h; [pause] is the [IFSDK_PAUSE*] argument, [None]
     for [nullptr], [Some p] for an interface whose NeedToPauseNow is [p]. *)
  | FPDF_RenderPageBitmap_Start (bitmap page : handle)
                                (start_x start_y size_x size_y rotate flags : Z)
                                (pause : option (unit -> bool))
  | FPDF_RenderPage_Continue (page : handle) (pause : option (unit -> bool))
  | FPDF_RenderPage_Close (page : handle)
  (* unistd.h *)
  | lseek_end (fd : Z)
  | lseek_set (fd : Z)
  | read (fd : Z) (buf : positive) (offset : Z) (count : Z)
  (* operator new (std::nothrow) *)
  | new_nothrow (size : Z)
  (* android/bitmap.h *)
  | AndroidBitmap_getInfo (bitmap : Z)
  | AndroidBitmap_lockPixels (bitmap : Z)
  | AndroidBitmap_unlockPixels (bitmap : Z).

(** What a collaborator gives back besides its return value: the data it
    stores through the out-parameters of the call. *)
Inductive Out :=
  | OutNone
  | OutBytes (bytes : list Byte.byte)        (* through a [void*]/[char*] buffer *)
  | OutUnits (units : list Z)                (* through an [unsigned short*] buffer *)
  | OutDoubles (width height : float)        (* through two [double*] *)
  | OutInfo (info : AndroidBitmapInfo)       (* through an [AndroidBitmapInfo*] *)
  | OutPixels (addr : Z)                     (* through a [void**] *)
  | OutPaint (image : list Z).               (* new contents of the pixel memory *)

Record Resp := mkResp { r_ret : Z; r_out : Out }.

(** The collaborators: the answer to a call, given the calls made before. *)
Definition Env : Type := list Call -> Call -> Resp.

Definition out_bytes (o : Out) : list Byte.byte :=
  match o with OutBytes b => b | _ => [] end.
Definition out_units (o : Out) : list Z :=
  match o with OutUnits u => u | _ => [] end.
Definition out_doubles (o : Out) (dflt : float * float) : float * float :=
  match o with OutDoubles w h => (w, h) | _ => dflt end.
Definition out_info (o : Out) : AndroidBitmapInfo :=
  match o with
  | OutInfo i => mkInfo (wrap_u32 (info_width i)) (wrap_u32 (info_height i))
                        (wrap_u32 (info_stride i)) (wrap_i32 (info_format i))
  | _ => mkInfo 0 0 0 0
  end.
Definition out_pixels (o : Out) : Z :=
  match o with OutPixels a => a | _ => 0 end.

(** ** The world of the wrapper *)

Record World := mkWorld {
  (** [static int libraryReferenceCount] *)
  libraryReferenceCount : Z;
  (** [static std::map<FPDF_DOCUMENT, char*> g_docBuffers] *)
  g_docBuffers : gmap Z positive;
  (** Live [new char[]] blocks and the bytes stored in them so far. *)
  heap : gmap positive (list Byte.byte);
  (** Name of the next block; a name is never given out twice. *)
  next_block : positive;
  (** Blocks passed to [delete[]], in order. *)
  freed : list positive;
  (** Set when [delete[]] is applied to a block that is not live. *)
  heap_fault : bool;
  (** Pixel memory of the Android bitmaps, by address. *)
  pixel_memory : gmap Z (list Z);
  (** Calls made to the collaborators, oldest first. *)
  trace : list Call
}.

Definition initial_world : World :=
  mkWorld 0 ∅ ∅ 1%positive [] false ∅ [].

Definition set_libraryReferenceCount (n : Z) (w : World) : World :=
  mkWorld n (g_docBuffers w) (heap w) (next_block w) (freed w)
          (heap_fault w) (pixel_memory w) (trace w).
Definition set_g_docBuffers (m : gmap Z positive) (w : World) : World :=
  mkWorld (libraryReferenceCount w) m (heap w) (next_block w) (freed w)
          (heap_fault w) (pixel_memory w) (trace w).
Definition set_heap (h : gmap positive (list Byte.byte)) (w : World) : World :=
  mkWorld (libraryReferenceCount w) (g_docBuffers w) h (next_block w) (freed w)
          (heap_fault w) (pixel_memory w) (trace w).
Definition set_pixel_memory (p : gmap Z (list Z)) (w : World) : World :=
  mkWorld (libraryReferenceCount w) (g_docBuffers w) (heap w) (next_block w)
          (freed w) (heap_fault w) p (trace w).
Definition set_trace (t : list Call) (w : World) : World :=
  mkWorld (libraryReferenceCount w) (g_docBuffers w) (heap w) (next_block w)
          (freed w) (heap_fault w) (pixel_memory w) t.

(** ** The monad of the entry points *)

Definition M (A : Type) : Type := World -> A * World.

Definition ret {A} (a : A) : M A := fun w => (a, w).
Definition bind {A B} (m : M A) (k : A -> M B) : M B :=
  fun w => let '(a, w') := m w in k a w'.

Notation "'let*' x ':=' m 'in' k" := (bind m (fun x => k))
  (at level 20, x pattern, m at level 100, k at level 200, only parsing).
Notation "m ';;' k" := (bind m (fun _ => k))
  (at level 100, k at level 200, right associativity, only parsing).

Definition get {A} (f : World -> A) : M A := fun w => (f w, w).
Definition modify (f : World -> World) : M unit := fun w => (tt, f w).

(** A call to a collaborator: ask the oracle, log the call. *)
Definition call (env : Env) (c : Call) : M Resp :=
  fun w => (env (trace w) c, set_trace (trace w ++ [c]) w).

(** [new char[n]] once the allocator has agreed: a fresh, empty block. *)
Definition new_block : M positive :=
  fun w =>
    let b := next_block w in
    (b, mkWorld (libraryReferenceCount w) (g_docBuffers w)
                (<[b := []]> (heap w)) (Pos.succ b) (freed w)
                (heap_fault w) (pixel_memory w) (trace w)).

(** [delete[] p]. *)
Definition delete_array (b : positive) : M unit :=
  fun w =>
    match heap w !! b with
    | Some _ =>
        (tt, mkWorld (libraryReferenceCount w) (g_docBuffers w)
                     (delete b (heap w)) (next_block w) (freed w ++ [b])
                     (heap_fault w) (pixel_memory w) (trace w))
    | None =>
        (tt, mkWorld (libraryReferenceCount w) (g_docBuffers w)
                     (heap w) (next_block w) (freed w ++ [b])
                     true (pixel_memory w) (trace w))
    end.

(** ** Library initialisation and shutdown (lines 36-68) *)

Section Lifecycle.

Variable env : Env.

(** [Java_com_hyntix_pdfium_PdfiumCore_nativeInitLibrary] *)
Definition nativeInitLibrary : M unit :=
  let* count := get libraryReferenceCount in
  (if count =? 0
   then (let* _ := call env (FPDF_InitLibraryWithConfig 2) in ret tt)
   else ret tt) ;;
  let* count := get libraryReferenceCount in
  modify (set_libraryReferenceCount (wrap_i32 (count + 1))).

(** [Java_com_hyntix_pdfium_PdfiumCore_nativeDestroyLibrary] *)
Definition nativeDestroyLibrary : M unit :=
  let* count := get libraryReferenceCount in
  modify (set_libraryReferenceCount (wrap_i32 (count - 1))) ;;
  let* count := get libraryReferenceCount in
  if count =? 0
  then (let* _ := call env FPDF_DestroyLibrary in ret tt)
  else ret tt.

(** [n] calls of an entry point in a row. *)
Fixpoint repeat_call (m : M unit) (n : nat) : M unit :=
  match n with
  | O => ret tt
  | S n' => m ;; repeat_call m n'
  end.

End Lifecycle.

(** Whether PDFium is initialised after a sequence of calls: the last of
    the init/destroy calls in the trace decides. *)
Fixpoint library_initialized_from (init : bool) (t : list Call) : bool :=
  match t with
  | [] => init
  | FPDF_InitLibraryWithConfig _ :: t' => library_initialized_from true t'
  | FPDF_DestroyLibrary :: t' => library_initialized_from false t'
  | _ :: t' => library_initialized_from init t'
  end.

Definition library_initialized (w : World) : bool :=
  library_initialized_from false (trace w).

Definition is_init_call (c : Call) : bool :=
  match c with FPDF_InitLibraryWithConfig _ => true | _ => false end.
Definition is_destroy_call (c : Call) : bool :=
  match c with FPDF_DestroyLibrary => true | _ => false end.

Definition init_calls (w : World) : nat := length (filter is_init_call (trace w)).
Definition destroy_calls (w : World) : nat := length (filter is_destroy_call (trace w)).


(** ** Opening and closing documents (lines 78-236) *)

(** Bytes stored through a pointer [ptr] bytes into block [b]. *)
Definition store (b : positive) (ptr : Z) (bytes : list Byte.byte) : M unit :=
  modify (fun w =>
    set_heap (alter (fun blk => take (Z.to_nat ptr) blk ++ bytes) b (heap w)) w).

Section Documents.

Variable env : Env.

(** The read loop of [nativeOpenDocument], lines 110-124.  [ptr] is the
    offset of the C pointer [ptr] from [buffer].  One unit of [fuel] is
    spent per iteration; [None] is returned when it runs out, [Some true]
    when the loop ends with [remaining = 0], [Some false] when it took
    the error exit (after [delete[] buffer]). *)
Fixpoint read_loop (fuel : nat) (fd : Z) (buffer : positive)
         (ptr remaining : Z) : M (option bool) :=
  if remaining >? 0 then
    match fuel with
    | O => ret None
    | S fuel' =>
        let* r := call env (read fd buffer ptr remaining) in
        let bytesRead := wrap_i64 (r_ret r) in
        if bytesRead <=? 0 then
          delete_array buffer ;;
          ret (Some false)
        else
          store buffer ptr (out_bytes (r_out r)) ;;
          read_loop fuel' fd buffer (ptr + bytesRead)
                    (wrap_u64 (remaining - bytesRead))
    end
  else ret (Some true).

(** [Java_com_hyntix_pdfium_PdfiumCore_nativeOpenDocument]; the result is
    [None] only if the read loop ran out of fuel.  The size parameter of
    [FPDF_LoadMemDocument] is an [int]: the [off_t] [fileSize] arrives
    reduced to 32 bits. *)
Definition nativeOpenDocument (fd : Z) (password : cstring) : M (option Z) :=
  let cPassword := password in
  let* sz := call env (lseek_end fd) in
  let fileSize := wrap_i64 (r_ret sz) in
  if fileSize <=? 0 then ret (Some 0)
  else
    call env (lseek_set fd) ;;
    let* a := call env (new_nothrow fileSize) in
    if r_ret a =? 0 then ret (Some 0)
    else
      let* buffer := new_block in
      let* done := read_loop (Z.to_nat fileSize) fd buffer 0 fileSize in
      match done with
      | None => ret None
      | Some false => ret (Some 0)
      | Some true =>
          let* contents := get (fun w => default [] (heap w !! buffer)) in
          let* d := call env (FPDF_LoadMemDocument buffer contents
                                                    (wrap_i32 fileSize) cPassword) in
          let doc := r_ret d in
          if doc =? 0 then
            delete_array buffer ;;
            call env FPDF_GetLastError ;;
            ret (Some 0)
          else
            modify (fun w => set_g_docBuffers (<[doc := buffer]> (g_docBuffers w)) w) ;;
            call env (FPDF_GetPageCount doc) ;;
            ret (Some doc)
      end.

(** [Java_com_hyntix_pdfium_PdfiumCore_nativeOpenMemDocument] *)
Definition nativeOpenMemDocument (data : list Byte.byte) (password : cstring) : M Z :=
  let cPassword := password in
  let length := Z.of_nat (List.length data) in
  let* docBuffer := new_block in
  store docBuffer 0 data ;;
  let* contents := get (fun w => default [] (heap w !! docBuffer)) in
  let* d := call env (FPDF_LoadMemDocument docBuffer contents length cPassword) in
  let doc := r_ret d in
  if doc =? 0 then
    delete_array docBuffer ;;
    call env FPDF_GetLastError ;;
    ret 0
  else
    modify (fun w => set_g_docBuffers (<[doc := docBuffer]> (g_docBuffers w)) w) ;;
    call env (FPDF_GetPageCount doc) ;;
    ret doc.

(** [Java_com_hyntix_pdfium_PdfiumCore_nativeOpenDocumentPath] *)
Definition nativeOpenDocumentPath (path : string) (password : cstring) : M Z :=
  let cPassword := password in
  let* d := call env (FPDF_LoadDocument path cPassword) in
  let doc := r_ret d in
  if doc =? 0 then
    call env FPDF_GetLastError ;;
    ret 0
  else ret doc.

(** [Java_com_hyntix_pdfium_PdfiumCore_nativeCloseDocument] *)
Definition nativeCloseDocument (docPtr : Z) : M unit :=
  let doc := docPtr in
  if doc =? 0 then ret tt
  else
    call env (FPDF_CloseDocument doc) ;;
    let* it := get (fun w => g_docBuffers w !! doc) in
    match it with
    | Some buffer =>
        delete_array buffer ;;
        modify (fun w => set_g_docBuffers (delete doc (g_docBuffers w)) w)
    | None => ret tt
    end.

End Documents.

(** *** Sessions: interleavings of open and close calls

    A session is what a caller can do with the four entry points above.
    Next to the world it keeps a ledger of the documents that are open in
    PDFium, with the route each was opened through; the ledger is not wrapper
    state, it is the yardstick the ownership table is measured against. *)

Inductive Origin := FromBytes | FromDescriptor | FromPath.

Definition owns_buffer (o : Origin) : bool :=
  match o with FromPath => false | _ => true end.

Inductive Op :=
  | OpenMem (data : list Byte.byte) (password : cstring)
  | OpenFd (fd : Z) (password : cstring)
  | OpenPath (path : string) (password : cstring)
  | CloseDoc (doc : handle).

(** A document handle returned by an open call enters the ledger.  PDFium
    returns null or a handle that is not the handle of a document still open:
    a run in which it answers otherwise is not a run of PDFium ([None]). *)
Definition record_open (o : Origin) (doc : handle) (ledger : gmap Z Origin)
  : option (gmap Z Origin) :=
  if doc =? 0 then Some ledger
  else match ledger !! doc with
       | None => Some (<[doc := o]> ledger)
       | Some _ => None
       end.

Definition apply_op (env : Env) (op : Op) (s : World * gmap Z Origin)
  : option (World * gmap Z Origin) :=
  let '(w, ledger) := s in
  match op with
  | OpenMem data password =>
      let '(doc, w') := nativeOpenMemDocument env data password w in
      ledger' ← record_open FromBytes doc ledger; Some (w', ledger')
  | OpenFd fd password =>
      let '(r, w') := nativeOpenDocument env fd password w in
      doc ← r; ledger' ← record_open FromDescriptor doc ledger; Some (w', ledger')
  | OpenPath path password =>
      let '(doc, w') := nativeOpenDocumentPath env path password w in
      ledger' ← record_open FromPath doc ledger; Some (w', ledger')
  | CloseDoc doc =>
      let '(_, w') := nativeCloseDocument env doc w in
      Some (w', delete doc ledger)
  end.

Fixpoint run_ops (env : Env) (ops : list Op) (s : World * gmap Z Origin)
  : option (World * gmap Z Origin) :=
  match ops with
  | [] => Some s
  | op :: ops' => s' ← apply_op env op s; run_ops env ops' s'
  end.

(** Documents of the ledger that were opened from bytes or a descriptor. *)
Definition buffered_docs (ledger : gmap Z Origin) : gmap Z Origin :=
  filter (fun kv => owns_buffer kv.2 = true) ledger.

(** [read(2)] returns [-1] or a count of at most [count], and a positive
    return value is the number of bytes it stored. *)
Definition posix_read (env : Env) : Prop :=
  forall t fd buf ptr count,
    0 <= count ->
    let r := env t (read fd buf ptr count) in
    -1 <= r_ret r <= count /\
    (0 < r_ret r -> Z.of_nat (length (out_bytes (r_out r))) = r_ret r).

(** The return values of the calls [cs], made one after the other after
    the calls [t]. *)
Fixpoint answers (env : Env) (t cs : list Call) : list Z :=
  match cs with
  | [] => []
  | c :: cs' => r_ret (env t c) :: answers env (t ++ [c]) cs'
  end.

Definition is_read_call (c : Call) : bool :=
  match c with read _ _ _ _ => true | _ => false end.

Definition is_load_call (c : Call) : bool :=
  match c with FPDF_LoadMemDocument _ _ _ _ => true | _ => false end.

(** The sum of the counts a list of [read] calls returned. *)
Definition total (returned : list Z) : Z := foldr Z.add 0 returned.

(** The [read] calls that ask, one after the other, for the bytes still
    missing, given what each returned: every call is made at the offset
    reached so far, for exactly what remains. *)
Fixpoint reads_for (fd : Z) (b : positive) (ptr remaining : Z)
         (returned : list Z) : list Call :=
  match returned with
  | [] => []
  | n :: returned' =>
      read fd b ptr remaining
        :: reads_for fd b (ptr + n) (remaining - n) returned'
  end.

(** The ways [nativeOpenDocument fd password] can end from a world [w], as
    result and final world.  [fileSize] is what [lseek] answered, [b] the
    block of the buffer, [reads] the [read] calls of the loop. *)
Inductive open_fd_outcome (env : Env) (fd : Z) (password : cstring) (w : World)
  : option Z -> World -> Prop :=
  | fd_no_size :
      let fileSize := wrap_i64 (r_ret (env (trace w) (lseek_end fd))) in
      fileSize <= 0 ->
      open_fd_outcome env fd password w (Some 0)
        (set_trace (trace w ++ [lseek_end fd]) w)
  | fd_no_memory :
      let fileSize := wrap_i64 (r_ret (env (trace w) (lseek_end fd))) in
      let pre := [lseek_end fd; lseek_set fd; new_nothrow fileSize] in
      0 < fileSize ->
      r_ret (env (trace w ++ [lseek_end fd; lseek_set fd]) (new_nothrow fileSize)) = 0 ->
      open_fd_outcome env fd password w (Some 0)
        (set_trace (trace w ++ pre) w)
  | fd_short_read reads c :
      let fileSize := wrap_i64 (r_ret (env (trace w) (lseek_end fd))) in
      let pre := [lseek_end fd; lseek_set fd; new_nothrow fileSize] in
      let b := next_block w in
      0 < fileSize ->
      Forall (fun c => is_read_call c = true) (reads ++ [c]) ->
      Forall (fun z => 0 < z) (answers env (trace w ++ pre) reads) ->
      r_ret (env (trace w ++ pre ++ reads) c) <= 0 ->
      open_fd_outcome env fd password w (Some 0)
        (mkWorld (libraryReferenceCount w) (g_docBuffers w)
                 (delete b (heap w)) (Pos.succ b) (freed w ++ [b])
                 (heap_fault w) (pixel_memory w)
                 (trace w ++ pre ++ reads ++ [c]))
  | fd_load_failed reads contents :
      let fileSize := wrap_i64 (r_ret (env (trace w) (lseek_end fd))) in
      let pre := [lseek_end fd; lseek_set fd; new_nothrow fileSize] in
      let b := next_block w in
      let load := FPDF_LoadMemDocument b contents (wrap_i32 fileSize) password in
      0 < fileSize ->
      Forall (fun c => is_read_call c = true) reads ->
      Forall (fun z => 0 < z) (answers env (trace w ++ pre) reads) ->
      Z.of_nat (length contents) = fileSize ->
      r_ret (env (trace w ++ pre ++ reads) load) = 0 ->
      open_fd_outcome env fd password w (Some 0)
        (mkWorld (libraryReferenceCount w) (g_docBuffers w)
                 (delete b (heap w)) (Pos.succ b) (freed w ++ [b])
                 (heap_fault w) (pixel_memory w)
                 (trace w ++ pre ++ reads ++ [load; FPDF_GetLastError]))
  | fd_loaded reads contents :
      let fileSize := wrap_i64 (r_ret (env (trace w) (lseek_end fd))) in
      let pre := [lseek_end fd; lseek_set fd; new_nothrow fileSize] in
      let b := next_block w in
      let load := FPDF_LoadMemDocument b contents (wrap_i32 fileSize) password in
      let doc := r_ret (env (trace w ++ pre ++ reads) load) in
      0 < fileSize ->
      Forall (fun c => is_read_call c = true) reads ->
      Forall (fun z => 0 < z) (answers env (trace w ++ pre) reads) ->
      Z.of_nat (length contents) = fileSize ->
      doc <> 0 ->
      open_fd_outcome env fd password w (Some doc)
        (mkWorld (libraryReferenceCount w) (<[doc := b]> (g_docBuffers w))
                 (<[b := contents]> (heap w)) (Pos.succ b) (freed w)
                 (heap_fault w) (pixel_memory w)
                 (trace w ++ pre ++ reads ++ [load; FPDF_GetPageCount doc])).

(** The ownership invariant, between the table, the heap and a ledger. *)
Record ownership_inv_on (table : gmap Z positive)
       (blocks : gmap positive (list Byte.byte)) (next : positive)
       (dead : list positive) (fault : bool) (ledger : gmap Z Origin) : Prop := {
  (** a handle has an entry iff it is open and came from bytes or a descriptor *)
  inv_dom : forall doc, is_Some (table !! doc) <->
                        exists o, ledger !! doc = Some o /\ owns_buffer o = true;
  (** a registered buffer is a live block *)
  inv_live : forall doc b, table !! doc = Some b -> is_Some (blocks !! b);
  (** no buffer is registered for two handles *)
  inv_inj : forall d1 d2 b, table !! d1 = Some b -> table !! d2 = Some b -> d1 = d2;
  (** every live block is some document's buffer *)
  inv_owned : forall b, is_Some (blocks !! b) -> exists doc, table !! doc = Some b;
  inv_fresh : forall b, is_Some (blocks !! b) -> (b < next)%positive;
  inv_dead_lt : forall b, b ∈ dead -> (b < next)%positive;
  (** a block passed to [delete[]] is not live *)
  inv_dead : forall b, b ∈ dead -> blocks !! b = None;
  (** no block was passed to [delete[]] twice *)
  inv_once : NoDup dead;
  inv_no_fault : fault = false;
  inv_null : ledger !! 0 = None;
  inv_count_table : size table = size (buffered_docs ledger);
  inv_count_heap : size blocks = size table
}.

Definition ownership_inv (w : World) (ledger : gmap Z Origin) : Prop :=
  ownership_inv_on (g_docBuffers w) (heap w) (next_block w) (freed w)
                   (heap_fault w) ledger.

(** ** A stand-in for the collaborators

    Used to run the entry points on concrete inputs.  It loads any buffer
    except an empty one or one opened with the password ["wrong"], names the
    document after the block of its buffer, reports 5 bytes for every
    descriptor, and delivers at most 2 bytes per [read]; descriptor 4 is a
    file that ends after 2 bytes. *)
Definition demo_env : Env := fun t c =>
  match c with
  | FPDF_LoadMemDocument b contents size password =>
      if (size =? 0) || bool_decide (password = Some "wrong"%string)
      then mkResp 0 OutNone
      else mkResp (1000 + Z.pos b) OutNone
  | FPDF_LoadDocument path password =>
      mkResp (2000 + Z.of_nat (length t)) OutNone
  | lseek_end fd => mkResp 5 OutNone
  | new_nothrow size => mkResp 1 OutNone
  | read fd b ptr count =>
      if (fd =? 4) && (2 <=? ptr) then mkResp 0 OutNone
      else let n := Z.min count 2 in
           mkResp n (OutBytes (repeat Byte.x00 (Z.to_nat n)))
  | _ => mkResp 0 OutNone
  end.

Definition demo_session : list Op :=
  [ OpenMem [Byte.x25; Byte.x50] None;
    OpenFd 3 None;
    OpenPath "a.pdf" None;
    OpenMem [Byte.x25] (Some "wrong"%string);
    OpenFd 4 None;
    CloseDoc 1001;
    CloseDoc 1001;
    CloseDoc 7 ].

(** ** Strings by size query and fill (lines 249-308) *)

(** [new unsigned short[n]]: [n] units, none of them written. *)
Definition new_units (n : Z) : list (option Z) := repeat None (Z.to_nat n).

(** The units a collaborator stored at the start of a buffer (what does not
    fit the buffer is not kept). *)
Definition fill (buffer : list (option Z)) (units : list Z) : list (option Z) :=
  (Some <$> take (length buffer) units) ++ drop (length units) buffer.

(** JNI [NewString(buf, len)]: a string of the first [len] units of [buf].
    For a negative [len], which JNI does not define, the model takes the
    null result.  [NewStringUTF("")] is [Some []]. *)
Definition NewString (buf : list (option Z)) (len : Z) : option jstring_val :=
  if len <? 0 then None else Some (take (Z.to_nat len) buf).

Section Strings.

Variable env : Env.

(** [Java_com_hyntix_pdfium_PdfiumCore_nativeGetMetaText] *)
Definition nativeGetMetaText (docPtr : Z) (tag : string) : M (option jstring_val) :=
  let doc := docPtr in
  if doc =? 0 then ret None
  else
    let cTag := tag in
    let* q := call env (FPDF_GetMetaText doc cTag NullBuffer 0) in
    let size := wrap_u64 (r_ret q) in
    if size =? 0 then ret (Some [])
    else
      let buffer := new_units size in
      let* f := call env (FPDF_GetMetaText doc cTag (UnitBuffer size) size) in
      let buffer := fill buffer (out_units (r_out f)) in
      let result := NewString buffer (wrap_i32 (wrap_u64 (size / 2 - 1))) in
      ret result.

(** [Java_com_hyntix_pdfium_PdfiumCore_nativeGetPageLabel] *)
Definition nativeGetPageLabel (docPtr : Z) (pageIndex : Z) : M (option jstring_val) :=
  let doc := docPtr in
  if doc =? 0 then ret (Some [])
  else
    let* q := call env (FPDF_GetPageLabel doc pageIndex NullBuffer 0) in
    let size := wrap_u64 (r_ret q) in
    if size =? 0 then ret (Some [])
    else
      let buffer := new_units size in
      let* f := call env (FPDF_GetPageLabel doc pageIndex (UnitBuffer size)
                                            (wrap_u64 (size * 2))) in
      let buffer := fill buffer (out_units (r_out f)) in
      let result := NewString buffer (wrap_i32 (wrap_u64 (size / 2 - 1))) in
      ret (Some (default [] result)).

End Strings.

(** A stand-in whose metadata and label queries announce 10 bytes and then
    store only 2 units (4 bytes) and report 4. *)
Definition short_fill_env : Env := fun t c =>
  match c with
  | FPDF_GetMetaText _ _ NullBuffer _ => mkResp 10 OutNone
  | FPDF_GetMetaText _ _ (UnitBuffer _) _ => mkResp 4 (OutUnits [65; 0])
  | FPDF_GetPageLabel _ _ NullBuffer _ => mkResp 10 OutNone
  | FPDF_GetPageLabel _ _ (UnitBuffer _) _ => mkResp 4 (OutUnits [105; 0])
  | _ => mkResp 0 OutNone
  end.

(** A stand-in whose metadata and label queries announce 10 bytes and store
    them: four letters and the terminator. *)
Definition title_env : Env := fun t c =>
  match c with
  | FPDF_GetMetaText _ _ NullBuffer _ => mkResp 10 OutNone
  | FPDF_GetMetaText _ _ (UnitBuffer _) _ => mkResp 10 (OutUnits [84; 101; 115; 116; 0])
  | FPDF_GetPageLabel _ _ NullBuffer _ => mkResp 10 OutNone
  | FPDF_GetPageLabel _ _ (UnitBuffer _) _ => mkResp 10 (OutUnits [105; 105; 105; 105; 0])
  | _ => mkResp 0 OutNone
  end.

(** ** Constants of the headers

    The values of these macros and enumerators are set in [fpdfview.h],
    [fpdf_progressive.h] and [android/bitmap.h], which are not part of the
    wrapper's sources: the entry points are embedded over any values. *)
Class Headers := {
  ANDROID_BITMAP_RESULT_SUCCESS : Z;
  ANDROID_BITMAP_FORMAT_RGBA_8888 : Z;
  FPDFBitmap_BGRA : Z;
  FPDF_ANNOT : Z;
  FPDF_REVERSE_BYTE_ORDER : Z;
  FPDF_RENDER_TOBECONTINUED : Z;
  FPDF_RENDER_DONE : Z;
  FPDF_RENDER_FAILED : Z
}.

(** The values in the NDK and in PDFium's public headers. *)
Definition published_headers : Headers := {|
  ANDROID_BITMAP_RESULT_SUCCESS := 0;
  ANDROID_BITMAP_FORMAT_RGBA_8888 := 1;
  FPDFBitmap_BGRA := 4;
  FPDF_ANNOT := 1;
  FPDF_REVERSE_BYTE_ORDER := 16;
  FPDF_RENDER_TOBECONTINUED := 1;
  FPDF_RENDER_DONE := 2;
  FPDF_RENDER_FAILED := 3
|}.

(** ** Handles checked before use, and handles that are not *)

Section Handles.

Variable env : Env.

(** [Java_com_hyntix_pdfium_PdfiumCore_nativeGetPageCount] *)
Definition nativeGetPageCount (docPtr : Z) : M Z :=
  let doc := docPtr in
  if doc =? 0 then ret 0
  else let* r := call env (FPDF_GetPageCount doc) in ret (wrap_i32 (r_ret r)).

(** [Java_com_hyntix_pdfium_PdfiumCore_nativeLoadPage] *)
Definition nativeLoadPage (docPtr : Z) (pageIndex : Z) : M Z :=
  let doc := docPtr in
  if doc =? 0 then ret 0
  else let* r := call env (FPDF_LoadPage doc pageIndex) in ret (r_ret r).

(** [Java_com_hyntix_pdfium_PdfiumCore_nativeClosePage] *)
Definition nativeClosePage (pagePtr : Z) : M unit :=
  let page := pagePtr in
  if page =? 0 then ret tt
  else let* _ := call env (FPDF_ClosePage page) in ret tt.

(** [Java_com_hyntix_pdfium_PdfiumCore_nativeTextCountChars] *)
Definition nativeTextCountChars (textPagePtr : Z) : M Z :=
  let textPage := textPagePtr in
  if textPage =? 0 then ret 0
  else let* r := call env (FPDFText_CountChars textPage) in ret (wrap_i32 (r_ret r)).

(** [Java_com_hyntix_pdfium_PdfiumCore_nativeGetPageObjectType] *)
Definition nativeGetPageObjectType (pageObjPtr : Z) : M Z :=
  let pageObj := pageObjPtr in
  if pageObj =? 0 then ret (-1)
  else let* r := call env (FPDFPageObj_GetType pageObj) in ret (wrap_i32 (r_ret r)).

(** [x ? JNI_TRUE : JNI_FALSE] *)
Definition to_jboolean (x : Z) : bool := negb (x =? 0).

(** [Java_com_hyntix_pdfium_PdfiumCore_nativeCreateNewPath] *)
Definition nativeCreateNewPath (x y : float) : M Z :=
  let* r := call env (FPDFPageObj_CreateNewPath x y) in ret (r_ret r).

(** [Java_com_hyntix_pdfium_PdfiumCore_nativePathMoveTo] *)
Definition nativePathMoveTo (pathObjPtr : Z) (x y : float) : M bool :=
  let pathObj := pathObjPtr in
  let* r := call env (FPDFPath_MoveTo pathObj x y) in ret (to_jboolean (r_ret r)).

(** [Java_com_hyntix_pdfium_PdfiumCore_nativePathLineTo] *)
Definition nativePathLineTo (pathObjPtr : Z) (x y : float) : M bool :=
  let pathObj := pathObjPtr in
  let* r := call env (FPDFPath_LineTo pathObj x y) in ret (to_jboolean (r_ret r)).

(** [Java_com_hyntix_pdfium_PdfiumCore_nativePathBezierTo] *)
Definition nativePathBezierTo (pathObjPtr : Z) (x1 y1 x2 y2 x3 y3 : float) : M bool :=
  let pathObj := pathObjPtr in
  let* r := call env (FPDFPath_BezierTo pathObj x1 y1 x2 y2 x3 y3) in
  ret (to_jboolean (r_ret r)).

(** [Java_com_hyntix_pdfium_PdfiumCore_nativePathClose] *)
Definition nativePathClose (pathObjPtr : Z) : M bool :=
  let pathObj := pathObjPtr in
  let* r := call env (FPDFPath_Close pathObj) in ret (to_jboolean (r_ret r)).

(** [Java_com_hyntix_pdfium_PdfiumCore_nativePathSetDrawMode] *)
Definition nativePathSetDrawMode (pathObjPtr : Z) (fillMode : Z) (stroke : bool) : M bool :=
  let pathObj := pathObjPtr in
  let* r := call env (FPDFPath_SetDrawMode pathObj fillMode (if stroke then 1 else 0)) in
  ret (to_jboolean (r_ret r)).

(** [Java_com_hyntix_pdfium_PdfiumCore_nativePathSetStrokeWidth] *)
Definition nativePathSetStrokeWidth (pathObjPtr : Z) (width : float) : M bool :=
  let pathObj := pathObjPtr in
  let* r := call env (FPDFPageObj_SetStrokeWidth pathObj width) in
  ret (to_jboolean (r_ret r)).

(** [Java_com_hyntix_pdfium_PdfiumCore_nativeGetPageSizeByIndex]; [None] is
    the [nullptr] array. *)
Definition nativeGetPageSizeByIndex (docPtr : Z) (pageIndex : Z)
  : M (option (float * float)) :=
  let doc := docPtr in
  if doc =? 0 then ret None
  else
    let width := 0%float in
    let height := 0%float in
    let* r := call env (FPDF_GetPageSizeByIndex doc pageIndex) in
    let '(width, height) := out_doubles (r_out r) (width, height) in
    let success := wrap_i32 (r_ret r) in
    let '(width, height) :=
      if success =? 0 then (595%float, 842%float) else (width, height) in
    ret (Some (width, height)).

End Handles.

(** The handle arguments with which a call reaches a collaborator. *)
Definition handles_of (c : Call) : list Z :=
  match c with
  | FPDF_CloseDocument d | FPDF_GetPageCount d | FPDF_LoadPage d _
  | FPDF_GetPageSizeByIndex d _ | FPDF_GetMetaText d _ _ _
  | FPDF_GetPageLabel d _ _ _ => [d]
  | FPDF_ClosePage p | FPDFText_CountChars p | FPDFPageObj_GetType p
  | FPDFPath_MoveTo p _ _ | FPDFPath_LineTo p _ _
  | FPDFPath_BezierTo p _ _ _ _ _ _ | FPDFPath_Close p
  | FPDFPath_SetDrawMode p _ _ | FPDFPageObj_SetStrokeWidth p _
  | FPDF_RenderPage_Continue p _ | FPDF_RenderPage_Close p
  | FPDFBitmap_Destroy p | FPDFBitmap_FillRect p _ _ _ _ _ => [p]
  | FPDF_RenderPageBitmap b p _ _ _ _ _ _
  | FPDF_RenderPageBitmap_Start b p _ _ _ _ _ _ _ => [b; p]
  | _ => []
  end.

(** ** Rendering into an Android bitmap (lines 380-441, 2007-2083) *)

(** A PDFium call that draws into the bitmap wrapped around the pixel
    memory at [pixels]: when the collaborator reports new contents, they
    replace the old ones. *)
Definition draw (env : Env) (pixels : Z) (c : Call) : M Resp :=
  let* r := call env c in
  match r_out r with
  | OutPaint image =>
      modify (fun w => set_pixel_memory (<[pixels := image]> (pixel_memory w)) w) ;;
      ret r
  | _ => ret r
  end.

(** [struct JavaPauseCallback] (lines 2012-2024): the three fields, a null
    pointer being [false] or [None], and [NeedToPauseNowImpl]. *)
Record JavaPauseCallback := {
  jp_env : bool;
  jp_callback : option (unit -> bool);
  jp_methodId : bool
}.

Definition NeedToPauseNowImpl (self : JavaPauseCallback) : Z :=
  match jp_callback self with
  | Some CallBooleanMethod =>
      if jp_env self && jp_methodId self
      then (if CallBooleanMethod tt then 1 else 0)
      else 0
  | None => 0
  end.

Section Rendering.

Variable env : Env.
Context `{Headers}.

(** [Java_com_hyntix_pdfium_PdfiumCore_nativeRenderPageBitmap]; [bitmap] is
    the [jobject], 0 for null.  The width, height and stride parameters of
    [FPDFBitmap_CreateEx] and [FPDFBitmap_FillRect] are [int]s: the
    [uint32_t] fields of [info] arrive as 32-bit signed values. *)
Definition nativeRenderPageBitmap (pagePtr : Z) (bitmap : Z)
           (startX startY drawWidth drawHeight : Z) (renderAnnot : bool) : M unit :=
  let page := pagePtr in
  if (page =? 0) || (bitmap =? 0) then ret tt
  else
    let* gi := call env (AndroidBitmap_getInfo bitmap) in
    let info := out_info (r_out gi) in
    if negb (wrap_i32 (r_ret gi) =? ANDROID_BITMAP_RESULT_SUCCESS) then ret tt
    else if (info_width info =? 0) || (info_height info =? 0) then ret tt
    else if negb (info_format info =? ANDROID_BITMAP_FORMAT_RGBA_8888) then ret tt
    else
      let* lk := call env (AndroidBitmap_lockPixels bitmap) in
      let pixels := out_pixels (r_out lk) in
      if negb (wrap_i32 (r_ret lk) =? ANDROID_BITMAP_RESULT_SUCCESS) then ret tt
      else
        let* cb := call env (FPDFBitmap_CreateEx (wrap_i32 (info_width info))
                                                 (wrap_i32 (info_height info))
                                                 FPDFBitmap_BGRA pixels
                                                 (wrap_i32 (info_stride info))) in
        let fpdfBitmap := r_ret cb in
        if fpdfBitmap =? 0 then
          call env (AndroidBitmap_unlockPixels bitmap) ;;
          ret tt
        else
          draw env pixels (FPDFBitmap_FillRect fpdfBitmap 0 0
                                               (wrap_i32 (info_width info))
                                               (wrap_i32 (info_height info))
                                               0xFFFFFFFF) ;;
          let flags := FPDF_REVERSE_BYTE_ORDER in
          let flags := if renderAnnot then Z.lor flags FPDF_ANNOT else flags in
          draw env pixels (FPDF_RenderPageBitmap fpdfBitmap page startX startY
                                                 drawWidth drawHeight 0 flags) ;;
          call env (FPDFBitmap_Destroy fpdfBitmap) ;;
          call env (AndroidBitmap_unlockPixels bitmap) ;;
          ret tt.

(** [Java_com_hyntix_pdfium_PdfiumCore_nativeRenderPageBitmapStart] *)
Definition nativeRenderPageBitmapStart (bitmap : Z) (pagePtr : Z)
           (startX startY drawWidth drawHeight rotate flags : Z) : M Z :=
  let page := pagePtr in
  if (page =? 0) || (bitmap =? 0) then ret FPDF_RENDER_FAILED
  else
    let* gi := call env (AndroidBitmap_getInfo bitmap) in
    let info := out_info (r_out gi) in
    if negb (wrap_i32 (r_ret gi) =? ANDROID_BITMAP_RESULT_SUCCESS)
    then ret FPDF_RENDER_FAILED
    else if negb (info_format info =? ANDROID_BITMAP_FORMAT_RGBA_8888)
    then ret FPDF_RENDER_FAILED
    else
      let* lk := call env (AndroidBitmap_lockPixels bitmap) in
      let pixels := out_pixels (r_out lk) in
      if negb (wrap_i32 (r_ret lk) =? ANDROID_BITMAP_RESULT_SUCCESS)
      then ret FPDF_RENDER_FAILED
      else
        let* cb := call env (FPDFBitmap_CreateEx (wrap_i32 (info_width info))
                                                 (wrap_i32 (info_height info))
                                                 FPDFBitmap_BGRA pixels
                                                 (wrap_i32 (info_stride info))) in
        let fpdfBitmap := r_ret cb in
        if fpdfBitmap =? 0 then
          call env (AndroidBitmap_unlockPixels bitmap) ;;
          ret FPDF_RENDER_FAILED
        else
          draw env pixels (FPDFBitmap_FillRect fpdfBitmap 0 0
                                               (wrap_i32 (info_width info))
                                               (wrap_i32 (info_height info))
                                               0xFFFFFFFF) ;;
          let* st := draw env pixels
                       (FPDF_RenderPageBitmap_Start fpdfBitmap page startX startY
                          drawWidth drawHeight rotate flags None) in
          let status := wrap_i32 (r_ret st) in
          call env (FPDFBitmap_Destroy fpdfBitmap) ;;
          call env (AndroidBitmap_unlockPixels bitmap) ;;
          ret status.

(** [Java_com_hyntix_pdfium_PdfiumCore_nativeRenderPageContinue] *)
Definition nativeRenderPageContinue (pagePtr : Z) : M Z :=
  let page := pagePtr in
  if page =? 0 then ret FPDF_RENDER_FAILED
  else
    let* r := call env (FPDF_RenderPage_Continue page None) in
    ret (wrap_i32 (r_ret r)).

(** [Java_com_hyntix_pdfium_PdfiumCore_nativeRenderPageClose] *)
Definition nativeRenderPageClose (pagePtr : Z) : M unit :=
  let page := pagePtr in
  if page =? 0 then ret tt
  else let* _ := call env (FPDF_RenderPage_Close page) in ret tt.

End Rendering.

(** The pause interface a call hands to PDFium's progressive renderer. *)
Definition pause_of (c : Call) : option (unit -> bool) :=
  match c with
  | FPDF_RenderPageBitmap_Start _ _ _ _ _ _ _ _ p => p
  | FPDF_RenderPage_Continue _ p => p
  | _ => None
  end.

Definition is_progressive_call (c : Call) : bool :=
  match c with
  | FPDF_RenderPageBitmap_Start _ _ _ _ _ _ _ _ _ => true
  | FPDF_RenderPage_Continue _ _ => true
  | _ => false
  end.

(** Calls that can reach the pixels of a surface. *)
Definition touches_pixels (c : Call) : bool :=
  match c with
  | AndroidBitmap_lockPixels _ | FPDFBitmap_CreateEx _ _ _ _ _
  | FPDFBitmap_FillRect _ _ _ _ _ _ | FPDF_RenderPageBitmap _ _ _ _ _ _ _ _
  | FPDF_RenderPageBitmap_Start _ _ _ _ _ _ _ _ _ => true
  | _ => false
  end.

(** A stand-in for Android and PDFium around one bitmap (the [jobject] 7):
    100 x 50 pixels at address 4096; its format is [format].  PDFium paints
    the pixels it is asked to, and its progressive renderer pauses exactly
    when it was given a pause interface that asks for a pause. *)
Definition surface_env (format : Z) : Env := fun t c =>
  match c with
  | AndroidBitmap_getInfo _ => mkResp 0 (OutInfo (mkInfo 100 50 400 format))
  | AndroidBitmap_lockPixels _ => mkResp 0 (OutPixels 4096)
  | FPDFBitmap_CreateEx _ _ _ _ _ => mkResp 77 OutNone
  | FPDFBitmap_FillRect _ _ _ _ _ color => mkResp 0 (OutPaint [color])
  | FPDF_RenderPageBitmap _ _ _ _ _ _ _ flags => mkResp 0 (OutPaint [flags])
  | FPDF_RenderPageBitmap_Start _ _ _ _ _ _ _ _ (Some p) =>
      if p tt then mkResp 1 OutNone else mkResp 2 (OutPaint [0])
  | FPDF_RenderPageBitmap_Start _ _ _ _ _ _ _ _ None => mkResp 2 (OutPaint [0])
  | FPDF_RenderPage_Continue _ (Some p) =>
      if p tt then mkResp 1 OutNone else mkResp 2 OutNone
  | FPDF_RenderPage_Continue _ None => mkResp 2 OutNone
  | FPDF_GetPageSizeByIndex _ index =>
      if index =? 0 then mkResp 1 (OutDoubles 612 792) else mkResp 0 OutNone
  | _ => mkResp 0 OutNone
  end.

(** A world in which that bitmap holds one stale pixel. *)
Definition stale_world : World :=
  mkWorld 1 ∅ ∅ 1%positive [] false {[ 4096 := [305419896] ]} [].

(** ** What the [read] calls of a trace delivered

    The bytes stored by the [read] calls among [cs], in order, [cs] being
    made after the calls [t]. *)
Fixpoint delivered (env : Env) (t cs : list Call) : list Byte.byte :=
  match cs with
  | [] => []
  | c :: cs' =>
      (if is_read_call c then out_bytes (r_out (env t c)) else [])
        ++ delivered env (t ++ [c]) cs'
  end.

(** A PDFium that names every document 9, open or not. *)
Definition same_handle_env : Env := fun _ c =>
  match c with
  | FPDF_LoadMemDocument _ _ _ _ => mkResp 9 OutNone
  | _ => mkResp 0 OutNone
  end.

(** ** The protocol of a pixel surface

    What may be done with an Android bitmap and a PDFium bitmap wrapped
    around its pixels: the pixels are locked, wrapped, drawn into through the
    wrapper, the wrapper is destroyed, the pixels are unlocked.  A call out
    of turn, or on another bitmap than the one at hand, has no next state. *)
Inductive SurfaceState :=
  | Unlocked
  | Locked (bitmap pixels : Z)
  | Wrapped (bitmap pixels fpdfBitmap : Z).

Section SurfaceProtocol.

Variable env : Env.
Context `{Headers}.

Definition surface_step (t : list Call) (s : SurfaceState) (c : Call)
  : option SurfaceState :=
  match s, c with
  | Unlocked, AndroidBitmap_getInfo _ => Some Unlocked
  | Unlocked, AndroidBitmap_lockPixels b =>
      if wrap_i32 (r_ret (env t c)) =? ANDROID_BITMAP_RESULT_SUCCESS
      then Some (Locked b (out_pixels (r_out (env t c))))
      else Some Unlocked
  | Locked b px, FPDFBitmap_CreateEx _ _ _ first_scan _ =>
      if first_scan =? px
      then (if r_ret (env t c) =? 0 then Some (Locked b px)
            else Some (Wrapped b px (r_ret (env t c))))
      else None
  | Locked b px, AndroidBitmap_unlockPixels b' =>
      if b' =? b then Some Unlocked else None
  | Wrapped b px f, FPDFBitmap_FillRect f' _ _ _ _ _ =>
      if f' =? f then Some (Wrapped b px f) else None
  | Wrapped b px f, FPDF_RenderPageBitmap f' _ _ _ _ _ _ _ =>
      if f' =? f then Some (Wrapped b px f) else None
  | Wrapped b px f, FPDF_RenderPageBitmap_Start f' _ _ _ _ _ _ _ _ =>
      if f' =? f then Some (Wrapped b px f) else None
  | Wrapped b px f, FPDFBitmap_Destroy f' =>
      if f' =? f then Some (Locked b px) else None
  | _, _ => None
  end.

Fixpoint surface_protocol (t : list Call) (s : SurfaceState) (cs : list Call)
  : option SurfaceState :=
  match cs with
  | [] => Some s
  | c :: cs' =>
      match surface_step t s c with
      | Some s' => surface_protocol (t ++ [c]) s' cs'
      | None => None
      end
  end.

End SurfaceProtocol.

(** The byte length a fill call announces against the buffer it is given
    ([capacity] units of two bytes). *)
Definition fill_fits_buffer (c : Call) : bool :=
  match c with
  | FPDF_GetMetaText _ _ (UnitBuffer capacity) buflen
  | FPDF_GetPageLabel _ _ (UnitBuffer capacity) buflen =>
      (0 <=? buflen) && (buflen <=? 2 * capacity)
  | _ => true
  end.

(** A stand-in whose metadata and label queries announce a single byte. *)
Definition one_byte_env : Env := fun t c =>
  match c with
  | FPDF_GetMetaText _ _ NullBuffer _ => mkResp 1 OutNone
  | FPDF_GetPageLabel _ _ NullBuffer _ => mkResp 1 OutNone
  | _ => mkResp 0 OutNone
  end.

(** A stand-in around a bitmap of width 0 in the accepted format. *)
Definition flat_surface_env : Env := fun t c =>
  match c with
  | AndroidBitmap_getInfo _ => mkResp 0 (OutInfo (mkInfo 0 50 0 1))
  | AndroidBitmap_lockPixels _ => mkResp 0 (OutPixels 4096)
  | _ => mkResp 0 OutNone
  end.

(** * Entry points that touch no global

    Most entry points of the file read and write neither
    [libraryReferenceCount] nor [g_docBuffers], lock no pixels and keep no
    heap block beyond their own call: they turn their arguments into PDFium
    calls and PDFium's answers into results.  For these the world is the
    trace of PDFium calls alone. *)

(** A C [float] obtained by the cast [(float) d] of a [jdouble], kept as
    the double it was cast from. *)
Inductive single := to_single (d : float).

(** [FS_QUADPOINTSF] *)
Record FS_QUADPOINTSF := mkQuad {
  quad_x1 : single; quad_y1 : single;
  quad_x2 : single; quad_y2 : single;
  quad_x3 : single; quad_y3 : single;
  quad_x4 : single; quad_y4 : single
}.

(** A byte buffer argument: [nullptr] or a [new unsigned char[capacity]]. *)
Inductive ByteBufArg :=
  | NullBytes
  | ByteBuffer (capacity : Z).

(** The PDFium functions these entry points call, with the arguments as the
    call sites give them.  A buffer the wrapper filled itself is passed with
    its contents ([None] is a unit never written); a buffer PDFium is to
    fill is passed as its capacity. *)
Inductive LibCall :=
  (* fpdf_text.h *)
  | FPDFText_GetText (text_page : handle) (start_index count : Z) (result : BufArg)
  | FPDFText_FindStart (text_page : handle) (findwhat : list (option Z))
                       (flags start_index : Z)
  (* fpdf_doc.h *)
  | FPDFBookmark_GetDest (document bookmark : handle)
  | FPDFBookmark_GetAction (bookmark : handle)
  | FPDFLink_GetDest (document link : handle)
  | FPDFLink_GetAction (link : handle)
  | FPDFAction_GetDest (document action : handle)
  | FPDFDest_GetDestPageIndex (document dest : handle)
  (* fpdf_annot.h *)
  | FPDFAnnot_SetStringValue (annot : handle) (key : string)
                             (value : list (option Z))
  | FPDFAnnot_GetStringValue (annot : handle) (key : string)
                             (buffer : BufArg) (buflen : Z)
  | FPDFAnnot_SetAttachmentPoints (annot : handle) (quad_index : Z)
                                  (quad_points : option FS_QUADPOINTSF)
                                  (count : Z)
  | FPDFAnnot_AppendAttachmentPoints (annot : handle)
                                     (quad_points : FS_QUADPOINTSF)
  (* fpdf_formfill.h *)
  | FPDF_SetFormFieldHighlightColor (form : handle) (field_type color : Z)
  | FPDF_SetFormFieldHighlightAlpha (form : handle) (alpha : Z)
  (* fpdfview.h *)
  | FPDF_GetXFAPacketContent (document : handle) (index : Z)
                             (buffer : ByteBufArg) (buflen : Z)
  | FPDF_GetXFAPacketName (document : handle) (index : Z)
                          (buffer : ByteBufArg) (buflen : Z)
  (* the string functions of fpdf_doc.h, fpdf_annot.h, fpdf_attachment.h,
     fpdf_structtree.h, fpdf_signature.h and fpdf_text.h *)
  | FPDFBookmark_GetTitle (bookmark : handle) (buffer : BufArg) (buflen : Z)
  | FPDFAction_GetURIPath (document action : handle)
                          (buffer : ByteBufArg) (buflen : Z)
  | FPDFAction_GetFilePath (action : handle) (buffer : ByteBufArg) (buflen : Z)
  | FPDFAnnot_GetFormFieldName (form annot : handle)
                               (buffer : BufArg) (buflen : Z)
  | FPDFAnnot_GetFormFieldValue (form annot : handle)
                                (buffer : BufArg) (buflen : Z)
  | FPDFAnnot_GetOptionLabel (form annot : handle) (index : Z)
                             (buffer : BufArg) (buflen : Z)
  | FPDFDoc_GetAttachment (document : handle) (index : Z)
  | FPDFAttachment_GetName (attachment : handle) (buffer : BufArg) (buflen : Z)
  | FPDF_StructElement_GetType (struct_element : handle)
                               (buffer : BufArg) (buflen : Z)
  | FPDF_StructElement_GetAltText (struct_element : handle)
                                  (buffer : BufArg) (buflen : Z)
  | FPDFSignatureObj_GetReason (signature : handle)
                               (buffer : ByteBufArg) (length : Z)
  | FPDFSignatureObj_GetTime (signature : handle)
                             (buffer : ByteBufArg) (length : Z)
  | FPDFLink_GetURL (link_page : handle) (link_index : Z)
                    (buffer : BufArg) (buflen : Z).

(** What PDFium answers: its return value, the 16-bit units or the bytes it
    stored in the buffer it was given, and the value it stored through an
    [out_buflen] pointer ([None]: it stored none). *)
Record LibResp := mkLibResp {
  l_ret : Z;
  l_units : list Z;
  l_bytes : list Byte.byte;
  l_len : option Z
}.

Definition answer (r : Z) : LibResp := mkLibResp r [] [] None.

Definition LibEnv := list LibCall -> LibCall -> LibResp.

(** Computations that call PDFium: the trace of calls is the state. *)
Definition L (A : Type) : Type := list LibCall -> A * list LibCall.

Definition lret {A} (a : A) : L A := fun t => (a, t).

Definition lbind {A B} (m : L A) (k : A -> L B) : L B :=
  fun t => let (a, t') := m t in k a t'.

Notation "'let+' x := m 'in' k" := (lbind m (fun x => k))
  (at level 20, x pattern, m at level 100, k at level 200, only parsing).
Notation "m ;;+ k" := (lbind m (fun _ => k))
  (at level 100, k at level 200, right associativity, only parsing).

Definition lcall (env : LibEnv) (c : LibCall) : L LibResp :=
  fun t => (env t c, t ++ [c]).

(** The bytes a collaborator stored at the start of a byte buffer. *)
Definition fill_bytes (buffer : list (option Byte.byte)) (bytes : list Byte.byte)
  : list (option Byte.byte) :=
  (Some <$> take (length buffer) bytes) ++ drop (length bytes) buffer.

(** JNI [NewByteArray(len)] followed by [SetByteArrayRegion(result, 0, len,
    buf)]: [len] bytes copied from the address of [buf].  Where [len]
    exceeds the size of [buf] the copy goes on past the allocation: those
    bytes are [None], no value the wrapper or PDFium stored.  Null when
    [len] is negative. *)
Definition NewByteArray_from (buf : list (option Byte.byte)) (len : Z)
  : option (list (option Byte.byte)) :=
  if len <? 0 then None
  else Some (take (Z.to_nat len) (buf ++ repeat None (Z.to_nat len))).

(** A Java string made by [NewStringUTF] from a C string: the bytes before
    the terminator, to be decoded as modified UTF-8; or [utf_undetermined]
    when a byte that nothing stored comes before any terminator, or the
    buffer ends without one and the read goes on past it. *)
Inductive utf_string :=
  | utf_of (bytes : list Byte.byte)
  | utf_undetermined.

Fixpoint c_string (buffer : list (option Byte.byte)) : option (list Byte.byte) :=
  match buffer with
  | Some b :: rest =>
      if Byte.eqb b Byte.x00 then Some [] else cons b <$> c_string rest
  | _ => None
  end.

Definition NewStringUTF (buffer : list (option Byte.byte)) : utf_string :=
  match c_string buffer with
  | Some bytes => utf_of bytes
  | None => utf_undetermined
  end.

(** The search flags of [fpdf_text.h]. *)
Class TextHeaders := {
  FPDF_MATCHCASE : Z;
  FPDF_MATCHWHOLEWORD : Z
}.

(** The values PDFium publishes. *)
Definition published_text_headers : TextHeaders :=
  {| FPDF_MATCHCASE := 1; FPDF_MATCHWHOLEWORD := 2 |}.

Section Stateless.

Variable env : LibEnv.
Context `{TextHeaders}.

(** [Java_com_hyntix_pdfium_PdfiumCore_nativeGetText] (lines 527-551), for
    [count >= 0]: with a negative [count + 1] the [new] expression throws
    before any PDFium call, which is not modelled. *)
Definition nativeGetText (textPagePtr : Z) (startIndex count : Z)
  : L (option jstring_val) :=
  let textPage := textPagePtr in
  if textPage =? 0 then lret None
  else
    let length := wrap_i32 (count + 1) in
    let buffer := new_units length in
    let+ r := lcall env (FPDFText_GetText textPage startIndex count
                                          (UnitBuffer length)) in
    let buffer := fill buffer (l_units r) in
    let written := wrap_i32 (l_ret r) in
    if 0 <? written then lret (NewString buffer (written - 1))
    else lret (Some []).

(** [Java_com_hyntix_pdfium_PdfiumCore_nativeTextFindStart] (lines 590-622);
    [query] is the Java string as its UTF-16 units.  [jchar] and
    [unsigned short] are the same 16 bits: the cast in the loop changes
    nothing. *)
Definition nativeTextFindStart (textPagePtr : Z) (query : list Z)
           (matchCase matchWholeWord : bool) : L Z :=
  let textPage := textPagePtr in
  if textPage =? 0 then lret 0
  else
    let queryLen := Z.of_nat (length query) in
    let queryChars := query in
    let wQuery := new_units (wrap_i32 (queryLen + 1)) in
    let wQuery := foldl (fun wQuery i => <[i := queryChars !! i]> wQuery)
                        wQuery (seq 0 (Z.to_nat queryLen)) in
    let wQuery := <[Z.to_nat queryLen := Some 0]> wQuery in
    let flags := 0 in
    let flags := if matchCase then Z.lor flags FPDF_MATCHCASE else flags in
    let flags := if matchWholeWord then Z.lor flags FPDF_MATCHWHOLEWORD
                 else flags in
    let+ search := lcall env (FPDFText_FindStart textPage wQuery flags 0) in
    lret (l_ret search).

(** [Java_com_hyntix_pdfium_PdfiumCore_nativeGetBookmarkDestIndex]
    (lines 727-745). *)
Definition nativeGetBookmarkDestIndex (docPtr bookmarkPtr : Z) : L Z :=
  let doc := docPtr in
  let bookmark := bookmarkPtr in
  if (doc =? 0) || (bookmark =? 0) then lret (-1)
  else
    let+ d := lcall env (FPDFBookmark_GetDest doc bookmark) in
    let dest := l_ret d in
    let+ dest :=
      (if dest =? 0 then
         let+ a := lcall env (FPDFBookmark_GetAction bookmark) in
         let action := l_ret a in
         if negb (action =? 0) then
           let+ d := lcall env (FPDFAction_GetDest doc action) in
           lret (l_ret d)
         else lret dest
       else lret dest) in
    if dest =? 0 then lret (-1)
    else
      let+ r := lcall env (FPDFDest_GetDestPageIndex doc dest) in
      lret (wrap_i32 (l_ret r)).

(** [Java_com_hyntix_pdfium_PdfiumCore_nativeGetLinkDestIndex]
    (lines 761-778). *)
Definition nativeGetLinkDestIndex (docPtr linkPtr : Z) : L Z :=
  let doc := docPtr in
  let link := linkPtr in
  if (doc =? 0) || (link =? 0) then lret (-1)
  else
    let+ d := lcall env (FPDFLink_GetDest doc link) in
    let dest := l_ret d in
    let+ dest :=
      (if dest =? 0 then
         let+ a := lcall env (FPDFLink_GetAction link) in
         let action := l_ret a in
         if negb (action =? 0) then
           let+ d := lcall env (FPDFAction_GetDest doc action) in
           lret (l_ret d)
         else lret dest
       else lret dest) in
    if dest =? 0 then lret (-1)
    else
      let+ r := lcall env (FPDFDest_GetDestPageIndex doc dest) in
      lret (wrap_i32 (l_ret r)).

(** [Java_com_hyntix_pdfium_PdfiumCore_nativeSetAnnotContents]
    (lines 923-946); [contents] is the Java string as its UTF-16 units. *)
Definition nativeSetAnnotContents (annotPtr : Z) (contents : list Z) : L bool :=
  let annot := annotPtr in
  if annot =? 0 then lret false
  else
    let len := Z.of_nat (length contents) in
    let wContents := contents in
    let buffer := new_units (wrap_i32 (len + 1)) in
    let buffer := foldl (fun buffer i => <[i := wContents !! i]> buffer)
                        buffer (seq 0 (Z.to_nat len)) in
    let buffer := <[Z.to_nat len := Some 0]> buffer in
    let+ r := lcall env (FPDFAnnot_SetStringValue annot "Contents" buffer) in
    let result := to_jboolean (l_ret r) in
    lret result.

(** [Java_com_hyntix_pdfium_PdfiumCore_nativeGetAnnotContents]
    (lines 2229-2242). *)
Definition nativeGetAnnotContents (annotPtr : Z) : L (option jstring_val) :=
  let annot := annotPtr in
  if annot =? 0 then lret None
  else
    let+ q := lcall env (FPDFAnnot_GetStringValue annot "Contents" NullBuffer 0) in
    let bufSize := wrap_u64 (l_ret q) in
    if bufSize <=? 2 then lret (Some [])
    else
      let buffer := new_units (bufSize / 2) in
      let+ f := lcall env (FPDFAnnot_GetStringValue annot "Contents"
                             (UnitBuffer (bufSize / 2)) bufSize) in
      let buffer := fill buffer (l_units f) in
      let result := NewString buffer (wrap_i32 (bufSize / 2 - 1)) in
      lret result.

(** The [for] loop of [nativeSetAnnotQuadPoints] (lines 2421-2436), from
    index [i] for [steps] more rounds. *)
Fixpoint append_quads (annot : Z) (pointsData : list float)
         (steps : nat) (i : nat) : L bool :=
  match steps with
  | O => lret true
  | S steps' =>
      let quad :=
        mkQuad (to_single (nth (i * 8 + 0) pointsData 0%float))
               (to_single (nth (i * 8 + 1) pointsData 0%float))
               (to_single (nth (i * 8 + 2) pointsData 0%float))
               (to_single (nth (i * 8 + 3) pointsData 0%float))
               (to_single (nth (i * 8 + 4) pointsData 0%float))
               (to_single (nth (i * 8 + 5) pointsData 0%float))
               (to_single (nth (i * 8 + 6) pointsData 0%float))
               (to_single (nth (i * 8 + 7) pointsData 0%float)) in
      let+ r := lcall env (FPDFAnnot_AppendAttachmentPoints annot quad) in
      if l_ret r =? 0 then lret false
      else append_quads annot pointsData steps' (S i)
  end.

(** [Java_com_hyntix_pdfium_PdfiumCore_nativeSetAnnotQuadPoints]
    (lines 2405-2441); [quadPoints] is the [jdoubleArray], [None] for
    null. *)
Definition nativeSetAnnotQuadPoints (annotPtr : Z)
           (quadPoints : option (list float)) : L bool :=
  let annot := annotPtr in
  if annot =? 0 then lret false
  else
    match quadPoints with
    | None => lret false
    | Some pointsData =>
        let len := Z.of_nat (length pointsData) in
        if negb (Z.rem len 8 =? 0) then lret false
        else
          lcall env (FPDFAnnot_SetAttachmentPoints annot 0 None 0) ;;+
          let numQuads := Z.quot len 8 in
          append_quads annot pointsData (Z.to_nat numQuads) 0
    end.

(** [Java_com_hyntix_pdfium_PdfiumCore_nativeSetFormFieldHighlightColor]
    (lines 3060-3070).  The colour is computed in [int] and arrives as the
    [unsigned long] PDFium's parameter is; the alpha parameter is an
    [unsigned char], the [jint] arrives reduced to 8 bits. *)
Definition nativeSetFormFieldHighlightColor (formPtr : Z) (r g b a : Z) : L unit :=
  let form := formPtr in
  if form =? 0 then lret tt
  else
    lcall env (FPDF_SetFormFieldHighlightColor form 0
                 (wrap_u64 (Z.lor (Z.lor (wrap_i32 (Z.shiftl r 16))
                                         (wrap_i32 (Z.shiftl g 8))) b))) ;;+
    lcall env (FPDF_SetFormFieldHighlightAlpha form (wrap_u8 a)) ;;+
    lret tt.

(** [Java_com_hyntix_pdfium_PdfiumCore_nativeGetXFAPacketContent]
    (lines 3034-3057); the result is the [jbyteArray], [None] for null. *)
Definition nativeGetXFAPacketContent (docPtr : Z) (index : Z)
  : L (option (list (option Byte.byte))) :=
  let doc := docPtr in
  if doc =? 0 then lret None
  else
    let bufSize := 0 in
    let+ q := lcall env (FPDF_GetXFAPacketContent doc index NullBytes 0) in
    let bufSize := default bufSize (wrap_u64 <$> l_len q) in
    if (l_ret q =? 0) || (bufSize =? 0) then lret (NewByteArray_from [] 0)
    else
      let buffer := repeat None (Z.to_nat bufSize) in
      let+ f := lcall env (FPDF_GetXFAPacketContent doc index
                             (ByteBuffer bufSize) bufSize) in
      let buffer := fill_bytes buffer (l_bytes f) in
      let bufSize := default bufSize (wrap_u64 <$> l_len f) in
      if l_ret f =? 0 then lret (NewByteArray_from [] 0)
      else
        let result := NewByteArray_from buffer (wrap_i32 bufSize) in
        lret result.


(** [Java_com_hyntix_pdfium_PdfiumCore_nativeGetBookmarkTitle]
    (lines 707-722). *)
Definition nativeGetBookmarkTitle (bookmarkPtr : Z) : L (option jstring_val) :=
  let bookmark := bookmarkPtr in
  if bookmark =? 0 then lret None
  else
    let+ q := lcall env (FPDFBookmark_GetTitle bookmark NullBuffer 0) in
    let size := wrap_u64 (l_ret q) in
    if size =? 0 then lret (Some [])
    else
      let buffer := new_units size in
      let+ f := lcall env (FPDFBookmark_GetTitle bookmark (UnitBuffer size) size) in
      let buffer := fill buffer (l_units f) in
      let result := NewString buffer (wrap_i32 (wrap_u64 (size / 2 - 1))) in
      lret result.

(** [Java_com_hyntix_pdfium_PdfiumCore_nativeGetLinkURI] (lines 783-802). *)
Definition nativeGetLinkURI (docPtr linkPtr : Z) : L (option utf_string) :=
  let doc := docPtr in
  let link := linkPtr in
  if (doc =? 0) || (link =? 0) then lret None
  else
    let+ a := lcall env (FPDFLink_GetAction link) in
    let action := l_ret a in
    if action =? 0 then lret None
    else
      let+ q := lcall env (FPDFAction_GetURIPath doc action NullBytes 0) in
      let size := wrap_u64 (l_ret q) in
      if size =? 0 then lret None
      else
        let buffer := repeat None (Z.to_nat size) in
        let+ f := lcall env (FPDFAction_GetURIPath doc action
                               (ByteBuffer size) size) in
        let buffer := fill_bytes buffer (l_bytes f) in
        let result := NewStringUTF buffer in
        lret (Some result).

(** [Java_com_hyntix_pdfium_PdfiumCore_nativeGetFormFieldName]
    (lines 1186-1208). *)
Definition nativeGetFormFieldName (formPtr annotPtr : Z) : L (option jstring_val) :=
  let annot := annotPtr in
  if annot =? 0 then lret None
  else
    let+ q := lcall env (FPDFAnnot_GetFormFieldName
                           (if formPtr =? 0 then 0 else formPtr) annot
                           NullBuffer 0) in
    let bufSize := wrap_u64 (l_ret q) in
    if bufSize <=? 2 then lret (Some [])
    else
      let buffer := new_units (bufSize / 2) in
      let+ f := lcall env (FPDFAnnot_GetFormFieldName
                             (if formPtr =? 0 then 0 else formPtr) annot
                             (UnitBuffer (bufSize / 2)) bufSize) in
      let buffer := fill buffer (l_units f) in
      let result := NewString buffer (wrap_i32 (bufSize / 2 - 1)) in
      lret result.

(** [Java_com_hyntix_pdfium_PdfiumCore_nativeGetFormFieldValue]
    (lines 1213-1235). *)
Definition nativeGetFormFieldValue (formPtr annotPtr : Z) : L (option jstring_val) :=
  let annot := annotPtr in
  if annot =? 0 then lret None
  else
    let+ q := lcall env (FPDFAnnot_GetFormFieldValue
                           (if formPtr =? 0 then 0 else formPtr) annot
                           NullBuffer 0) in
    let bufSize := wrap_u64 (l_ret q) in
    if bufSize <=? 2 then lret (Some [])
    else
      let buffer := new_units (bufSize / 2) in
      let+ f := lcall env (FPDFAnnot_GetFormFieldValue
                             (if formPtr =? 0 then 0 else formPtr) annot
                             (UnitBuffer (bufSize / 2)) bufSize) in
      let buffer := fill buffer (l_units f) in
      let result := NewString buffer (wrap_i32 (bufSize / 2 - 1)) in
      lret result.

(** [Java_com_hyntix_pdfium_PdfiumCore_nativeGetFormFieldOptionLabel]
    (lines 1285-1308). *)
Definition nativeGetFormFieldOptionLabel (formPtr annotPtr index : Z)
  : L (option jstring_val) :=
  let annot := annotPtr in
  if annot =? 0 then lret None
  else
    let+ q := lcall env (FPDFAnnot_GetOptionLabel
                           (if formPtr =? 0 then 0 else formPtr) annot index
                           NullBuffer 0) in
    let bufSize := wrap_u64 (l_ret q) in
    if bufSize <=? 2 then lret (Some [])
    else
      let buffer := new_units (bufSize / 2) in
      let+ f := lcall env (FPDFAnnot_GetOptionLabel
                             (if formPtr =? 0 then 0 else formPtr) annot index
                             (UnitBuffer (bufSize / 2)) bufSize) in
      let buffer := fill buffer (l_units f) in
      let result := NewString buffer (wrap_i32 (bufSize / 2 - 1)) in
      lret result.

(** [Java_com_hyntix_pdfium_PdfiumCore_nativeGetAttachmentName]
    (lines 1342-1361). *)
Definition nativeGetAttachmentName (docPtr index : Z) : L (option jstring_val) :=
  let doc := docPtr in
  if doc =? 0 then lret None
  else
    let+ a := lcall env (FPDFDoc_GetAttachment doc index) in
    let attachment := l_ret a in
    if attachment =? 0 then lret None
    else
      let+ q := lcall env (FPDFAttachment_GetName attachment NullBuffer 0) in
      let size := wrap_u64 (l_ret q) in
      if size =? 0 then lret (Some [])
      else
        let buffer := new_units size in
        let+ f := lcall env (FPDFAttachment_GetName attachment
                               (UnitBuffer size) size) in
        let buffer := fill buffer (l_units f) in
        let result := NewString buffer (wrap_i32 (wrap_u64 (size / 2 - 1))) in
        lret result.

(** [Java_com_hyntix_pdfium_PdfiumCore_nativeStructElementGetType]
    (lines 1785-1799). *)
Definition nativeStructElementGetType (structElemPtr : Z)
  : L (option jstring_val) :=
  let elem := structElemPtr in
  if elem =? 0 then lret None
  else
    let+ q := lcall env (FPDF_StructElement_GetType elem NullBuffer 0) in
    let size := wrap_u64 (l_ret q) in
    if size =? 0 then lret (Some [])
    else
      let buffer := new_units size in
      let+ f := lcall env (FPDF_StructElement_GetType elem
                             (UnitBuffer size) size) in
      let buffer := fill buffer (l_units f) in
      let result := NewString buffer (wrap_i32 (wrap_u64 (size / 2 - 1))) in
      lret result.

(** [Java_com_hyntix_pdfium_PdfiumCore_nativeStructElementGetAltText]
    (lines 1801-1815). *)
Definition nativeStructElementGetAltText (structElemPtr : Z)
  : L (option jstring_val) :=
  let elem := structElemPtr in
  if elem =? 0 then lret None
  else
    let+ q := lcall env (FPDF_StructElement_GetAltText elem NullBuffer 0) in
    let size := wrap_u64 (l_ret q) in
    if size =? 0 then lret (Some [])
    else
      let buffer := new_units size in
      let+ f := lcall env (FPDF_StructElement_GetAltText elem
                             (UnitBuffer size) size) in
      let buffer := fill buffer (l_units f) in
      let result := NewString buffer (wrap_i32 (wrap_u64 (size / 2 - 1))) in
      lret result.

(** [Java_com_hyntix_pdfium_PdfiumCore_nativeGetSignatureReason]
    (lines 1856-1870). *)
Definition nativeGetSignatureReason (sigObjPtr : Z) : L (option utf_string) :=
  let sig := sigObjPtr in
  if sig =? 0 then lret None
  else
    let+ q := lcall env (FPDFSignatureObj_GetReason sig NullBytes 0) in
    let size := wrap_u64 (l_ret q) in
    if size =? 0 then lret (Some (NewStringUTF [Some Byte.x00]))
    else
      let buffer := repeat None (Z.to_nat size) in
      let+ f := lcall env (FPDFSignatureObj_GetReason sig (ByteBuffer size) size) in
      let buffer := fill_bytes buffer (l_bytes f) in
      let result := NewStringUTF buffer in
      lret (Some result).

(** [Java_com_hyntix_pdfium_PdfiumCore_nativeGetSignatureTime]
    (lines 1872-1886). *)
Definition nativeGetSignatureTime (sigObjPtr : Z) : L (option utf_string) :=
  let sig := sigObjPtr in
  if sig =? 0 then lret None
  else
    let+ q := lcall env (FPDFSignatureObj_GetTime sig NullBytes 0) in
    let size := wrap_u64 (l_ret q) in
    if size =? 0 then lret (Some (NewStringUTF [Some Byte.x00]))
    else
      let buffer := repeat None (Z.to_nat size) in
      let+ f := lcall env (FPDFSignatureObj_GetTime sig (ByteBuffer size) size) in
      let buffer := fill_bytes buffer (l_bytes f) in
      let result := NewStringUTF buffer in
      lret (Some result).

(** [Java_com_hyntix_pdfium_PdfiumCore_nativeGetWebLinkURL]
    (lines 1929-1943); here the size is an [int], a number of units. *)
Definition nativeGetWebLinkURL (pageLinksPtr index : Z) : L (option jstring_val) :=
  let pageLinks := pageLinksPtr in
  if pageLinks =? 0 then lret None
  else
    let+ q := lcall env (FPDFLink_GetURL pageLinks index NullBuffer 0) in
    let size := wrap_i32 (l_ret q) in
    if size <=? 0 then lret (Some [])
    else
      let buffer := new_units size in
      let+ f := lcall env (FPDFLink_GetURL pageLinks index (UnitBuffer size) size) in
      let buffer := fill buffer (l_units f) in
      let result := NewString buffer (wrap_i32 (size - 1)) in
      lret result.

(** [Java_com_hyntix_pdfium_PdfiumCore_nativeGetAnnotAuthor]
    (lines 2244-2257). *)
Definition nativeGetAnnotAuthor (annotPtr : Z) : L (option jstring_val) :=
  let annot := annotPtr in
  if annot =? 0 then lret None
  else
    let+ q := lcall env (FPDFAnnot_GetStringValue annot "T" NullBuffer 0) in
    let bufSize := wrap_u64 (l_ret q) in
    if bufSize <=? 2 then lret (Some [])
    else
      let buffer := new_units (bufSize / 2) in
      let+ f := lcall env (FPDFAnnot_GetStringValue annot "T"
                             (UnitBuffer (bufSize / 2)) bufSize) in
      let buffer := fill buffer (l_units f) in
      let result := NewString buffer (wrap_i32 (bufSize / 2 - 1)) in
      lret result.

(** [Java_com_hyntix_pdfium_PdfiumCore_nativeGetAnnotSubject]
    (lines 2259-2272). *)
Definition nativeGetAnnotSubject (annotPtr : Z) : L (option jstring_val) :=
  let annot := annotPtr in
  if annot =? 0 then lret None
  else
    let+ q := lcall env (FPDFAnnot_GetStringValue annot "Subj" NullBuffer 0) in
    let bufSize := wrap_u64 (l_ret q) in
    if bufSize <=? 2 then lret (Some [])
    else
      let buffer := new_units (bufSize / 2) in
      let+ f := lcall env (FPDFAnnot_GetStringValue annot "Subj"
                             (UnitBuffer (bufSize / 2)) bufSize) in
      let buffer := fill buffer (l_units f) in
      let result := NewString buffer (wrap_i32 (bufSize / 2 - 1)) in
      lret result.

(** [Java_com_hyntix_pdfium_PdfiumCore_nativeGetAnnotModificationDate]
    (lines 2274-2287). *)
Definition nativeGetAnnotModificationDate (annotPtr : Z)
  : L (option jstring_val) :=
  let annot := annotPtr in
  if annot =? 0 then lret None
  else
    let+ q := lcall env (FPDFAnnot_GetStringValue annot "M" NullBuffer 0) in
    let bufSize := wrap_u64 (l_ret q) in
    if bufSize <=? 2 then lret (Some [])
    else
      let buffer := new_units (bufSize / 2) in
      let+ f := lcall env (FPDFAnnot_GetStringValue annot "M"
                             (UnitBuffer (bufSize / 2)) bufSize) in
      let buffer := fill buffer (l_units f) in
      let result := NewString buffer (wrap_i32 (bufSize / 2 - 1)) in
      lret result.

(** [Java_com_hyntix_pdfium_PdfiumCore_nativeGetAnnotCreationDate]
    (lines 2289-2302). *)
Definition nativeGetAnnotCreationDate (annotPtr : Z) : L (option jstring_val) :=
  let annot := annotPtr in
  if annot =? 0 then lret None
  else
    let+ q := lcall env (FPDFAnnot_GetStringValue annot "CreationDate"
                           NullBuffer 0) in
    let bufSize := wrap_u64 (l_ret q) in
    if bufSize <=? 2 then lret (Some [])
    else
      let buffer := new_units (bufSize / 2) in
      let+ f := lcall env (FPDFAnnot_GetStringValue annot "CreationDate"
                             (UnitBuffer (bufSize / 2)) bufSize) in
      let buffer := fill buffer (l_units f) in
      let result := NewString buffer (wrap_i32 (bufSize / 2 - 1)) in
      lret result.

(** [Java_com_hyntix_pdfium_PdfiumCore_nativeGetFormFieldOptionValue]
    (lines 2531-2557): the label, asked for once more. *)
Definition nativeGetFormFieldOptionValue (formPtr annotPtr index : Z)
  : L (option jstring_val) :=
  let annot := annotPtr in
  if annot =? 0 then lret None
  else
    let+ q := lcall env (FPDFAnnot_GetOptionLabel
                           (if formPtr =? 0 then 0 else formPtr) annot index
                           NullBuffer 0) in
    let bufSize := wrap_u64 (l_ret q) in
    if bufSize <=? 2 then lret (Some [])
    else
      let buffer := new_units (bufSize / 2) in
      let+ f := lcall env (FPDFAnnot_GetOptionLabel
                             (if formPtr =? 0 then 0 else formPtr) annot index
                             (UnitBuffer (bufSize / 2)) bufSize) in
      let buffer := fill buffer (l_units f) in
      let result := NewString buffer (wrap_i32 (bufSize / 2 - 1)) in
      lret result.

(** [Java_com_hyntix_pdfium_PdfiumCore_nativeGetActionFilePath]
    (lines 2589-2602). *)
Definition nativeGetActionFilePath (actionPtr : Z) : L (option utf_string) :=
  let action := actionPtr in
  if action =? 0 then lret None
  else
    let+ q := lcall env (FPDFAction_GetFilePath action NullBytes 0) in
    let size := wrap_u64 (l_ret q) in
    if size =? 0 then lret (Some (NewStringUTF [Some Byte.x00]))
    else
      let buffer := repeat None (Z.to_nat size) in
      let+ f := lcall env (FPDFAction_GetFilePath action (ByteBuffer size) size) in
      let buffer := fill_bytes buffer (l_bytes f) in
      let result := NewStringUTF buffer in
      lret (Some result).

(** [Java_com_hyntix_pdfium_PdfiumCore_nativeGetFormFieldDefaultValue]
    (lines 2860-2880): the current value, both handles tested. *)
Definition nativeGetFormFieldDefaultValue (formPtr annotPtr : Z)
  : L (option jstring_val) :=
  let form := formPtr in
  let annot := annotPtr in
  if (form =? 0) || (annot =? 0) then lret None
  else
    let+ q := lcall env (FPDFAnnot_GetFormFieldValue form annot NullBuffer 0) in
    let bufSize := wrap_u64 (l_ret q) in
    if bufSize <=? 2 then lret (Some [])
    else
      let buffer := new_units (bufSize / 2) in
      let+ f := lcall env (FPDFAnnot_GetFormFieldValue form annot
                             (UnitBuffer (bufSize / 2)) bufSize) in
      let buffer := fill buffer (l_units f) in
      let result := NewString buffer (wrap_i32 (bufSize / 2 - 1)) in
      lret result.

(** [Java_com_hyntix_pdfium_PdfiumCore_nativeGetXFAPacketName]
    (lines 3015-3032). *)
Definition nativeGetXFAPacketName (docPtr index : Z) : L (option utf_string) :=
  let doc := docPtr in
  if doc =? 0 then lret None
  else
    let+ q := lcall env (FPDF_GetXFAPacketName doc index NullBytes 0) in
    let bufSize := wrap_u64 (l_ret q) in
    if bufSize =? 0 then lret (Some (NewStringUTF [Some Byte.x00]))
    else
      let buffer := repeat None (Z.to_nat bufSize) in
      let+ f := lcall env (FPDF_GetXFAPacketName doc index
                             (ByteBuffer bufSize) bufSize) in
      let buffer := fill_bytes buffer (l_bytes f) in
      let result := NewStringUTF buffer in
      lret (Some result).

End Stateless.

(** ** The size-query/fill protocol, as the string getters use it *)

(** The fill calls: a string function of PDFium given a buffer. *)
Definition fills_buffer (c : LibCall) : bool :=
  match c with
  | FPDFBookmark_GetTitle _ (UnitBuffer _) _
  | FPDFAnnot_GetFormFieldName _ _ (UnitBuffer _) _
  | FPDFAnnot_GetFormFieldValue _ _ (UnitBuffer _) _
  | FPDFAnnot_GetOptionLabel _ _ _ (UnitBuffer _) _
  | FPDFAttachment_GetName _ (UnitBuffer _) _
  | FPDF_StructElement_GetType _ (UnitBuffer _) _
  | FPDF_StructElement_GetAltText _ (UnitBuffer _) _
  | FPDFLink_GetURL _ _ (UnitBuffer _) _
  | FPDFAnnot_GetStringValue _ _ (UnitBuffer _) _
  | FPDFAction_GetURIPath _ _ (ByteBuffer _) _
  | FPDFAction_GetFilePath _ (ByteBuffer _) _
  | FPDFSignatureObj_GetReason _ (ByteBuffer _) _
  | FPDFSignatureObj_GetTime _ (ByteBuffer _) _
  | FPDF_GetXFAPacketName _ _ (ByteBuffer _) _ => true
  | _ => false
  end.

(** Two PDFiums that differ at most in what their fill calls return: they
    answer every other call alike, and store the same in every buffer. *)
Definition same_but_fill_return (env env' : LibEnv) : Prop :=
  forall t c,
    if fills_buffer c
    then l_units (env' t c) = l_units (env t c) /\
         l_bytes (env' t c) = l_bytes (env t c)
    else env' t c = env t c.

(** The same for the collaborators of the entry points that keep a world:
    the fill calls of [FPDF_GetMetaText] and [FPDF_GetPageLabel]. *)
Definition fills_document_buffer (c : Call) : bool :=
  match c with
  | FPDF_GetMetaText _ _ (UnitBuffer _) _
  | FPDF_GetPageLabel _ _ (UnitBuffer _) _ => true
  | _ => false
  end.

Definition same_but_document_fill_return (env env' : Env) : Prop :=
  forall t c,
    if fills_document_buffer c
    then r_out (env' t c) = r_out (env t c)
    else env' t c = env t c.

(** What a string of [len] units taken from a buffer of [capacity] units is
    made of, [stored] being the units the fill call stored: those units
    when it stored at least [len], and otherwise the stored units followed
    by units that nothing wrote. *)
Definition made_of (s : jstring_val) (stored : list Z) (len : Z) : Prop :=
  Z.of_nat (length s) = len /\
  (len <= Z.of_nat (length stored) ->
   s = Some <$> take (Z.to_nat len) stored) /\
  (Z.of_nat (length stored) <= len ->
   s = (Some <$> stored) ++ repeat None (Z.to_nat len - length stored)).

(** An entry point [run] (a function of PDFium, its arguments and the
    trace [t] of the calls made up to its size query being fixed) follows
    the size query: [ask] is the PDFium function with its leading
    arguments, [convert] the conversion to the type of the size variable,
    [absent] the test that ends the operation after the size query,
    [capacity] the number of units allocated, [buflen] the length announced
    to the fill call and [len] the length handed to [NewString]. *)
Definition follows_size_query
           (run : LibEnv -> option jstring_val * list LibCall)
           (env : LibEnv) (t : list LibCall)
           (ask : BufArg -> Z -> LibCall) (convert : Z -> Z)
           (absent : Z -> bool) (capacity buflen len : Z -> Z) : Prop :=
  let query := ask NullBuffer 0 in
  let size := convert (l_ret (env t query)) in
  let fill_call := ask (UnitBuffer (capacity size)) (buflen size) in
  let stored := l_units (env (t ++ [query]) fill_call) in
  (if absent size then run env = (Some [], t ++ [query])
   else
     run env = (NewString (fill (new_units (capacity size)) stored) (len size),
                t ++ [query; fill_call]) /\
     (0 <= len size <= capacity size ->
      exists s, (run env).1 = Some s /\ made_of s stored (len size))) /\
  (forall env', same_but_fill_return env env' -> run env' = run env).

(** The three ways the size is used.  A size in bytes, 0 for absent, with
    as many units allocated as there are bytes: *)
Definition follows_byte_size run env t ask : Prop :=
  follows_size_query run env t ask wrap_u64 (fun size => size =? 0)
    (fun size => size) (fun size => size)
    (fun size => wrap_i32 (wrap_u64 (size / 2 - 1))).

(** a size in bytes, up to 2 (a lone terminator) for absent, with half as
    many units allocated: *)
Definition follows_half_size run env t ask : Prop :=
  follows_size_query run env t ask wrap_u64 (fun size => size <=? 2)
    (fun size => size / 2) (fun size => size)
    (fun size => wrap_i32 (size / 2 - 1)).

(** an [int] size in units, up to 0 for absent: *)
Definition follows_unit_size run env t ask : Prop :=
  follows_size_query run env t ask wrap_i32 (fun size => size <=? 0)
    (fun size => size) (fun size => size)
    (fun size => wrap_i32 (size - 1)).

(** The same for the getters that hand the buffer to [NewStringUTF]: a size
    in bytes, 0 for absent, with as many bytes allocated; [empty] is the
    result for an absent string. *)
Definition follows_size_query_utf
           (run : LibEnv -> option utf_string * list LibCall)
           (env : LibEnv) (t : list LibCall)
           (ask : ByteBufArg -> Z -> LibCall)
           (empty : option utf_string) : Prop :=
  let query := ask NullBytes 0 in
  let size := wrap_u64 (l_ret (env t query)) in
  let fill_call := ask (ByteBuffer size) size in
  let stored := l_bytes (env (t ++ [query]) fill_call) in
  (if size =? 0 then run env = (empty, t ++ [query])
   else
     run env
     = (Some (NewStringUTF (fill_bytes (repeat None (Z.to_nat size)) stored)),
        t ++ [query; fill_call])) /\
  (forall env', same_but_fill_return env env' -> run env' = run env).

(** And for the two getters that keep a world; [finish] is what the entry
    point does with the result of [NewString]. *)
Definition follows_size_query_doc
           (run : Env -> option jstring_val * World)
           (env : Env) (w : World)
           (ask : BufArg -> Z -> Call) (buflen : Z -> Z)
           (finish : option jstring_val -> option jstring_val) : Prop :=
  let query := ask NullBuffer 0 in
  let size := wrap_u64 (r_ret (env (trace w) query)) in
  let fill_call := ask (UnitBuffer size) (buflen size) in
  let stored := out_units (r_out (env (trace w ++ [query]) fill_call)) in
  let len := wrap_i32 (wrap_u64 (size / 2 - 1)) in
  (if size =? 0 then run env = (Some [], set_trace (trace w ++ [query]) w)
   else
     run env = (finish (NewString (fill (new_units size) stored) len),
                set_trace (trace w ++ [query; fill_call]) w) /\
     (0 <= len <= size ->
      exists s, (run env).1 = Some s /\ made_of s stored len)) /\
  (forall env', same_but_document_fill_return env env' -> run env' = run env).

(** A PDFium whose bookmark titles announce 10 bytes and are stored in
    full: four letters and the terminator. *)
Definition bookmark_env : LibEnv := fun t c =>
  match c with
  | FPDFBookmark_GetTitle _ NullBuffer _ => answer 10
  | FPDFBookmark_GetTitle _ (UnitBuffer _) _ =>
      mkLibResp 10 [84; 101; 115; 116; 0] [] None
  | _ => answer 0
  end.

(** A PDFium whose links have an action but no URI. *)
Definition no_uri_env : LibEnv := fun t c =>
  match c with
  | FPDFLink_GetAction _ => answer 6
  | _ => answer 0
  end.

(** ** A PDFium that keeps annotation strings *)

(** What PDFium reads from an [FPDF_WIDESTRING]: the units before the first
    zero unit. *)
Fixpoint wide_chars (value : list (option Z)) : list Z :=
  match value with
  | Some u :: rest => if u =? 0 then [] else u :: wide_chars rest
  | _ => []
  end.

(** The string last set under [key] on [annot] by the calls of a trace. *)
Definition string_value (t : list LibCall) (annot : Z) (key : string) : list Z :=
  foldl (fun current c =>
           match c with
           | FPDFAnnot_SetStringValue a k v =>
               if (a =? annot) && bool_decide (k = key) then wide_chars v
               else current
           | _ => current
           end) [] t.

(** Such a PDFium: [FPDFAnnot_GetStringValue] returns the byte length of
    the string last set, terminator included, and stores the string when
    the announced length is enough for it. *)
Definition annot_store_env : LibEnv := fun t c =>
  match c with
  | FPDFAnnot_SetStringValue _ _ _ => answer 1
  | FPDFAnnot_GetStringValue annot key buffer buflen =>
      let value := string_value t annot key ++ [0] in
      let size := 2 * Z.of_nat (length value) in
      mkLibResp size
                (match buffer with
                 | NullBuffer => []
                 | UnitBuffer _ => if size <=? buflen then value else []
                 end) [] None
  | _ => answer 0
  end.

Definition keeps_string_values (env : LibEnv) : Prop :=
  forall t annot key buffer buflen,
    env t (FPDFAnnot_GetStringValue annot key buffer buflen)
    = annot_store_env t (FPDFAnnot_GetStringValue annot key buffer buflen).

(** Calls that set no string under [key] on [annot]. *)
Definition leaves_string_value (annot : Z) (key : string) (c : LibCall) : bool :=
  match c with
  | FPDFAnnot_SetStringValue a k _ => negb ((a =? annot) && bool_decide (k = key))
  | _ => true
  end.

(** A PDFium whose contents query announces 7 bytes. *)
Definition odd_size_env : LibEnv := fun t c =>
  match c with
  | FPDFAnnot_GetStringValue _ _ NullBuffer _ => answer 7
  | FPDFAnnot_GetStringValue _ _ (UnitBuffer _) _ =>
      mkLibResp 7 [72; 105; 0] [] None
  | _ => answer 0
  end.

(** A call whose handle arguments are all non-null. *)
Definition passes_no_null (c : LibCall) : bool :=
  match c with
  | FPDFText_GetText h _ _ _
  | FPDFText_FindStart h _ _ _
  | FPDFBookmark_GetAction h
  | FPDFLink_GetAction h
  | FPDFAnnot_SetStringValue h _ _
  | FPDFAnnot_GetStringValue h _ _ _
  | FPDFAnnot_SetAttachmentPoints h _ _ _
  | FPDFAnnot_AppendAttachmentPoints h _
  | FPDF_SetFormFieldHighlightColor h _ _
  | FPDF_SetFormFieldHighlightAlpha h _
  | FPDF_GetXFAPacketContent h _ _ _
  | FPDF_GetXFAPacketName h _ _ _
  | FPDFBookmark_GetTitle h _ _
  | FPDFAction_GetFilePath h _ _
  | FPDFDoc_GetAttachment h _
  | FPDFAttachment_GetName h _ _
  | FPDF_StructElement_GetType h _ _
  | FPDF_StructElement_GetAltText h _ _
  | FPDFSignatureObj_GetReason h _ _
  | FPDFSignatureObj_GetTime h _ _
  | FPDFLink_GetURL h _ _ _ => negb (h =? 0)
  | FPDFBookmark_GetDest d h
  | FPDFLink_GetDest d h
  | FPDFAction_GetDest d h
  | FPDFDest_GetDestPageIndex d h
  | FPDFAction_GetURIPath d h _ _
  | FPDFAnnot_GetFormFieldName d h _ _
  | FPDFAnnot_GetFormFieldValue d h _ _
  | FPDFAnnot_GetOptionLabel d h _ _ _ => negb (d =? 0) && negb (h =? 0)
  end.

(** A PDFium in which bookmark 4 has no destination of its own but an
    action, 6, that leads to destination 7 on page 2. *)
Definition action_dest_env : LibEnv := fun t c =>
  match c with
  | FPDFBookmark_GetAction _ => answer 6
  | FPDFAction_GetDest _ _ => answer 7
  | FPDFDest_GetDestPageIndex _ _ => answer 2
  | _ => answer 0
  end.

(** A PDFium whose text page holds the four characters of a word: asked
    for [count] characters it stores them and the terminator and returns
    their number, terminator included. *)
Definition word_env : LibEnv := fun t c =>
  match c with
  | FPDFText_GetText _ start count (UnitBuffer _) =>
      let chars := take (Z.to_nat count) (drop (Z.to_nat start) [80; 68; 70; 33]) in
      mkLibResp (Z.of_nat (length chars) + 1) (chars ++ [0]) [] None
  | _ => answer 0
  end.

(** What PDFium returned to the calls [cs], made one after the other after
    the calls [t]. *)
Fixpoint returned (env : LibEnv) (t cs : list LibCall) : list Z :=
  match cs with
  | [] => []
  | c :: cs' => l_ret (env t c) :: returned env (t ++ [c]) cs'
  end.

(** The quadrilaterals of a coordinate array: each group of eight
    coordinates, cast to [float], in order. *)
Fixpoint quads_of (pointsData : list float) : list FS_QUADPOINTSF :=
  match pointsData with
  | a1 :: b1 :: a2 :: b2 :: a3 :: b3 :: a4 :: b4 :: rest =>
      mkQuad (to_single a1) (to_single b1) (to_single a2) (to_single b2)
             (to_single a3) (to_single b3) (to_single a4) (to_single b4)
        :: quads_of rest
  | _ => []
  end.

(** A PDFium that accepts one quadrilateral per annotation and refuses the
    next. *)
Definition one_quad_env : LibEnv := fun t c =>
  match c with
  | FPDFAnnot_AppendAttachmentPoints _ _ =>
      if existsb (fun c' => match c' with
                            | FPDFAnnot_AppendAttachmentPoints _ _ => true
                            | _ => false
                            end) t
      then answer 0 else answer 1
  | _ => answer 1
  end.

(** A PDFium whose XFA packet has 6 bytes at the size query and 4 by the
    time it is fetched. *)
Definition shrinking_packet_env : LibEnv := fun t c =>
  match c with
  | FPDF_GetXFAPacketContent _ _ NullBytes _ => mkLibResp 1 [] [] (Some 6)
  | FPDF_GetXFAPacketContent _ _ (ByteBuffer _) _ =>
      mkLibResp 1 [] [Byte.x3c; Byte.x61; Byte.x2f; Byte.x3e] (Some 4)
  | _ => answer 0
  end.

(** A PDFium whose XFA packet has 2 bytes at the size query and is
    reported as 4 bytes long by the fetch. *)
Definition growing_packet_env : LibEnv := fun t c =>
  match c with
  | FPDF_GetXFAPacketContent _ _ NullBytes _ => mkLibResp 1 [] [] (Some 2)
  | FPDF_GetXFAPacketContent _ _ (ByteBuffer _) _ =>
      mkLibResp 1 [] [Byte.x3c; Byte.x61] (Some 4)
  | _ => answer 0
  end.

(** A PDFium that announces an XFA packet of 6 bytes and then refuses to
    hand it out. *)
Definition refusing_packet_env : LibEnv := fun t c =>
  match c with
  | FPDF_GetXFAPacketContent _ _ NullBytes _ => mkLibResp 1 [] [] (Some 6)
  | FPDF_GetXFAPacketContent _ _ (ByteBuffer _) _ =>
      mkLibResp 0 [] [Byte.x3c; Byte.x61] None
  | _ => answer 0
  end.
(** ** Machine integers: ranges *)

Lemma wrap_u64_small z : 0 <= z < 2 ^ 64 -> wrap_u64 z = z.
Proof. intros Hz. unfold wrap_u64. apply Z.mod_small. exact Hz. Qed.

Lemma wrap_i32_small z : - 2 ^ 31 <= z < 2 ^ 31 -> wrap_i32 z = z.
Proof.
  intros Hz. unfold wrap_i32. rewrite Z.mod_small by lia. lia.
Qed.

Lemma wrap_i64_small z : - 2 ^ 63 <= z < 2 ^ 63 -> wrap_i64 z = z.
Proof.
  intros Hz. unfold wrap_i64. rewrite Z.mod_small by lia. lia.
Qed.

Lemma wrap_i64_range z : - 2 ^ 63 <= wrap_i64 z < 2 ^ 63.
Proof.
  unfold wrap_i64. pose proof (Z.mod_pos_bound (z + 2 ^ 63) (2 ^ 64)). lia.
Qed.

Lemma wrap_u64_range z : 0 <= wrap_u64 z < 2 ^ 64.
Proof. unfold wrap_u64. apply Z.mod_pos_bound. lia. Qed.

(** ** Reasoning about the monad *)

Lemma bind_eq {A B} (m : M A) (k : A -> M B) w :
  bind m k w = k (m w).1 (m w).2.
Proof. unfold bind. destruct (m w); reflexivity. Qed.

Lemma delete_array_live b blk w :
  heap w !! b = Some blk ->
  delete_array b w =
    (tt, mkWorld (libraryReferenceCount w) (g_docBuffers w) (delete b (heap w))
                 (next_block w) (freed w ++ [b]) (heap_fault w)
                 (pixel_memory w) (trace w)).
Proof. intros H. unfold delete_array. rewrite H. reflexivity. Qed.

Lemma delete_array_dead b w :
  heap w !! b = None ->
  delete_array b w =
    (tt, mkWorld (libraryReferenceCount w) (g_docBuffers w) (heap w)
                 (next_block w) (freed w ++ [b]) true
                 (pixel_memory w) (trace w)).
Proof. intros H. unfold delete_array. rewrite H. reflexivity. Qed.

Ltac world_cbn :=
  cbn [ret get modify call fst snd default from_option id
       libraryReferenceCount g_docBuffers heap next_block freed
       heap_fault pixel_memory trace
       set_libraryReferenceCount set_g_docBuffers set_heap
       set_pixel_memory set_trace].

Ltac run_monad :=
  repeat first
    [ rewrite bind_eq
    | progress world_cbn
    | progress unfold set_libraryReferenceCount, set_g_docBuffers, set_heap,
                      set_pixel_memory, set_trace ].

(** ** The reference count *)

Section LifecycleFacts.

Variable env : Env.

Lemma nativeInitLibrary_spec w :
  nativeInitLibrary env w =
    (tt, mkWorld (wrap_i32 (libraryReferenceCount w + 1)) (g_docBuffers w)
                 (heap w) (next_block w) (freed w) (heap_fault w)
                 (pixel_memory w)
                 (trace w ++ if libraryReferenceCount w =? 0
                             then [FPDF_InitLibraryWithConfig 2] else [])).
Proof.
  unfold nativeInitLibrary. destruct w as [c g h n f ft px t]. run_monad.
  destruct (c =? 0); run_monad; unfold set_libraryReferenceCount; cbn;
    rewrite ?app_nil_r; reflexivity.
Qed.

Lemma nativeDestroyLibrary_spec w :
  nativeDestroyLibrary env w =
    (tt, mkWorld (wrap_i32 (libraryReferenceCount w - 1)) (g_docBuffers w)
                 (heap w) (next_block w) (freed w) (heap_fault w)
                 (pixel_memory w)
                 (trace w ++ if wrap_i32 (libraryReferenceCount w - 1) =? 0
                             then [FPDF_DestroyLibrary] else [])).
Proof.
  unfold nativeDestroyLibrary. destruct w as [c g h n f ft px t]. run_monad.
  destruct (wrap_i32 (c - 1) =? 0); run_monad; unfold set_trace; cbn;
    rewrite ?app_nil_r; reflexivity.
Qed.

(** [n] init calls from a count [c >= 0]: only the first can reach PDFium,
    and only if it found the count at zero. *)
Lemma repeat_init_spec (n : nat) : forall w,
  0 <= libraryReferenceCount w ->
  libraryReferenceCount w + Z.of_nat n <= INT_MAX ->
  let w' := (repeat_call (nativeInitLibrary env) n w).2 in
  libraryReferenceCount w' = libraryReferenceCount w + Z.of_nat n /\
  trace w' = trace w ++
               (if (libraryReferenceCount w =? 0) && negb (Nat.eqb n 0)
                then [FPDF_InitLibraryWithConfig 2] else []).
Proof.
  unfold INT_MAX. induction n as [|n IH]; intros w Hc Hmax.
  - cbn. rewrite andb_false_r, app_nil_r. split; [lia | reflexivity].
  - cbn [repeat_call]. rewrite bind_eq, nativeInitLibrary_spec. cbn [fst snd].
    match goal with |- context [repeat_call _ n ?w0] => specialize (IH w0) end.
    cbn [libraryReferenceCount trace] in IH.
    rewrite wrap_i32_small in IH by lia.
    destruct IH as [IHc IHt]; [lia | lia |].
    cbv zeta. rewrite wrap_i32_small by lia. rewrite IHc, IHt. split; [lia |].
    rewrite <- app_assoc. f_equal.
    replace (libraryReferenceCount w + 1 =? 0) with false
      by (symmetry; apply Z.eqb_neq; lia).
    cbn. rewrite andb_true_r, app_nil_r. reflexivity.
Qed.

(** [m] destroy calls from a count [c > m]: none reaches PDFium. *)
Lemma repeat_destroy_spec (m : nat) : forall w,
  Z.of_nat m < libraryReferenceCount w <= INT_MAX ->
  let w' := (repeat_call (nativeDestroyLibrary env) m w).2 in
  libraryReferenceCount w' = libraryReferenceCount w - Z.of_nat m /\
  trace w' = trace w.
Proof.
  unfold INT_MAX. induction m as [|m IH]; intros w Hc.
  - cbn. split; [lia | reflexivity].
  - cbn [repeat_call]. rewrite bind_eq, nativeDestroyLibrary_spec. cbn [fst snd].
    match goal with |- context [repeat_call _ m ?w0] => specialize (IH w0) end.
    cbn [libraryReferenceCount trace] in IH.
    rewrite wrap_i32_small in IH by lia.
    destruct IH as [IHc IHt]; [lia |].
    cbv zeta. rewrite wrap_i32_small by lia. rewrite IHc, IHt. split; [lia |].
    replace (libraryReferenceCount w - 1 =? 0) with false
      by (symmetry; apply Z.eqb_neq; lia).
    apply app_nil_r.
Qed.

End LifecycleFacts.

(** ** Documents: what each entry point does to the world *)

Section DocumentFacts.

Variable env : Env.

Lemma new_block_store_lookup (h : gmap positive (list Byte.byte)) b data :
  alter (fun blk => take (Z.to_nat 0) blk ++ data) b (<[b := []]> h)
  = <[b := data]> h.
Proof.
  apply map_eq. intros i. destruct (decide (i = b)) as [->|Hne].
  - rewrite lookup_alter_eq, !lookup_insert_eq. reflexivity.
  - rewrite lookup_alter_ne, !lookup_insert_ne by congruence. reflexivity.
Qed.

Lemma nativeOpenMemDocument_spec data password w :
  let b := next_block w in
  let load := FPDF_LoadMemDocument b data (Z.of_nat (length data)) password in
  let doc := r_ret (env (trace w) load) in
  nativeOpenMemDocument env data password w =
    if doc =? 0
    then (0, mkWorld (libraryReferenceCount w) (g_docBuffers w)
                     (delete b (heap w)) (Pos.succ b) (freed w ++ [b])
                     (heap_fault w) (pixel_memory w)
                     (trace w ++ [load; FPDF_GetLastError]))
    else (doc, mkWorld (libraryReferenceCount w) (<[doc := b]> (g_docBuffers w))
                       (<[b := data]> (heap w)) (Pos.succ b) (freed w)
                       (heap_fault w) (pixel_memory w)
                       (trace w ++ [load; FPDF_GetPageCount doc])).
Proof.
  cbv zeta. unfold nativeOpenMemDocument, new_block, store.
  destruct w as [c g h n f ft px t]. run_monad.
  rewrite new_block_store_lookup, lookup_insert_eq. run_monad.
  destruct (r_ret (env t _) =? 0); run_monad.
  - erewrite delete_array_live by (cbn [heap]; apply lookup_insert_eq).
    run_monad. rewrite delete_insert_eq, <- app_assoc. reflexivity.
  - rewrite <- app_assoc. reflexivity.
Qed.

Lemma nativeOpenDocumentPath_spec path password w :
  let load := FPDF_LoadDocument path password in
  let doc := r_ret (env (trace w) load) in
  nativeOpenDocumentPath env path password w =
    if doc =? 0
    then (0, set_trace (trace w ++ [load; FPDF_GetLastError]) w)
    else (doc, set_trace (trace w ++ [load]) w).
Proof.
  cbv zeta. unfold nativeOpenDocumentPath.
  destruct w as [c g h n f ft px t]. run_monad.
  destruct (r_ret (env t _) =? 0); run_monad;
    rewrite <- ?app_assoc; reflexivity.
Qed.

Lemma nativeCloseDocument_spec doc w :
  nativeCloseDocument env doc w =
    if doc =? 0 then (tt, w)
    else match g_docBuffers w !! doc with
         | None => (tt, set_trace (trace w ++ [FPDF_CloseDocument doc]) w)
         | Some b =>
             (tt, mkWorld (libraryReferenceCount w) (delete doc (g_docBuffers w))
                          (match heap w !! b with
                           | Some _ => delete b (heap w) | None => heap w end)
                          (next_block w) (freed w ++ [b])
                          (match heap w !! b with
                           | Some _ => heap_fault w | None => true end)
                          (pixel_memory w)
                          (trace w ++ [FPDF_CloseDocument doc]))
         end.
Proof.
  unfold nativeCloseDocument. destruct (doc =? 0); [reflexivity |].
  destruct w as [c g h n f ft px t]. run_monad.
  destruct (g !! doc) as [b|]; run_monad; [| reflexivity].
  destruct (h !! b) as [blk|] eqn:Hb.
  - erewrite delete_array_live by exact Hb. run_monad. reflexivity.
  - rewrite delete_array_dead by exact Hb. run_monad. reflexivity.
Qed.

End DocumentFacts.

(** ** The read loop of the descriptor route *)

Section ReadLoop.

Variable env : Env.
Hypothesis Hposix : posix_read env.

Lemma answers_app t cs1 cs2 :
  answers env t (cs1 ++ cs2) = answers env t cs1 ++ answers env (t ++ cs1) cs2.
Proof.
  revert t. induction cs1 as [|c cs1 IH]; intros t; cbn.
  - rewrite app_nil_r. reflexivity.
  - rewrite IH, <- app_assoc. reflexivity.
Qed.

(** With enough fuel the loop ends, in one of two ways: every [read]
    returned a positive count and the block holds [ptr + remaining] bytes,
    or the last [read] returned [<= 0] and the block is gone. *)
Lemma read_loop_spec (fuel : nat) : forall fd b ptr remaining w blk,
  heap w !! b = Some blk ->
  Z.of_nat (length blk) = ptr ->
  0 <= remaining < 2 ^ 63 ->
  (Z.to_nat remaining <= fuel)%nat ->
  exists reads,
    Forall (fun c => is_read_call c = true) reads /\
    ((exists blk',
        Z.of_nat (length blk') = ptr + remaining /\
        Forall (fun z => 0 < z) (answers env (trace w) reads) /\
        read_loop env fuel fd b ptr remaining w =
          (Some true,
           mkWorld (libraryReferenceCount w) (g_docBuffers w)
                   (<[b := blk']> (heap w)) (next_block w) (freed w)
                   (heap_fault w) (pixel_memory w) (trace w ++ reads)))
     \/
     (exists reads0 c,
        reads = reads0 ++ [c] /\
        Forall (fun z => 0 < z) (answers env (trace w) reads0) /\
        r_ret (env (trace w ++ reads0) c) <= 0 /\
        read_loop env fuel fd b ptr remaining w =
          (Some false,
           mkWorld (libraryReferenceCount w) (g_docBuffers w)
                   (delete b (heap w)) (next_block w) (freed w ++ [b])
                   (heap_fault w) (pixel_memory w) (trace w ++ reads)))).
Proof.
  induction fuel as [|fuel IH]; intros fd b ptr remaining w blk Hb Hlen Hrem Hfuel.
  - assert (remaining = 0) as -> by lia.
    exists []. split; [constructor |]. left. exists blk.
    split; [lia |]. split; [constructor |].
    destruct w as [c g h n f ft px t]. cbn in *.
    rewrite app_nil_r, insert_id by exact Hb. reflexivity.
  - cbn [read_loop]. destruct (remaining >? 0) eqn:Hpos.
    2:{ assert (remaining = 0) as -> by lia.
        exists []. split; [constructor |]. left. exists blk.
        split; [lia |]. split; [constructor |].
        destruct w as [c g h n f ft px t]. cbn in *.
        rewrite app_nil_r, insert_id by exact Hb. reflexivity. }
    apply Z.gtb_lt in Hpos.
    set (rd := read fd b ptr remaining).
    destruct (Hposix (trace w) fd b ptr remaining) as [Hle Hdata]; [lia |].
    fold rd in Hle, Hdata.
    destruct w as [c g h n f ft px t]. cbn [trace heap] in *.
    run_monad. rewrite (wrap_i64_small (r_ret (env t rd))) by lia.
    destruct (r_ret (env t rd) <=? 0) eqn:Hr.
    + apply Z.leb_le in Hr.
      exists [rd]. split; [repeat constructor |]. right. exists [], rd.
      split; [reflexivity |]. split; [constructor |].
      rewrite app_nil_r. split; [exact Hr |].
      run_monad. erewrite delete_array_live by exact Hb. run_monad. reflexivity.
    + apply Z.leb_gt in Hr. specialize (Hdata Hr).
      unfold store. run_monad.
      rewrite wrap_u64_small by lia.
      set (blk1 := take (Z.to_nat ptr) blk ++ out_bytes (r_out (env t rd))).
      set (w1 := mkWorld c g
                   (alter (fun blk0 => take (Z.to_nat ptr) blk0
                                       ++ out_bytes (r_out (env t rd))) b h)
                   n f ft px (t ++ [rd])).
      assert (Hb1 : heap w1 !! b = Some blk1).
      { subst w1. cbn [heap]. rewrite lookup_alter_eq, Hb. reflexivity. }
      assert (Hlen1 : Z.of_nat (length blk1) = ptr + r_ret (env t rd)).
      { subst blk1. rewrite length_app, take_ge by lia. lia. }
      destruct (IH fd b (ptr + r_ret (env t rd)) (remaining - r_ret (env t rd))
                   w1 blk1 Hb1 Hlen1) as (reads & Hreads & Hcase); [lia | lia |].
      exists (rd :: reads). split; [constructor; [reflexivity | exact Hreads] |].
      subst w1. cbn [trace heap libraryReferenceCount g_docBuffers next_block
                     freed heap_fault pixel_memory] in Hcase.
      destruct Hcase as [(blk' & Hl' & Hans & Heq) | (reads0 & c0 & -> & Hans & Hlast & Heq)].
      * left. exists blk'. split; [lia |]. split.
        { cbn [answers]. constructor; [exact Hr | exact Hans]. }
        rewrite Heq. rewrite <- app_assoc. cbn [app].
        do 2 f_equal. apply map_eq. intros i.
        destruct (decide (i = b)) as [->|Hne].
        -- rewrite !lookup_insert_eq. reflexivity.
        -- rewrite !lookup_insert_ne, lookup_alter_ne by congruence. reflexivity.
      * right. exists (rd :: reads0), c0. split; [reflexivity |]. split.
        { cbn [answers]. constructor; [exact Hr | exact Hans]. }
        split.
        { rewrite <- app_assoc in Hlast. exact Hlast. }
        rewrite Heq. rewrite <- app_assoc. cbn [app].
        do 2 f_equal. apply map_eq. intros i.
        destruct (decide (i = b)) as [->|Hne].
        -- rewrite !lookup_delete_eq. reflexivity.
        -- rewrite !lookup_delete_ne, lookup_alter_ne by congruence. reflexivity.
Qed.

End ReadLoop.

Section DescriptorRoute.

Variable env : Env.
Hypothesis Hposix : posix_read env.

(** The descriptor route always returns, in one of the five ways of
    [open_fd_outcome]. *)
Lemma nativeOpenDocument_outcome fd password w :
  exists r w',
    nativeOpenDocument env fd password w = (r, w') /\
    open_fd_outcome env fd password w r w'.
Proof.
  unfold nativeOpenDocument. destruct w as [c g h n f ft px t]. run_monad.
  set (fileSize := wrap_i64 (r_ret (env t (lseek_end fd)))).
  pose proof (wrap_i64_range (r_ret (env t (lseek_end fd)))) as Hrange.
  fold fileSize in Hrange.
  destruct (fileSize <=? 0) eqn:Hsz.
  { apply Z.leb_le in Hsz. run_monad. eexists _, _. split; [reflexivity |].
    apply (fd_no_size env fd password (mkWorld c g h n f ft px t)). exact Hsz. }
  apply Z.leb_gt in Hsz. run_monad.
  rewrite <- !app_assoc. cbn [app].
  destruct (r_ret (env (t ++ [lseek_end fd; lseek_set fd]) (new_nothrow fileSize)) =? 0)
    eqn:Hnew.
  { apply Z.eqb_eq in Hnew. run_monad. eexists _, _. split; [reflexivity |].
    apply (fd_no_memory env fd password (mkWorld c g h n f ft px t));
      [exact Hsz | exact Hnew]. }
  clear Hnew. unfold new_block. run_monad.
  set (pre := [lseek_end fd; lseek_set fd; new_nothrow fileSize]).
  set (w0 := mkWorld c g (<[n := []]> h) (Pos.succ n) f ft px (t ++ pre)).
  destruct (read_loop_spec env Hposix (Z.to_nat fileSize) fd n 0 fileSize w0 [])
    as (reads & Hreads & Hcase);
    [apply lookup_insert_eq | reflexivity | lia | lia |].
  subst w0. cbn [trace heap libraryReferenceCount g_docBuffers next_block
                 freed heap_fault pixel_memory] in Hcase.
  destruct Hcase as [(blk' & Hl' & Hans & Heq) | (reads0 & c0 & -> & Hans & Hlast & Heq)];
    rewrite Heq; run_monad.
  - rewrite lookup_insert_eq. run_monad.
    rewrite insert_insert_eq.
    set (load := FPDF_LoadMemDocument n blk' (wrap_i32 fileSize) password).
    destruct (r_ret (env ((t ++ pre) ++ reads) load) =? 0) eqn:Hdoc.
    + apply Z.eqb_eq in Hdoc. run_monad.
      erewrite delete_array_live by (cbn [heap]; apply lookup_insert_eq).
      run_monad. rewrite delete_insert_eq.
      eexists _, _. split; [reflexivity |].
      replace ((((t ++ pre) ++ reads) ++ [load]) ++ [FPDF_GetLastError])
        with (t ++ pre ++ reads ++ [load; FPDF_GetLastError])
        by (rewrite <- !app_assoc; reflexivity).
      apply (fd_load_failed env fd password (mkWorld c g h n f ft px t) reads blk');
        try assumption; try (cbn [trace]; fold fileSize; lia).
      cbn [trace]. rewrite app_assoc. exact Hdoc.
    + apply Z.eqb_neq in Hdoc. run_monad.
      eexists _, _. split; [reflexivity |].
      replace ((((t ++ pre) ++ reads) ++ [load]) ++
               [FPDF_GetPageCount (r_ret (env ((t ++ pre) ++ reads) load))])
        with (t ++ pre ++ reads ++
              [load; FPDF_GetPageCount (r_ret (env (t ++ pre ++ reads) load))])
        by (rewrite <- !app_assoc; reflexivity).
      rewrite <- (app_assoc t pre reads).
      apply (fd_loaded env fd password (mkWorld c g h n f ft px t) reads blk');
        try assumption; try (cbn [trace]; fold fileSize; lia).
      cbn [trace]. rewrite app_assoc. exact Hdoc.
  - rewrite delete_insert_eq.
    eexists _, _. split; [reflexivity |].
    replace ((t ++ pre) ++ reads0 ++ [c0]) with (t ++ pre ++ reads0 ++ [c0])
      by (rewrite <- !app_assoc; reflexivity).
    apply (fd_short_read env fd password (mkWorld c g h n f ft px t) reads0 c0);
      try assumption.
    cbn [trace]. rewrite app_assoc. exact Hlast.
Qed.

End DescriptorRoute.

(** ** The ownership invariant *)

Section Ownership.

Implicit Types (table : gmap Z positive) (blocks : gmap positive (list Byte.byte)).
Implicit Types (ledger : gmap Z Origin).

Lemma buffered_docs_lookup ledger doc o :
  buffered_docs ledger !! doc = Some o <->
  ledger !! doc = Some o /\ owns_buffer o = true.
Proof. unfold buffered_docs. rewrite map_lookup_filter_Some. reflexivity. Qed.

Lemma buffered_docs_None ledger doc :
  (forall o, ledger !! doc = Some o -> owns_buffer o = false) ->
  buffered_docs ledger !! doc = None.
Proof.
  intros H. destruct (buffered_docs ledger !! doc) as [o|] eqn:E; [| reflexivity].
  apply buffered_docs_lookup in E as [E1 E2]. rewrite (H o E1) in E2. discriminate.
Qed.

Lemma ownership_inv_initial : ownership_inv initial_world ∅.
Proof.
  split; cbn.
  - intros doc. rewrite !lookup_empty. split.
    + intros [? ?]; discriminate.
    + intros (o & Ho & _). discriminate.
  - intros doc b H. rewrite lookup_empty in H. discriminate.
  - intros d1 d2 b H. rewrite lookup_empty in H. discriminate.
  - intros b [? H]. rewrite lookup_empty in H. discriminate.
  - intros b [? H]. rewrite lookup_empty in H. discriminate.
  - intros b H. inversion H.
  - intros b H. inversion H.
  - constructor.
  - reflexivity.
  - apply lookup_empty.
  - unfold buffered_docs. rewrite map_filter_empty. reflexivity.
  - reflexivity.
Qed.

(** A buffer allocated and released again within one call. *)
Lemma ownership_inv_alloc_free table blocks next dead fault ledger :
  ownership_inv_on table blocks next dead fault ledger ->
  ownership_inv_on table (delete next blocks) (Pos.succ next) (dead ++ [next])
                   fault ledger.
Proof.
  intros [Hdom Hlive Hinj Hown Hfresh Hdlt Hdead Honce Hfault Hnull Hct Hch].
  assert (Hnext : blocks !! next = None).
  { destruct (blocks !! next) eqn:E; [| reflexivity].
    assert (next < next)%positive by (apply Hfresh; eauto). lia. }
  rewrite delete_id by exact Hnext.
  split; try assumption.
  - intros b Hb. specialize (Hfresh b Hb). lia.
  - intros b [Hb | ->%list_elem_of_singleton]%elem_of_app; [| lia].
    specialize (Hdlt b Hb). lia.
  - intros b [Hb | ->%list_elem_of_singleton]%elem_of_app; [auto | exact Hnext].
  - apply NoDup_app. split; [exact Honce |]. split; [| apply NoDup_singleton].
    intros b Hb ->%list_elem_of_singleton. specialize (Hdlt next Hb). lia.
Qed.

(** A buffer registered for a handle that was not open. *)
Lemma ownership_inv_register table blocks next dead fault ledger doc o data :
  ownership_inv_on table blocks next dead fault ledger ->
  doc <> 0 -> ledger !! doc = None -> owns_buffer o = true ->
  ownership_inv_on (<[doc := next]> table) (<[next := data]> blocks)
                   (Pos.succ next) dead fault (<[doc := o]> ledger).
Proof.
  intros [Hdom Hlive Hinj Hown Hfresh Hdlt Hdead Honce Hfault Hnull Hct Hch]
         Hdoc Hnew Ho.
  assert (Hnext : blocks !! next = None).
  { destruct (blocks !! next) eqn:E; [| reflexivity].
    assert (next < next)%positive by (apply Hfresh; eauto). lia. }
  assert (Htab : table !! doc = None).
  { destruct (table !! doc) eqn:E; [| reflexivity].
    destruct (proj1 (Hdom doc)) as (o' & Ho' & _); [eauto | congruence]. }
  split; try assumption.
  - intros d. destruct (decide (d = doc)) as [->|Hne].
    + rewrite !lookup_insert_eq. split; eauto.
    + rewrite !lookup_insert_ne by congruence. apply Hdom.
  - intros d b. destruct (decide (d = doc)) as [->|Hne].
    + rewrite lookup_insert_eq. intros [= <-]. rewrite lookup_insert_eq. eauto.
    + rewrite lookup_insert_ne by congruence. intros Hd.
      apply lookup_insert_is_Some. right. split; [| eauto].
      intros <-. specialize (Hfresh next (Hlive d next Hd)). lia.
  - intros d1 d2 b.
    destruct (decide (d1 = doc)) as [->|Hne1], (decide (d2 = doc)) as [->|Hne2];
      rewrite ?lookup_insert_eq, ?lookup_insert_ne by congruence; auto.
    + intros [= <-] Hd. specialize (Hfresh next (Hlive d2 next Hd)). lia.
    + intros Hd [= <-]. specialize (Hfresh next (Hlive d1 next Hd)). lia.
    + apply Hinj.
  - intros b. destruct (decide (b = next)) as [->|Hne].
    + intros _. exists doc. apply lookup_insert_eq.
    + rewrite lookup_insert_ne by congruence. intros Hb.
      destruct (Hown b Hb) as [d Hd]. exists d.
      rewrite lookup_insert_ne; [exact Hd | congruence].
  - intros b. destruct (decide (b = next)) as [->|Hne]; [lia |].
    rewrite lookup_insert_ne by congruence. intros Hb.
    specialize (Hfresh b Hb). lia.
  - intros b Hb. specialize (Hdlt b Hb). lia.
  - intros b Hb. rewrite lookup_insert_ne; [auto |].
    intros <-. specialize (Hdlt next Hb). lia.
  - rewrite lookup_insert_ne by congruence. exact Hnull.
  - rewrite map_size_insert_None by exact Htab.
    unfold buffered_docs. rewrite map_filter_insert_True by exact Ho.
    rewrite map_size_insert_None; [f_equal; exact Hct |].
    apply buffered_docs_None. congruence.
  - rewrite !map_size_insert_None by assumption. f_equal. exact Hch.
Qed.

(** A document opened by path enters the ledger only. *)
Lemma ownership_inv_path table blocks next dead fault ledger doc :
  ownership_inv_on table blocks next dead fault ledger ->
  doc <> 0 -> ledger !! doc = None ->
  ownership_inv_on table blocks next dead fault (<[doc := FromPath]> ledger).
Proof.
  intros [Hdom Hlive Hinj Hown Hfresh Hdlt Hdead Honce Hfault Hnull Hct Hch]
         Hdoc Hnew.
  split; try assumption.
  - intros d. destruct (decide (d = doc)) as [->|Hne].
    + rewrite lookup_insert_eq. rewrite Hdom, Hnew. split.
      * intros (o & [=] & _).
      * intros (o & [= <-] & [=]).
    + rewrite lookup_insert_ne by congruence. apply Hdom.
  - rewrite lookup_insert_ne by congruence. exact Hnull.
  - rewrite Hct. unfold buffered_docs.
    rewrite map_filter_insert_not'; [reflexivity | cbn; congruence |].
    intros y Hy. congruence.
Qed.

(** [nativeCloseDocument] on a handle with an entry. *)
Lemma ownership_inv_close_entry table blocks next dead fault ledger doc b :
  ownership_inv_on table blocks next dead fault ledger ->
  table !! doc = Some b ->
  ownership_inv_on (delete doc table) (delete b blocks) next (dead ++ [b])
                   fault (delete doc ledger).
Proof.
  intros [Hdom Hlive Hinj Hown Hfresh Hdlt Hdead Honce Hfault Hnull Hct Hch] Hb.
  pose proof (Hlive doc b Hb) as Hblk.
  destruct (proj1 (Hdom doc)) as (o & Ho & Hoo); [eauto |].
  split; try assumption.
  - intros d. destruct (decide (d = doc)) as [->|Hne].
    + rewrite !lookup_delete_eq. split.
      * intros [? [=]].
      * intros (? & [=] & _).
    + rewrite !lookup_delete_ne by congruence. apply Hdom.
  - intros d b'. destruct (decide (d = doc)) as [->|Hne].
    + rewrite lookup_delete_eq. intros [=].
    + rewrite lookup_delete_ne by congruence. intros Hd.
      rewrite lookup_delete_ne; [eauto |].
      intros <-. apply Hne. eapply Hinj; eassumption.
  - intros d1 d2 b' H1 H2.
    apply lookup_delete_Some in H1 as [_ H1].
    apply lookup_delete_Some in H2 as [_ H2]. eapply Hinj; eassumption.
  - intros b' [blk Hb']. apply lookup_delete_Some in Hb' as [Hne Hb'].
    destruct (Hown b') as [d Hd]; [eauto |]. exists d.
    rewrite lookup_delete_ne; [exact Hd |]. intros <-. congruence.
  - intros b' [blk Hb']. apply lookup_delete_Some in Hb' as [_ Hb']. eauto.
  - intros b' [Hb' | ->%list_elem_of_singleton]%elem_of_app; auto.
  - intros b' [Hb' | ->%list_elem_of_singleton]%elem_of_app.
    + apply lookup_delete_None. right. auto.
    + apply lookup_delete_eq.
  - apply NoDup_app. split; [exact Honce |]. split; [| apply NoDup_singleton].
    intros b' Hb' ->%list_elem_of_singleton.
    rewrite (Hdead b Hb') in Hblk. destruct Hblk; discriminate.
  - destruct (decide (doc = 0)) as [->|Hne]; [apply lookup_delete_eq |].
    rewrite lookup_delete_ne by congruence. exact Hnull.
  - rewrite map_size_delete_Some by eauto. rewrite Hct. unfold buffered_docs.
    rewrite map_filter_delete, map_size_delete_Some; [reflexivity |].
    exists o. apply buffered_docs_lookup. auto.
  - rewrite !map_size_delete_Some by eauto. f_equal. exact Hch.
Qed.

(** [nativeCloseDocument] on a handle without an entry. *)
Lemma ownership_inv_close_other table blocks next dead fault ledger doc :
  ownership_inv_on table blocks next dead fault ledger ->
  table !! doc = None ->
  ownership_inv_on table blocks next dead fault (delete doc ledger).
Proof.
  intros [Hdom Hlive Hinj Hown Hfresh Hdlt Hdead Honce Hfault Hnull Hct Hch] Hb.
  assert (Hled : forall o, ledger !! doc = Some o -> owns_buffer o = false).
  { intros o Ho. destruct (owns_buffer o) eqn:E; [| reflexivity].
    destruct (proj2 (Hdom doc)) as [? ?]; [eauto | congruence]. }
  split; try assumption.
  - intros d. destruct (decide (d = doc)) as [->|Hne].
    + rewrite lookup_delete_eq, Hb. split.
      * intros [? [=]].
      * intros (? & [=] & _).
    + rewrite lookup_delete_ne by congruence. apply Hdom.
  - destruct (decide (doc = 0)) as [->|Hne]; [apply lookup_delete_eq |].
    rewrite lookup_delete_ne by congruence. exact Hnull.
  - rewrite Hct. unfold buffered_docs.
    rewrite map_filter_delete, map_size_delete_None; [reflexivity |].
    apply buffered_docs_None. exact Hled.
Qed.

End Ownership.

(** ** Sessions keep the invariant *)

Section Sessions.

Variable env : Env.
Hypothesis Hposix : posix_read env.

Lemma record_open_inv o doc ledger ledger' :
  record_open o doc ledger = Some ledger' ->
  (doc = 0 /\ ledger' = ledger) \/
  (doc <> 0 /\ ledger !! doc = None /\ ledger' = <[doc := o]> ledger).
Proof.
  unfold record_open. destruct (doc =? 0) eqn:E.
  - apply Z.eqb_eq in E. intros [= <-]. left. auto.
  - apply Z.eqb_neq in E. destruct (ledger !! doc); [discriminate |].
    intros [= <-]. right. auto.
Qed.

Lemma apply_op_inv op w ledger w' ledger' :
  ownership_inv w ledger ->
  apply_op env op (w, ledger) = Some (w', ledger') ->
  ownership_inv w' ledger'.
Proof.
  unfold ownership_inv. intros Hinv Hop.
  destruct op as [data pw | fd pw | path pw | doc]; cbn [apply_op] in Hop.
  - (* bytes *)
    rewrite nativeOpenMemDocument_spec in Hop. cbv zeta in Hop.
    destruct (r_ret _ =? 0) eqn:E; cbn [mbind option_bind] in Hop;
      destruct (record_open _ _ ledger) as [l1|] eqn:Hrec; try discriminate;
      injection Hop as <- <-; cbn;
      apply record_open_inv in Hrec as [[Hz ->] | (Hnz & Hnew & ->)];
      first [ congruence
            | apply Z.eqb_neq in E; congruence
            | apply ownership_inv_alloc_free; exact Hinv
            | apply ownership_inv_register; auto ].
  - (* descriptor *)
    destruct (nativeOpenDocument_outcome env Hposix fd pw w) as (r & w1 & Heq & Hout).
    rewrite Heq in Hop.
    destruct Hout; cbn [mbind option_bind] in Hop;
      destruct (record_open _ _ ledger) as [l1|] eqn:Hrec; try discriminate;
      injection Hop as <- <-; cbn;
      apply record_open_inv in Hrec as [[Hz ->] | (Hnz & Hnew & ->)];
      first [ congruence
            | exact Hinv
            | apply ownership_inv_alloc_free; exact Hinv
            | apply ownership_inv_register; auto ].
  - (* path *)
    rewrite nativeOpenDocumentPath_spec in Hop. cbv zeta in Hop.
    destruct (r_ret _ =? 0) eqn:E; cbn [mbind option_bind] in Hop;
      destruct (record_open _ _ ledger) as [l1|] eqn:Hrec; try discriminate;
      injection Hop as <- <-; cbn;
      apply record_open_inv in Hrec as [[Hz ->] | (Hnz & Hnew & ->)];
      first [ congruence
            | apply Z.eqb_neq in E; congruence
            | exact Hinv
            | apply ownership_inv_path; auto ].
  - (* close *)
    rewrite nativeCloseDocument_spec in Hop.
    destruct (doc =? 0) eqn:E.
    + apply Z.eqb_eq in E as ->. injection Hop as <- <-.
      rewrite delete_id by (apply (inv_null _ _ _ _ _ _ Hinv)). exact Hinv.
    + destruct (g_docBuffers w !! doc) as [b|] eqn:Hb.
      * destruct (inv_live _ _ _ _ _ _ Hinv doc b Hb) as [blk Hblk].
        rewrite Hblk in Hop. injection Hop as <- <-. cbn.
        apply ownership_inv_close_entry; assumption.
      * injection Hop as <- <-. cbn.
        apply ownership_inv_close_other; assumption.
Qed.

Lemma run_ops_inv ops : forall s s',
  ownership_inv s.1 s.2 -> run_ops env ops s = Some s' -> ownership_inv s'.1 s'.2.
Proof.
  induction ops as [|op ops IH]; intros s s' Hinv Hrun; cbn in Hrun.
  - injection Hrun as <-. exact Hinv.
  - destruct (apply_op env op s) as [s1|] eqn:Hop; [| discriminate]. cbn in Hrun.
    apply (IH s1 s'); [| exact Hrun].
    destruct s as [w l], s1 as [w1 l1]. eapply apply_op_inv; eassumption.
Qed.

End Sessions.

Lemma demo_env_posix : posix_read demo_env.
Proof.
  intros t fd buf ptr count Hc. cbn.
  destruct ((fd =? 4) && (2 <=? ptr)); cbn.
  - split; [lia | intros; lia].
  - split; [lia |]. intros _. rewrite repeat_length. lia.
Qed.

(** ** Statements about documents *)

(** C1: in every session of open and close calls, a document handle has an
    entry in the ownership table exactly when it is open and was opened from
    bytes or from a descriptor (a document opened by path has none); the
    buffer of an entry is a live block that has not been passed to
    [delete[]], no buffer serves two handles, no block was ever deleted twice
    or deleted while not live, the number of outstanding blocks is the number
    of open bytes/descriptor documents, and closing a document that has an
    entry deletes its buffer at that call and removes the entry. *)
Theorem ownership_table_tracks_open_documents
        (env : Env) (ops : list Op) (w : World) (ledger : gmap Z Origin) :
  posix_read env ->
  run_ops env ops (initial_world, ∅) = Some (w, ledger) ->
  (forall doc, is_Some (g_docBuffers w !! doc) <->
               ledger !! doc = Some FromBytes \/ ledger !! doc = Some FromDescriptor) /\
  (forall doc, ledger !! doc = Some FromPath -> g_docBuffers w !! doc = None) /\
  (forall doc b, g_docBuffers w !! doc = Some b ->
                 is_Some (heap w !! b) /\ b ∉ freed w) /\
  (forall d1 d2 b, g_docBuffers w !! d1 = Some b ->
                   g_docBuffers w !! d2 = Some b -> d1 = d2) /\
  NoDup (freed w) /\ heap_fault w = false /\
  size (heap w) = size (buffered_docs ledger) /\
  (forall doc b, g_docBuffers w !! doc = Some b ->
     let w' := (nativeCloseDocument env doc w).2 in
     g_docBuffers w' !! doc = None /\ heap w' !! b = None /\
     freed w' = freed w ++ [b] /\ heap_fault w' = false /\
     size (heap w') = pred (size (heap w))).
Proof.
  intros Hposix Hrun.
  pose proof (run_ops_inv env Hposix ops (initial_world, ∅) (w, ledger)
                          ownership_inv_initial Hrun) as Hinv.
  cbn [fst snd] in Hinv. unfold ownership_inv in Hinv.
  destruct Hinv as [Hdom Hlive Hinj Hown Hfresh Hdlt Hdead Honce Hfault Hnull Hct Hch].
  repeat split.
  - intros H. apply Hdom in H as (o & Ho & Hb).
    destruct o; [left | right | discriminate]; exact Ho.
  - intros [H | H]; apply Hdom; eexists; (split; [exact H | reflexivity]).
  - intros doc Hpath. destruct (g_docBuffers w !! doc) as [b|] eqn:E; [| reflexivity].
    destruct (proj1 (Hdom doc)) as (o & Ho & Hb); [eauto |].
    rewrite Hpath in Ho. injection Ho as <-. discriminate.
  - eapply Hlive; eassumption.
  - intros Hin. destruct (Hlive doc b H) as [blk Hblk].
    rewrite (Hdead b Hin) in Hblk. discriminate.
  - exact Hinj.
  - exact Honce.
  - exact Hfault.
  - congruence.
  - rewrite nativeCloseDocument_spec.
    destruct (doc =? 0) eqn:E.
    + apply Z.eqb_eq in E as ->.
      destruct (proj1 (Hdom 0)) as (o & Ho & _); [eauto | congruence].
    + rewrite H. cbn. apply lookup_delete_eq.
  - rewrite nativeCloseDocument_spec.
    destruct (doc =? 0) eqn:E.
    + apply Z.eqb_eq in E as ->.
      destruct (proj1 (Hdom 0)) as (o & Ho & _); [eauto | congruence].
    + rewrite H. cbn. destruct (Hlive doc b H) as [blk ->]. apply lookup_delete_eq.
  - rewrite nativeCloseDocument_spec.
    destruct (doc =? 0) eqn:E.
    + apply Z.eqb_eq in E as ->.
      destruct (proj1 (Hdom 0)) as (o & Ho & _); [eauto | congruence].
    + rewrite H. reflexivity.
  - rewrite nativeCloseDocument_spec.
    destruct (doc =? 0) eqn:E.
    + apply Z.eqb_eq in E as ->.
      destruct (proj1 (Hdom 0)) as (o & Ho & _); [eauto | congruence].
    + rewrite H. cbn. destruct (Hlive doc b H) as [blk ->]. exact Hfault.
  - rewrite nativeCloseDocument_spec.
    destruct (doc =? 0) eqn:E.
    + apply Z.eqb_eq in E as ->.
      destruct (proj1 (Hdom 0)) as (o & Ho & _); [eauto | congruence].
    + rewrite H. cbn. destruct (Hlive doc b H) as [blk Hblk]. rewrite Hblk.
      apply map_size_delete_Some. eauto.
Qed.

Lemma ownership_table_tracks_open_documents_witness :
  exists w ledger,
    run_ops demo_env demo_session (initial_world, ∅) = Some (w, ledger) /\
    size (heap w) = 1%nat /\
    size (heap w) = size (buffered_docs ledger) /\
    NoDup (freed w) /\ heap_fault w = false.
Proof.
  destruct (run_ops demo_env demo_session (initial_world, ∅)) as [[w ledger]|] eqn:E;
    [| vm_compute in E; discriminate].
  exists w, ledger. split; [reflexivity |].
  split; [vm_compute in E; injection E as <- _; reflexivity |].
  pose proof (ownership_table_tracks_open_documents
                demo_env demo_session w ledger demo_env_posix E) as H.
  split; [apply H |]. split; apply H.
Defined.

(** ** Where a call sits in a trace *)

Lemma app_split_at {A} (l1 l2 pre post : list A) (y : A) :
  l1 ++ l2 = pre ++ y :: post ->
  (exists k, l1 = pre ++ y :: k /\ post = k ++ l2) \/
  (exists k, pre = l1 ++ k /\ l2 = k ++ y :: post).
Proof.
  revert pre. induction l1 as [|a l1 IH]; intros pre H.
  - right. exists pre. auto.
  - destruct pre as [|p pre]; cbn in H; injection H as -> H.
    + left. exists l1. auto.
    + destruct (IH pre H) as [(k & -> & ->) | (k & -> & ->)].
      * left. exists k. auto.
      * right. exists k. auto.
Qed.

Lemma Forall_at {A} (P : A -> Prop) (pre post : list A) (y : A) :
  Forall P (pre ++ y :: post) -> P y.
Proof.
  intros H. apply Forall_app in H as [_ H]. apply Forall_cons in H as [H _]. exact H.
Qed.

Lemma read_is_not_load (cs : list Call) :
  Forall (fun c => is_read_call c = true) cs ->
  Forall (fun c => is_load_call c = false) cs.
Proof.
  intros H. eapply Forall_impl; [exact H |].
  intros c. destruct c; cbn; congruence.
Qed.

(** ** The descriptor route: all of the file or nothing *)

(** The read loop in full: the calls it makes are the requests for what is
    missing, and it ends either with everything read, the block holding
    what the calls stored, or with a call that returned [<= 0] while bytes
    were missing, the block deleted. *)
Lemma read_loop_complete (env : Env) (Hposix : posix_read env) (fuel : nat) :
  forall fd b ptr remaining w blk,
  heap w !! b = Some blk ->
  Z.of_nat (length blk) = ptr ->
  0 <= remaining < 2 ^ 63 ->
  (Z.to_nat remaining <= fuel)%nat ->
  exists reads,
    reads = reads_for fd b ptr remaining (answers env (trace w) reads) /\
    (0 < remaining -> reads <> []) /\
    ((Forall (fun n => 0 < n) (answers env (trace w) reads) /\
      total (answers env (trace w) reads) = remaining /\
      Z.of_nat (length (delivered env (trace w) reads)) = remaining /\
      read_loop env fuel fd b ptr remaining w =
        (Some true,
         mkWorld (libraryReferenceCount w) (g_docBuffers w)
                 (<[b := blk ++ delivered env (trace w) reads]> (heap w))
                 (next_block w) (freed w) (heap_fault w) (pixel_memory w)
                 (trace w ++ reads)))
     \/
     (exists positive last,
        answers env (trace w) reads = positive ++ [last] /\
        Forall (fun n => 0 < n) positive /\
        last <= 0 /\
        total positive < remaining /\
        read_loop env fuel fd b ptr remaining w =
          (Some false,
           mkWorld (libraryReferenceCount w) (g_docBuffers w)
                   (delete b (heap w)) (next_block w) (freed w ++ [b])
                   (heap_fault w) (pixel_memory w) (trace w ++ reads)))).
Proof.
  induction fuel as [|fuel IH]; intros fd b ptr remaining w blk Hb Hlen Hrem Hfuel.
  - assert (remaining = 0) as -> by lia.
    exists []. split; [reflexivity |]. split; [lia |]. left.
    split; [constructor |]. split; [reflexivity |]. split; [reflexivity |].
    destruct w as [c g h n f ft px t]. cbn in *.
    rewrite !app_nil_r, insert_id by exact Hb. reflexivity.
  - cbn [read_loop]. destruct (remaining >? 0) eqn:Hpos.
    2:{ assert (remaining = 0) as -> by lia.
        exists []. split; [reflexivity |]. split; [lia |]. left.
        split; [constructor |]. split; [reflexivity |]. split; [reflexivity |].
        destruct w as [c g h n f ft px t]. cbn in *.
        rewrite !app_nil_r, insert_id by exact Hb. reflexivity. }
    apply Z.gtb_lt in Hpos.
    set (rd := read fd b ptr remaining).
    destruct (Hposix (trace w) fd b ptr remaining) as [Hle Hdata]; [lia |].
    fold rd in Hle, Hdata.
    destruct w as [c g h n f ft px t]. cbn [trace heap] in *.
    run_monad. rewrite (wrap_i64_small (r_ret (env t rd))) by lia.
    destruct (r_ret (env t rd) <=? 0) eqn:Hr.
    + apply Z.leb_le in Hr.
      exists [rd]. split; [reflexivity |]. split; [discriminate |]. right.
      exists [], (r_ret (env t rd)).
      split; [reflexivity |]. split; [constructor |]. split; [exact Hr |].
      split; [cbn [total foldr]; lia |].
      run_monad. erewrite delete_array_live by exact Hb. run_monad. reflexivity.
    + apply Z.leb_gt in Hr. specialize (Hdata Hr).
      unfold store. run_monad.
      rewrite wrap_u64_small by lia.
      set (blk1 := take (Z.to_nat ptr) blk ++ out_bytes (r_out (env t rd))).
      set (w1 := mkWorld c g
                   (alter (fun blk0 => take (Z.to_nat ptr) blk0
                                       ++ out_bytes (r_out (env t rd))) b h)
                   n f ft px (t ++ [rd])).
      assert (Hblk1 : blk1 = blk ++ out_bytes (r_out (env t rd))).
      { subst blk1. rewrite take_ge by lia. reflexivity. }
      assert (Hb1 : heap w1 !! b = Some blk1).
      { subst w1. cbn [heap]. rewrite lookup_alter_eq, Hb. reflexivity. }
      assert (Hlen1 : Z.of_nat (length blk1) = ptr + r_ret (env t rd)).
      { rewrite Hblk1, length_app. lia. }
      destruct (IH fd b (ptr + r_ret (env t rd)) (remaining - r_ret (env t rd))
                   w1 blk1 Hb1 Hlen1) as (reads & Hreq & _ & Hcase); [lia | lia |].
      subst w1. cbn [trace heap libraryReferenceCount g_docBuffers next_block
                     freed heap_fault pixel_memory] in Hreq, Hcase.
      exists (rd :: reads). cbn [answers reads_for].
      split; [f_equal; exact Hreq |]. split; [discriminate |].
      destruct Hcase as [(Hans & Htotal & Hdel & Heq)
                        | (positive & last & Hans & Hpositive & Hlast & Htotal & Heq)].
      * left. split; [constructor; [exact Hr | exact Hans] |].
        split; [cbn [total foldr]; unfold total in Htotal; lia |].
        split.
        { cbn [delivered is_read_call rd]. rewrite length_app. lia. }
        rewrite Heq, <- app_assoc. cbn [app]. do 2 f_equal.
        cbn [delivered is_read_call rd]. rewrite Hblk1, <- app_assoc.
        apply map_eq. intros i. destruct (decide (i = b)) as [->|Hne].
        -- rewrite !lookup_insert_eq. reflexivity.
        -- rewrite !lookup_insert_ne, lookup_alter_ne by congruence. reflexivity.
      * right. exists (r_ret (env t rd) :: positive), last.
        split; [rewrite Hans; reflexivity |].
        split; [constructor; [exact Hr | exact Hpositive] |].
        split; [exact Hlast |].
        split; [cbn [total foldr]; unfold total in Htotal; lia |].
        rewrite Heq, <- app_assoc. cbn [app]. do 2 f_equal.
        apply map_eq. intros i. destruct (decide (i = b)) as [->|Hne].
        -- rewrite !lookup_delete_eq. reflexivity.
        -- rewrite !lookup_delete_ne, lookup_alter_ne by congruence. reflexivity.
Qed.

(** C5 as the code has it: once [lseek] has reported a positive size and
    the buffer is allocated, [nativeOpenDocument] returns, having made at
    least one [read]; every [read] asks for exactly the bytes still
    missing, at the offset reached.  Either every [read] returned a
    positive count and the counts add up to [fileSize] - a [read] that
    returned less than was asked having been followed by a [read] for the
    rest - and then the loader is called once, with the buffer holding the
    [fileSize] bytes the calls stored, in order, and with [fileSize]
    reduced to [int]; or the last [read] returned [<= 0] while bytes were
    missing, and then it is the last call of the operation: no further
    [read], no loader call, the result is 0, the buffer is deleted and the
    ownership table and the heap are as they were. *)
Theorem descriptor_route_reads_all_or_fails
        (env : Env) (fd : Z) (password : cstring) (w : World) :
  let fileSize := wrap_i64 (r_ret (env (trace w) (lseek_end fd))) in
  let pre := [lseek_end fd; lseek_set fd; new_nothrow fileSize] in
  let b := next_block w in
  posix_read env ->
  heap w !! b = None ->
  0 < fileSize ->
  r_ret (env (trace w ++ [lseek_end fd; lseek_set fd]) (new_nothrow fileSize)) <> 0 ->
  exists r w' reads tail,
    nativeOpenDocument env fd password w = (Some r, w') /\
    trace w' = trace w ++ pre ++ reads ++ tail /\
    reads <> [] /\
    reads = reads_for fd b 0 fileSize (answers env (trace w ++ pre) reads) /\
    ((Forall (fun n => 0 < n) (answers env (trace w ++ pre) reads) /\
      total (answers env (trace w ++ pre) reads) = fileSize /\
      Z.of_nat (length (delivered env (trace w ++ pre) reads)) = fileSize /\
      let load := FPDF_LoadMemDocument b (delivered env (trace w ++ pre) reads)
                                       (wrap_i32 fileSize) password in
      let doc := r_ret (env (trace w ++ pre ++ reads) load) in
      r = doc /\
      tail = [load; if doc =? 0 then FPDF_GetLastError
                    else FPDF_GetPageCount doc])
     \/
     (exists positive last,
        answers env (trace w ++ pre) reads = positive ++ [last] /\
        Forall (fun n => 0 < n) positive /\
        last <= 0 /\
        total positive < fileSize /\
        tail = [] /\ r = 0 /\
        g_docBuffers w' = g_docBuffers w /\ heap w' = heap w /\
        freed w' = freed w ++ [b] /\ heap_fault w' = heap_fault w)).
Proof.
  intros fileSize pre b Hposix Hfresh Hsz Hnew.
  subst fileSize pre b.
  unfold nativeOpenDocument. destruct w as [c g h n f ft px t].
  cbn [trace next_block heap] in *. run_monad.
  set (fileSize := wrap_i64 (r_ret (env t (lseek_end fd)))) in *.
  pose proof (wrap_i64_range (r_ret (env t (lseek_end fd)))) as Hrange.
  fold fileSize in Hrange.
  destruct (Z.leb_spec fileSize 0) as [Hle | _]; [lia |].
  run_monad. rewrite <- !app_assoc. cbn [app].
  apply Z.eqb_neq in Hnew. rewrite Hnew.
  unfold new_block. run_monad.
  set (pre := [lseek_end fd; lseek_set fd; new_nothrow fileSize]).
  set (w0 := mkWorld c g (<[n := []]> h) (Pos.succ n) f ft px (t ++ pre)).
  destruct (read_loop_complete env Hposix (Z.to_nat fileSize) fd n 0 fileSize w0 [])
    as (reads & Hreq & Hsome & Hcase);
    [apply lookup_insert_eq | reflexivity | lia | lia |].
  subst w0. cbn [trace heap libraryReferenceCount g_docBuffers next_block
                 freed heap_fault pixel_memory app] in Hreq, Hcase.
  destruct Hcase as [(Hans & Htotal & Hdel & Heq)
                    | (positive & last & Hans & Hpositive & Hlast & Htotal & Heq)];
    rewrite Heq; run_monad.
  - rewrite lookup_insert_eq. run_monad. rewrite insert_insert_eq.
    set (contents := delivered env (t ++ pre) reads) in *.
    set (load := FPDF_LoadMemDocument n contents (wrap_i32 fileSize) password).
    rewrite <- (app_assoc t pre reads).
    destruct (r_ret (env (t ++ pre ++ reads) load) =? 0) eqn:Hdoc.
    + run_monad.
      erewrite delete_array_live by (cbn [heap]; apply lookup_insert_eq).
      run_monad.
      eexists _, _, reads, _. split; [reflexivity |].
      split; [rewrite <- !app_assoc; reflexivity |].
      split; [apply Hsome; lia |]. split; [exact Hreq |].
      left. split; [exact Hans |]. split; [exact Htotal |].
      split; [exact Hdel |].
      change (0 = r_ret (env (t ++ pre ++ reads) load) /\
              [load; FPDF_GetLastError]
              = [load; if r_ret (env (t ++ pre ++ reads) load) =? 0
                       then FPDF_GetLastError
                       else FPDF_GetPageCount
                              (r_ret (env (t ++ pre ++ reads) load))]).
      rewrite Hdoc. apply Z.eqb_eq in Hdoc.
      split; [symmetry; exact Hdoc | reflexivity].
    + run_monad.
      eexists _, _, reads, _. split; [reflexivity |].
      split; [rewrite <- !app_assoc; reflexivity |].
      split; [apply Hsome; lia |]. split; [exact Hreq |].
      left. split; [exact Hans |]. split; [exact Htotal |].
      split; [exact Hdel |].
      change (r_ret (env (t ++ pre ++ reads) load)
              = r_ret (env (t ++ pre ++ reads) load) /\
              [load; FPDF_GetPageCount (r_ret (env (t ++ pre ++ reads) load))]
              = [load; if r_ret (env (t ++ pre ++ reads) load) =? 0
                       then FPDF_GetLastError
                       else FPDF_GetPageCount
                              (r_ret (env (t ++ pre ++ reads) load))]).
      rewrite Hdoc. split; reflexivity.
  - rewrite delete_insert_eq, delete_id by exact Hfresh.
    eexists _, _, reads, []. split; [reflexivity |].
    split; [rewrite app_nil_r, <- app_assoc; reflexivity |].
    split; [apply Hsome; lia |]. split; [exact Hreq |].
    right. exists positive, last.
    split; [exact Hans |]. split; [exact Hpositive |]. split; [exact Hlast |].
    split; [exact Htotal |]. repeat split.
Qed.

Lemma descriptor_route_reads_all_or_fails_witness :
  (nativeOpenDocument demo_env 4 None initial_world).1 = Some 0 /\
  trace (nativeOpenDocument demo_env 4 None initial_world).2
  = [lseek_end 4; lseek_set 4; new_nothrow 5; read 4 1 0 5; read 4 1 2 3].
Proof.
  destruct (descriptor_route_reads_all_or_fails
              demo_env 4 None initial_world demo_env_posix)
    as (r & w' & reads & tail & Hrun & _).
  - reflexivity.
  - reflexivity.
  - discriminate.
  - split; reflexivity.
Defined.

(** C5 as stated fails: a short read is not fatal.  The first [read] of
    descriptor 3 is asked for 5 bytes and returns 2; the operation goes on
    with a [read] for the remaining 3, then one for the last byte, hands
    all 5 bytes to the loader and returns its handle, not 0. *)
Lemma short_read_is_continued :
  r_ret (demo_env [lseek_end 3; lseek_set 3; new_nothrow 5] (read 3 1 0 5)) = 2 /\
  (nativeOpenDocument demo_env 3 None initial_world).1 = Some 1001 /\
  trace (nativeOpenDocument demo_env 3 None initial_world).2 =
    [ lseek_end 3; lseek_set 3; new_nothrow 5;
      read 3 1 0 5; read 3 1 2 3; read 3 1 4 1;
      FPDF_LoadMemDocument 1 (repeat Byte.x00 5) 5 None;
      FPDF_GetPageCount 1001 ].
Proof. split; [| split]; vm_compute; reflexivity. Qed.

(** ** A failed open *)

Lemma load_call_position (A reads : list Call) (load0 last : Call)
      (pre post : list Call) (c : Call) :
  Forall (fun c => is_load_call c = false) A ->
  Forall (fun c => is_read_call c = true) reads ->
  is_load_call last = false ->
  A ++ reads ++ [load0; last] = pre ++ c :: post ->
  is_load_call c = true ->
  c = load0 /\ pre = A ++ reads.
Proof.
  intros HA Hreads Hlast Heq Hc.
  apply app_split_at in Heq as [(k & -> & ->) | (k & -> & Heq)].
  - apply Forall_at in HA. congruence.
  - apply app_split_at in Heq as [(k2 & -> & ->) | (k2 & -> & Heq)].
    + apply read_is_not_load, Forall_at in Hreads. congruence.
    + destruct k2 as [|a [|a' k2]]; cbn in Heq.
      * injection Heq as <- _. rewrite app_nil_r. auto.
      * injection Heq as _ <- _. congruence.
      * injection Heq as _ _ Heq. destruct k2; discriminate.
Qed.

(** C4: when PDFium's loader returns null, the open call returns 0, the
    ownership table and the set of live blocks are what they were before the
    call, and the block allocated for the attempt has been passed to
    [delete[]]; this holds on the bytes route and on the descriptor route,
    and on the path route, which allocates nothing.  On the descriptor route
    every way of returning 0 leaves the table and the heap unchanged. *)
Theorem failed_open_registers_nothing (env : Env) (password : cstring) (w : World) :
  posix_read env ->
  heap w !! next_block w = None ->
  (forall data,
      let load := FPDF_LoadMemDocument (next_block w) data
                                       (Z.of_nat (length data)) password in
      r_ret (env (trace w) load) = 0 ->
      let r := (nativeOpenMemDocument env data password w).1 in
      let w' := (nativeOpenMemDocument env data password w).2 in
      r = 0 /\ g_docBuffers w' = g_docBuffers w /\ heap w' = heap w /\
      freed w' = freed w ++ [next_block w] /\ heap_fault w' = heap_fault w) /\
  (forall fd, exists r w' calls,
      nativeOpenDocument env fd password w = (Some r, w') /\
      trace w' = trace w ++ calls /\
      (forall pre load post,
          calls = pre ++ load :: post -> is_load_call load = true ->
          r_ret (env (trace w ++ pre) load) = 0 ->
          r = 0 /\ g_docBuffers w' = g_docBuffers w /\ heap w' = heap w /\
          freed w' = freed w ++ [next_block w] /\ heap_fault w' = heap_fault w) /\
      (r = 0 -> g_docBuffers w' = g_docBuffers w /\ heap w' = heap w /\
                heap_fault w' = heap_fault w)) /\
  (forall path,
      r_ret (env (trace w) (FPDF_LoadDocument path password)) = 0 ->
      let r := (nativeOpenDocumentPath env path password w).1 in
      let w' := (nativeOpenDocumentPath env path password w).2 in
      r = 0 /\ g_docBuffers w' = g_docBuffers w /\ heap w' = heap w /\
      freed w' = freed w /\ heap_fault w' = heap_fault w).
Proof.
  intros Hposix Hfresh. split; [| split].
  - intros data load Hload. cbv zeta.
    rewrite nativeOpenMemDocument_spec. cbv zeta. fold load. rewrite Hload. cbn.
    rewrite delete_id by exact Hfresh. auto.
  - intros fd.
    destruct (nativeOpenDocument_outcome env Hposix fd password w)
      as (r & w' & Heq & Hout).
    destruct Hout as [fileSize Hsz | fileSize pre0 Hsz Hnew
                      | reads c0 fileSize pre0 b Hsz Hreads Hans Hlast
                      | reads contents fileSize pre0 b load Hsz Hreads Hans Hlen Hdoc
                      | reads contents fileSize pre0 b load doc Hsz Hreads Hans Hlen Hdoc].
    + eexists _, _, [lseek_end fd]. split; [exact Heq |]. split; [reflexivity |].
      split; [| auto].
      intros pre c post Hc Hl _. exfalso.
      assert (Hnl : Forall (fun c => is_load_call c = false) [lseek_end fd])
        by (repeat constructor).
      rewrite Hc in Hnl. apply Forall_at in Hnl. congruence.
    + eexists _, _, pre0. split; [exact Heq |]. split; [reflexivity |].
      split; [| auto].
      intros pre c post Hc Hl _. exfalso.
      assert (Hnl : Forall (fun c => is_load_call c = false) pre0)
        by (repeat constructor).
      rewrite Hc in Hnl. apply Forall_at in Hnl. congruence.
    + eexists _, _, (pre0 ++ reads ++ [c0]). split; [exact Heq |].
      split; [reflexivity |]. split.
      * intros pre c post Hc Hl _. exfalso.
        assert (Hnl : Forall (fun c => is_load_call c = false) (pre0 ++ reads ++ [c0])).
        { apply Forall_app. split; [repeat constructor |].
          apply read_is_not_load, Hreads. }
        rewrite Hc in Hnl. apply Forall_at in Hnl. congruence.
      * intros _. cbn. rewrite delete_id by exact Hfresh. auto.
    + eexists _, _, (pre0 ++ reads ++ [load; FPDF_GetLastError]).
      split; [exact Heq |]. split; [reflexivity |].
      split; intros; cbn; rewrite delete_id by exact Hfresh; auto.
    + eexists _, _, (pre0 ++ reads ++ [load; FPDF_GetPageCount doc]).
      split; [exact Heq |]. split; [reflexivity |]. split.
      * intros pre c post Hc Hl Hzero. exfalso.
        apply load_call_position in Hc as [-> ->];
          [| repeat constructor | exact Hreads | reflexivity | exact Hl].
        apply Hdoc. exact Hzero.
      * intros Hzero. exfalso. apply Hdoc. exact Hzero.
  - intros path Hload. cbv zeta.
    rewrite nativeOpenDocumentPath_spec. cbv zeta. rewrite Hload. cbn. auto.
Qed.

Lemma failed_open_registers_nothing_witness :
  heap initial_world !! next_block initial_world = None /\
  r_ret (demo_env [] (FPDF_LoadMemDocument 1 [Byte.x25] 1 (Some "wrong"%string))) = 0 /\
  (nativeOpenMemDocument demo_env [Byte.x25] (Some "wrong"%string) initial_world).1 = 0 /\
  g_docBuffers
    (nativeOpenMemDocument demo_env [Byte.x25] (Some "wrong"%string) initial_world).2 = ∅ /\
  freed
    (nativeOpenMemDocument demo_env [Byte.x25] (Some "wrong"%string) initial_world).2
    = [1%positive].
Proof.
  split; [reflexivity |]. split; [reflexivity |].
  destruct (failed_open_registers_nothing
              demo_env (Some "wrong"%string) initial_world demo_env_posix eq_refl)
    as [Hmem _].
  destruct (Hmem [Byte.x25] eq_refl) as (H1 & H2 & _ & H4 & _).
  split; [exact H1 |]. split; [exact H2 | exact H4].
Defined.

(** ** The reference count of the library *)

(** C9: an init call reaches PDFium exactly when it finds the count at
    zero, and otherwise only increments the count; a destroy call reaches
    PDFium exactly when it brings the count to zero; so after [n] init calls
    and then [m < n] destroy calls from the initial state, PDFium was
    initialised once, never destroyed, is initialised, and the count is
    [n - m]. *)
Theorem library_reference_count (env : Env) (n m : nat) :
  Z.of_nat n <= INT_MAX ->
  (m < n)%nat ->
  (forall w,
      nativeInitLibrary env w =
        (tt, mkWorld (wrap_i32 (libraryReferenceCount w + 1)) (g_docBuffers w)
                     (heap w) (next_block w) (freed w) (heap_fault w)
                     (pixel_memory w)
                     (trace w ++ if libraryReferenceCount w =? 0
                                 then [FPDF_InitLibraryWithConfig 2] else []))) /\
  (forall w,
      nativeDestroyLibrary env w =
        (tt, mkWorld (wrap_i32 (libraryReferenceCount w - 1)) (g_docBuffers w)
                     (heap w) (next_block w) (freed w) (heap_fault w)
                     (pixel_memory w)
                     (trace w ++ if wrap_i32 (libraryReferenceCount w - 1) =? 0
                                 then [FPDF_DestroyLibrary] else []))) /\
  let w := (repeat_call (nativeDestroyLibrary env) m
              (repeat_call (nativeInitLibrary env) n initial_world).2).2 in
  trace w = [FPDF_InitLibraryWithConfig 2] /\
  init_calls w = 1%nat /\ destroy_calls w = 0%nat /\
  library_initialized w = true /\
  libraryReferenceCount w = Z.of_nat n - Z.of_nat m.
Proof.
  intros Hmax Hm. split; [| split].
  - apply nativeInitLibrary_spec.
  - apply nativeDestroyLibrary_spec.
  - destruct (repeat_init_spec env n initial_world) as [Hc Ht]; [cbn; lia | cbn; lia |].
    cbn [libraryReferenceCount trace initial_world] in Hc, Ht.
    set (w1 := (repeat_call (nativeInitLibrary env) n initial_world).2) in *.
    destruct (repeat_destroy_spec env m w1) as [Hc' Ht']; [rewrite Hc; lia |].
    cbv zeta.
    set (w2 := (repeat_call (nativeDestroyLibrary env) m w1).2) in *.
    replace (negb (n =? 0)%nat) with true in Ht
      by (symmetry; apply negb_true_iff, Nat.eqb_neq; lia).
    cbn in Ht.
    assert (Htr : trace w2 = [FPDF_InitLibraryWithConfig 2]) by congruence.
    unfold init_calls, destroy_calls, library_initialized. rewrite Htr.
    repeat split; try reflexivity. lia.
Qed.

Lemma library_reference_count_witness :
  Z.of_nat 3 <= INT_MAX /\ (2 < 3)%nat /\
  let w := (repeat_call (nativeDestroyLibrary demo_env) 2
              (repeat_call (nativeInitLibrary demo_env) 3 initial_world).2).2 in
  trace w = [FPDF_InitLibraryWithConfig 2] /\
  init_calls w = 1%nat /\ destroy_calls w = 0%nat /\
  library_initialized w = true /\
  libraryReferenceCount w = Z.of_nat 3 - Z.of_nat 2.
Proof.
  assert (H1 : Z.of_nat 3 <= INT_MAX) by (unfold INT_MAX; lia).
  assert (H2 : (2 < 3)%nat) by lia.
  split; [exact H1 |]. split; [exact H2 |].
  apply (library_reference_count demo_env 3 2 H1 H2).
Defined.

(** The library is torn down by the destroy call that matches the first
    init call, and by no earlier one. *)
Example library_reference_count_balanced :
  let w := (repeat_call (nativeDestroyLibrary demo_env) 2
              (repeat_call (nativeInitLibrary demo_env) 2 initial_world).2).2 in
  trace w = [FPDF_InitLibraryWithConfig 2; FPDF_DestroyLibrary] /\
  library_initialized w = false.
Proof. split; vm_compute; reflexivity. Qed.

(** ** Strings by size query and fill *)

Lemma fill_length (buffer : list (option Z)) (units : list Z) :
  length (fill buffer units) = length buffer.
Proof.
  unfold fill. rewrite length_app, length_fmap, length_take, length_drop. lia.
Qed.

Lemma take_fill (buffer : list (option Z)) (units : list Z) (n : nat) :
  (n <= length buffer)%nat -> (n <= length units)%nat ->
  take n (fill buffer units) = Some <$> take n units.
Proof.
  intros Hb Hu. unfold fill.
  rewrite take_app_le by (rewrite length_fmap, length_take; lia).
  rewrite <- fmap_take, take_take. f_equal. f_equal. lia.
Qed.

(** C2 as stated fails: the size query announces 10 bytes, the fill call
    stores 4 bytes and says so; the entry points still return a string of
    [10 / 2 - 1 = 4] units, not [4 / 2 - 1 = 1] and not the empty string, and
    its last two units come from memory that nothing wrote.  And an absent
    string is not always the empty string: [nativeGetLinkURI] returns null
    when the size query answers 0. *)
Lemma short_fill_is_not_detected :
  let query := FPDF_GetMetaText 1 "Title" NullBuffer 0 in
  let fill_call := FPDF_GetMetaText 1 "Title" (UnitBuffer 10) 10 in
  let writtenBytes := r_ret (short_fill_env [query] fill_call) in
  let out := nativeGetMetaText short_fill_env 1 "Title" initial_world in
  trace out.2 = [query; fill_call] /\
  writtenBytes = 4 /\
  out.1 = Some [Some 65; Some 0; None; None] /\
  (forall s, out.1 = Some s ->
             Z.of_nat (length s) <> writtenBytes / 2 - 1 /\ s <> [] /\ None ∈ s) /\
  (nativeGetPageLabel short_fill_env 1 0 initial_world).1
    = Some [Some 105; Some 0; None; None] /\
  nativeGetLinkURI no_uri_env 3 4 []
    = (None, [FPDFLink_GetAction 4; FPDFAction_GetURIPath 3 6 NullBytes 0]).
Proof.
  cbv zeta. split; [reflexivity |]. split; [reflexivity |]. split; [reflexivity |].
  split; [| split; reflexivity].
  intros s Hs. vm_compute in Hs. injection Hs as <-.
  split; [vm_compute; discriminate |]. split; [discriminate |].
  apply list_elem_of_lookup. exists 2%nat. reflexivity.
Qed.

(** ** Calls and drawing, step by step *)

Lemma call_fst (env : Env) c w : (call env c w).1 = env (trace w) c.
Proof. reflexivity. Qed.

Lemma call_trace (env : Env) c w : trace (call env c w).2 = trace w ++ [c].
Proof. reflexivity. Qed.

Lemma call_pixel_memory (env : Env) c w :
  pixel_memory (call env c w).2 = pixel_memory w.
Proof. reflexivity. Qed.

Lemma draw_fst (env : Env) pixels c w : (draw env pixels c w).1 = env (trace w) c.
Proof.
  unfold draw. rewrite bind_eq, call_fst.
  destruct (r_out (env (trace w) c)); reflexivity.
Qed.

Lemma draw_trace (env : Env) pixels c w :
  trace (draw env pixels c w).2 = trace w ++ [c].
Proof.
  unfold draw. rewrite bind_eq, call_fst.
  destruct (r_out (env (trace w) c)); reflexivity.
Qed.

Ltac step_calls :=
  repeat first
    [ rewrite bind_eq
    | rewrite draw_fst
    | rewrite draw_trace
    | rewrite call_fst
    | rewrite call_trace
    | progress cbn [ret fst snd] ].

(** ** Null handles *)

(** The entry points that test their handle make no call with a null
    handle: they return their sentinel and leave the world as it is. *)
Lemma null_handle_is_checked (env : Env) (w : World) :
  nativeGetPageCount env 0 w = (0, w) /\
  (forall i, nativeLoadPage env 0 i w = (0, w)) /\
  nativeClosePage env 0 w = (tt, w) /\
  nativeTextCountChars env 0 w = (0, w) /\
  nativeGetPageObjectType env 0 w = (-1, w) /\
  nativeCloseDocument env 0 w = (tt, w) /\
  (forall tag, nativeGetMetaText env 0 tag w = (None, w)) /\
  (forall i, nativeGetPageLabel env 0 i w = (Some [], w)).
Proof. repeat split. Qed.

(** C3, on the path-building entry points: called with the null handle,
    each of [nativePathMoveTo], [nativePathLineTo], [nativePathBezierTo],
    [nativePathClose], [nativePathSetDrawMode] and [nativePathSetStrokeWidth]
    passes it to PDFium, and what it returns is PDFium's answer; the entry
    point next to them for the same kind of handle, [nativeGetPageObjectType],
    tests it and returns -1 without a call. *)
Theorem null_path_handle_reaches_pdfium (env : Env) (w : World) (x y : float) :
  let moved := nativePathMoveTo env 0 x y w in
  trace moved.2 = trace w ++ [FPDFPath_MoveTo 0 x y] /\
  0 ∈ handles_of (FPDFPath_MoveTo 0 x y) /\
  moved.1 = to_jboolean (r_ret (env (trace w) (FPDFPath_MoveTo 0 x y))) /\
  trace (nativePathLineTo env 0 x y w).2 = trace w ++ [FPDFPath_LineTo 0 x y] /\
  trace (nativePathBezierTo env 0 x y x y x y w).2
    = trace w ++ [FPDFPath_BezierTo 0 x y x y x y] /\
  trace (nativePathClose env 0 w).2 = trace w ++ [FPDFPath_Close 0] /\
  trace (nativePathSetDrawMode env 0 1 true w).2
    = trace w ++ [FPDFPath_SetDrawMode 0 1 1] /\
  trace (nativePathSetStrokeWidth env 0 x w).2
    = trace w ++ [FPDFPageObj_SetStrokeWidth 0 x] /\
  nativeGetPageObjectType env 0 w = (-1, w).
Proof.
  cbv zeta. split; [reflexivity |].
  split; [apply list_elem_of_singleton; reflexivity |].
  repeat split.
Qed.

(** With a PDFium that answers "true" to a null path, the caller of
    [nativePathMoveTo] receives [JNI_TRUE] for the null handle. *)
Example null_path_handle_can_succeed :
  (nativePathMoveTo (fun _ _ => mkResp 1 OutNone) 0 0%float 0%float initial_world).1
  = true.
Proof. reflexivity. Qed.

(** ** The page size *)

(** C10: with a null document [nativeGetPageSizeByIndex] returns null and
    makes no call; otherwise it asks PDFium once and returns the pair PDFium
    stored when PDFium reports success, and the pair (595.0, 842.0) when
    PDFium reports failure - never a sentinel. *)
Theorem page_size_defaults_to_a4 (env : Env) (doc pageIndex : Z) (w : World) :
  let query := FPDF_GetPageSizeByIndex doc pageIndex in
  let answer := env (trace w) query in
  let out := nativeGetPageSizeByIndex env doc pageIndex w in
  (doc = 0 -> out = (None, w)) /\
  (doc <> 0 ->
   trace out.2 = trace w ++ [query] /\
   (wrap_i32 (r_ret answer) = 0 -> out.1 = Some (595%float, 842%float)) /\
   (wrap_i32 (r_ret answer) <> 0 ->
    out.1 = Some (out_doubles (r_out answer) (0%float, 0%float)))).
Proof.
  cbv zeta. split.
  - intros ->. reflexivity.
  - intros Hdoc. apply Z.eqb_neq in Hdoc.
    unfold nativeGetPageSizeByIndex. rewrite Hdoc, bind_eq, call_fst.
    destruct (out_doubles _ _) as [w0 h0].
    destruct (wrap_i32 _ =? 0) eqn:E; cbn [ret fst snd]; rewrite call_trace.
    + apply Z.eqb_eq in E. repeat split; congruence.
    + apply Z.eqb_neq in E. repeat split; congruence.
Qed.

Lemma page_size_defaults_to_a4_witness :
  (1 : Z) <> 0 /\
  (nativeGetPageSizeByIndex (surface_env 1) 1 5 initial_world).1
    = Some (595%float, 842%float) /\
  (nativeGetPageSizeByIndex (surface_env 1) 1 0 initial_world).1
    = Some (612%float, 792%float) /\
  nativeGetPageSizeByIndex (surface_env 1) 0 0 initial_world = (None, initial_world).
Proof.
  assert (H1 : (1 : Z) <> 0) by lia.
  split; [exact H1 |].
  pose proof (page_size_defaults_to_a4 (surface_env 1) 1 5 initial_world) as [_ Hfail].
  pose proof (page_size_defaults_to_a4 (surface_env 1) 1 0 initial_world) as [_ Hok].
  pose proof (page_size_defaults_to_a4 (surface_env 1) 0 0 initial_world) as [Hnull _].
  destruct (Hfail H1) as (_ & Hf & _). destruct (Hok H1) as (_ & _ & Ho).
  split; [apply Hf; reflexivity |].
  split; [apply Ho; vm_compute; discriminate | apply Hnull; reflexivity].
Defined.

(** ** Rendering *)

Lemma flags_keep_byte_order (r a : Z) : Z.land (Z.lor r a) r = r.
Proof.
  apply Z.bits_inj'. intros n _. rewrite Z.land_spec, Z.lor_spec.
  destruct (Z.testbit r n), (Z.testbit a n); reflexivity.
Qed.

Lemma flags_with_annot (r a : Z) : Z.land (Z.lor r a) a = a.
Proof.
  apply Z.bits_inj'. intros n _. rewrite Z.land_spec, Z.lor_spec.
  destruct (Z.testbit r n), (Z.testbit a n); reflexivity.
Qed.

Ltac case_if :=
  match goal with
  | |- context [if ?b then _ else _] => destruct b eqn:?
  end.

Section RenderingFacts.

Variable env : Env.
Context `{Headers}.

(** C6: when the format Android reports for the surface is not
    [ANDROID_BITMAP_FORMAT_RGBA_8888], [nativeRenderPageBitmap] returns
    having asked for the bitmap's info at most: it does not lock the pixels,
    does not call PDFium, and the pixel memory is what it was. *)
Theorem unsupported_format_is_skipped
        (pagePtr bitmap startX startY drawWidth drawHeight : Z)
        (renderAnnot : bool) (w : World) :
  let info := out_info (r_out (env (trace w) (AndroidBitmap_getInfo bitmap))) in
  info_format info <> ANDROID_BITMAP_FORMAT_RGBA_8888 ->
  let w' := (nativeRenderPageBitmap env pagePtr bitmap startX startY
                                    drawWidth drawHeight renderAnnot w).2 in
  pixel_memory w' = pixel_memory w /\
  (trace w' = trace w \/ trace w' = trace w ++ [AndroidBitmap_getInfo bitmap]) /\
  (forall c, c ∈ trace w' -> c ∈ trace w \/ touches_pixels c = false).
Proof.
  intros info Hformat. apply Z.eqb_neq in Hformat.
  assert (Hcases :
    let w' := (nativeRenderPageBitmap env pagePtr bitmap startX startY
                                      drawWidth drawHeight renderAnnot w).2 in
    w' = w \/ w' = (call env (AndroidBitmap_getInfo bitmap) w).2).
  { cbv zeta. unfold nativeRenderPageBitmap.
    case_if; [left; reflexivity |].
    rewrite bind_eq, call_fst. fold info. rewrite Hformat. cbn [negb].
    repeat case_if; right; reflexivity. }
  cbv zeta in *. destruct Hcases as [-> | ->].
  - split; [reflexivity |]. split; [left; reflexivity | auto].
  - rewrite call_trace, call_pixel_memory.
    split; [reflexivity |]. split; [right; reflexivity |].
    intros c [Hc | ->%list_elem_of_singleton]%elem_of_app; [left; exact Hc |].
    right. reflexivity.
Qed.

(** C7: on a non-null page and bitmap, when Android reports success, a
    surface of non-zero size in the accepted format and locks its pixels, and
    PDFium wraps them in a bitmap, [nativeRenderPageBitmap] makes these calls
    in this order: it fills the rectangle from (0, 0) of the surface's width
    and height with [0xFFFFFFFF], then rasterises with flags that contain
    [FPDF_REVERSE_BYTE_ORDER] and that contain [FPDF_ANNOT] exactly when
    [renderAnnot] is true, then destroys the wrapper and unlocks the pixels.
    Width, height and stride are the [uint32_t] fields of the bitmap's
    info as the [int] parameters of PDFium receive them. *)
Theorem render_fills_white_then_rasterises
        (pagePtr bitmap startX startY drawWidth drawHeight : Z)
        (renderAnnot : bool) (w : World) :
  let t := trace w in
  let getInfo := AndroidBitmap_getInfo bitmap in
  let lock := AndroidBitmap_lockPixels bitmap in
  let info := out_info (r_out (env t getInfo)) in
  let pixels := out_pixels (r_out (env (t ++ [getInfo]) lock)) in
  let create := FPDFBitmap_CreateEx (wrap_i32 (info_width info))
                                    (wrap_i32 (info_height info))
                                    FPDFBitmap_BGRA pixels
                                    (wrap_i32 (info_stride info)) in
  let fpdfBitmap := r_ret (env (t ++ [getInfo; lock]) create) in
  FPDF_ANNOT <> 0 ->
  Z.land FPDF_REVERSE_BYTE_ORDER FPDF_ANNOT = 0 ->
  pagePtr <> 0 -> bitmap <> 0 ->
  wrap_i32 (r_ret (env t getInfo)) = ANDROID_BITMAP_RESULT_SUCCESS ->
  info_width info <> 0 -> info_height info <> 0 ->
  info_format info = ANDROID_BITMAP_FORMAT_RGBA_8888 ->
  wrap_i32 (r_ret (env (t ++ [getInfo]) lock)) = ANDROID_BITMAP_RESULT_SUCCESS ->
  fpdfBitmap <> 0 ->
  exists flags,
    trace (nativeRenderPageBitmap env pagePtr bitmap startX startY
                                  drawWidth drawHeight renderAnnot w).2
    = t ++ [ getInfo; lock; create;
             FPDFBitmap_FillRect fpdfBitmap 0 0 (wrap_i32 (info_width info))
                                 (wrap_i32 (info_height info)) 0xFFFFFFFF;
             FPDF_RenderPageBitmap fpdfBitmap pagePtr startX startY
                                   drawWidth drawHeight 0 flags;
             FPDFBitmap_Destroy fpdfBitmap;
             AndroidBitmap_unlockPixels bitmap ] /\
    Z.land flags FPDF_REVERSE_BYTE_ORDER = FPDF_REVERSE_BYTE_ORDER /\
    (Z.land flags FPDF_ANNOT = FPDF_ANNOT <-> renderAnnot = true).
Proof.
  intros t getInfo lock info pixels create fpdfBitmap
         Hannot Hbits Hpage Hbitmap Hinfo Hw Hh Hformat Hlock Hbmp.
  exists (if renderAnnot then Z.lor FPDF_REVERSE_BYTE_ORDER FPDF_ANNOT
          else FPDF_REVERSE_BYTE_ORDER).
  split; [| split].
  - unfold nativeRenderPageBitmap.
    apply Z.eqb_neq in Hpage, Hbitmap, Hw, Hh, Hbmp.
    rewrite Hpage, Hbitmap. cbn [orb].
    rewrite bind_eq, call_fst. fold t getInfo info. rewrite Hinfo, Z.eqb_refl.
    cbn [negb]. rewrite Hw, Hh. cbn [orb]. rewrite Hformat, Z.eqb_refl. cbn [negb].
    rewrite bind_eq, call_fst, call_trace. fold t getInfo lock pixels.
    rewrite Hlock, Z.eqb_refl. cbn [negb].
    rewrite bind_eq, call_fst, !call_trace. fold t getInfo lock.
    rewrite <- app_assoc. cbn [app]. fold create fpdfBitmap. rewrite Hbmp.
    step_calls. fold t. rewrite <- !app_assoc. reflexivity.
  - destruct renderAnnot; [apply flags_keep_byte_order | apply Z.land_diag].
  - destruct renderAnnot.
    + rewrite flags_with_annot. split; reflexivity.
    + rewrite Hbits. split; [intros Hz; congruence | discriminate].
Qed.

(** C8 as the code has it: the progressive entry points take no pause
    predicate.  Every call [nativeRenderPageBitmapStart] and
    [nativeRenderPageContinue] make to PDFium's progressive renderer carries
    the null pause interface; start returns [FPDF_RENDER_FAILED] or the
    status PDFium gave to the one start call it made, continue likewise; so
    with a PDFium that never answers "to be continued" when it has no pause
    interface to consult, neither start nor continue does. *)
Theorem progressive_render_passes_no_pause
        (bitmap pagePtr startX startY drawWidth drawHeight rotate flags : Z)
        (w : World) :
  let started := nativeRenderPageBitmapStart env bitmap pagePtr startX startY
                                             drawWidth drawHeight rotate flags w in
  let continued := nativeRenderPageContinue env pagePtr w in
  (exists calls,
      trace started.2 = trace w ++ calls /\
      Forall (fun c => pause_of c = None) calls /\
      (started.1 = FPDF_RENDER_FAILED \/
       exists pre post c,
         calls = pre ++ c :: post /\ is_progressive_call c = true /\
         Forall (fun c => is_progressive_call c = false) (pre ++ post) /\
         started.1 = wrap_i32 (r_ret (env (trace w ++ pre) c)))) /\
  (continued = (FPDF_RENDER_FAILED, w) \/
   continued = (wrap_i32 (r_ret (env (trace w) (FPDF_RenderPage_Continue pagePtr None))),
                set_trace (trace w ++ [FPDF_RenderPage_Continue pagePtr None]) w)) /\
  ((forall t c, is_progressive_call c = true -> pause_of c = None ->
                wrap_i32 (r_ret (env t c)) <> FPDF_RENDER_TOBECONTINUED) ->
   FPDF_RENDER_FAILED <> FPDF_RENDER_TOBECONTINUED ->
   started.1 <> FPDF_RENDER_TOBECONTINUED /\
   continued.1 <> FPDF_RENDER_TOBECONTINUED).
Proof.
  cbv zeta.
  assert (Hstart : exists calls,
      trace (nativeRenderPageBitmapStart env bitmap pagePtr startX startY
               drawWidth drawHeight rotate flags w).2 = trace w ++ calls /\
      Forall (fun c => pause_of c = None) calls /\
      ((nativeRenderPageBitmapStart env bitmap pagePtr startX startY
               drawWidth drawHeight rotate flags w).1 = FPDF_RENDER_FAILED \/
       exists pre post c,
         calls = pre ++ c :: post /\ is_progressive_call c = true /\
         pause_of c = None /\
         Forall (fun c => is_progressive_call c = false) (pre ++ post) /\
         (nativeRenderPageBitmapStart env bitmap pagePtr startX startY
               drawWidth drawHeight rotate flags w).1
           = wrap_i32 (r_ret (env (trace w ++ pre) c)))).
  { unfold nativeRenderPageBitmapStart.
    case_if.
    { exists []. rewrite app_nil_r. split; [reflexivity |].
      split; [constructor | left; reflexivity]. }
    rewrite bind_eq, call_fst. case_if.
    { exists [AndroidBitmap_getInfo bitmap]. cbn [ret fst snd]. rewrite call_trace.
      split; [reflexivity |]. split; [repeat constructor | left; reflexivity]. }
    case_if.
    { exists [AndroidBitmap_getInfo bitmap]. cbn [ret fst snd]. rewrite call_trace.
      split; [reflexivity |]. split; [repeat constructor | left; reflexivity]. }
    rewrite bind_eq, call_fst, call_trace. case_if.
    { eexists [_; _]. cbn [ret fst snd]. rewrite !call_trace, <- app_assoc.
      split; [reflexivity |]. split; [repeat constructor | left; reflexivity]. }
    rewrite bind_eq, call_fst, !call_trace. case_if.
    { eexists [_; _; _; _]. step_calls. rewrite <- !app_assoc.
      split; [reflexivity |]. split; [repeat constructor | left; reflexivity]. }
    eexists [_; _; _; _; _; _; _]. step_calls. rewrite <- !app_assoc.
    split; [reflexivity |]. split; [repeat constructor |]. right.
    eexists [_; _; _; _], [_; _], _. split; [reflexivity |].
    split; [reflexivity |]. split; [reflexivity |].
    split; [repeat constructor |]. reflexivity. }
  assert (Hcont :
    nativeRenderPageContinue env pagePtr w = (FPDF_RENDER_FAILED, w) \/
    nativeRenderPageContinue env pagePtr w
      = (wrap_i32 (r_ret (env (trace w) (FPDF_RenderPage_Continue pagePtr None))),
         set_trace (trace w ++ [FPDF_RenderPage_Continue pagePtr None]) w)).
  { unfold nativeRenderPageContinue. case_if; [left | right]; reflexivity. }
  split; [| split].
  - destruct Hstart as (calls & Ht & Hp & Hs). exists calls.
    split; [exact Ht |]. split; [exact Hp |].
    destruct Hs as [Hs | (pre & post & c & Hc & Hprog & _ & Hrest & Hs)];
      [left; exact Hs | right].
    exists pre, post, c. auto.
  - exact Hcont.
  - intros Hlib Hne. split.
    + destruct Hstart as (calls & _ & _ & [Hs | (pre & post & c & _ & Hprog & Hnone & _ & Hs)]);
        rewrite Hs; [exact Hne | apply Hlib; assumption].
    + destruct Hcont as [-> | ->]; cbn [fst]; [exact Hne |].
      apply Hlib; reflexivity.
Qed.

End RenderingFacts.

Lemma unsupported_format_is_skipped_witness :
  info_format (out_info (r_out (surface_env 4 [] (AndroidBitmap_getInfo 7))))
    <> ANDROID_BITMAP_FORMAT_RGBA_8888 (Headers := published_headers) /\
  let w' := (nativeRenderPageBitmap (H := published_headers) (surface_env 4)
                                    5 7 0 0 100 50 true stale_world).2 in
  pixel_memory w' = pixel_memory stale_world /\
  trace w' = [AndroidBitmap_getInfo 7].
Proof.
  assert (Hf : info_format (out_info (r_out (surface_env 4 [] (AndroidBitmap_getInfo 7))))
               <> ANDROID_BITMAP_FORMAT_RGBA_8888 (Headers := published_headers))
    by (vm_compute; discriminate).
  split; [exact Hf |].
  destruct (unsupported_format_is_skipped (H := published_headers) (surface_env 4)
              5 7 0 0 100 50 true stale_world Hf) as (Hpx & _ & _).
  split; [exact Hpx | reflexivity].
Defined.

Lemma render_fills_white_then_rasterises_witness :
  exists flags,
    trace (nativeRenderPageBitmap (H := published_headers) (surface_env 1)
                                  5 7 0 0 100 50 true stale_world).2
    = [ AndroidBitmap_getInfo 7; AndroidBitmap_lockPixels 7;
        FPDFBitmap_CreateEx 100 50 4 4096 400;
        FPDFBitmap_FillRect 77 0 0 100 50 0xFFFFFFFF;
        FPDF_RenderPageBitmap 77 5 0 0 100 50 0 flags;
        FPDFBitmap_Destroy 77; AndroidBitmap_unlockPixels 7 ] /\
    Z.land flags 16 = 16 /\ (Z.land flags 1 = 1 <-> true = true).
Proof.
  apply (render_fills_white_then_rasterises (H := published_headers) (surface_env 1)
           5 7 0 0 100 50 true stale_world);
    vm_compute; try reflexivity; discriminate.
Defined.

Lemma progressive_render_passes_no_pause_witness :
  (nativeRenderPageBitmapStart (H := published_headers) (surface_env 1)
     7 5 0 0 100 50 0 0 stale_world).1
    <> FPDF_RENDER_TOBECONTINUED (Headers := published_headers) /\
  (nativeRenderPageContinue (H := published_headers) (surface_env 1) 5 stale_world).1
    <> FPDF_RENDER_TOBECONTINUED (Headers := published_headers).
Proof.
  destruct (progressive_render_passes_no_pause (H := published_headers) (surface_env 1)
              7 5 0 0 100 50 0 0 stale_world) as (_ & _ & Hterm).
  apply Hterm.
  - intros t c Hprog Hnone. destruct c; try discriminate; cbn in Hnone; subst;
      vm_compute; discriminate.
  - vm_compute. discriminate.
Defined.

(** C8 as stated fails.  The caller holds a pause predicate that always
    answers true; wrapped as a [JavaPauseCallback] it would ask for a pause,
    and this PDFium pauses when asked ("to be continued").  The entry point
    has no way to receive the predicate: it hands PDFium the null interface,
    the render is done when start returns, and no continue call is needed. *)
Lemma pause_predicate_is_never_consulted :
  let always : unit -> bool := fun _ => true in
  let callback := {| jp_env := true; jp_callback := Some always; jp_methodId := true |} in
  let started := nativeRenderPageBitmapStart (H := published_headers) (surface_env 1)
                                             7 5 0 0 100 50 0 0 stale_world in
  NeedToPauseNowImpl callback = 1 /\
  r_ret (surface_env 1 [] (FPDF_RenderPageBitmap_Start 77 5 0 0 100 50 0 0 (Some always)))
    = FPDF_RENDER_TOBECONTINUED (Headers := published_headers) /\
  started.1 = FPDF_RENDER_DONE (Headers := published_headers) /\
  Forall (fun c => pause_of c = None) (trace started.2) /\
  FPDF_RenderPageBitmap_Start 77 5 0 0 100 50 0 0 None ∈ trace started.2.
Proof.
  cbv zeta. split; [reflexivity |]. split; [reflexivity |]. split; [reflexivity |].
  assert (Ht : trace (nativeRenderPageBitmapStart (H := published_headers)
                        (surface_env 1) 7 5 0 0 100 50 0 0 stale_world).2
               = [ AndroidBitmap_getInfo 7; AndroidBitmap_lockPixels 7;
                   FPDFBitmap_CreateEx 100 50 4 4096 400;
                   FPDFBitmap_FillRect 77 0 0 100 50 0xFFFFFFFF;
                   FPDF_RenderPageBitmap_Start 77 5 0 0 100 50 0 0 None;
                   FPDFBitmap_Destroy 77; AndroidBitmap_unlockPixels 7 ])
    by (vm_compute; reflexivity).
  rewrite Ht. split.
  - repeat constructor.
  - rewrite !elem_of_cons. auto 10.
Qed.

(** * Further properties of the entry points *)

(** ** The reference count outside the matched case *)

Section LifecycleComposition.

Variable env : Env.

Lemma repeat_call_app (m : M unit) (a b : nat) : forall w,
  (repeat_call m (a + b) w).2 = (repeat_call m b (repeat_call m a w).2).2.
Proof.
  induction a as [|a IH]; intros w; cbn [repeat_call Nat.add].
  - reflexivity.
  - rewrite !bind_eq. apply IH.
Qed.

Lemma library_initialized_from_app (t1 t2 : list Call) : forall init,
  library_initialized_from init (t1 ++ t2)
  = library_initialized_from (library_initialized_from init t1) t2.
Proof.
  induction t1 as [|c t1 IH]; intros init; [reflexivity |].
  destruct c; cbn; apply IH.
Qed.

(** Destroy calls at a count of zero or less: none reaches PDFium, the
    count only sinks. *)
Lemma repeat_destroy_nonpositive (m : nat) : forall w,
  libraryReferenceCount w <= 0 ->
  - 2 ^ 31 <= libraryReferenceCount w - Z.of_nat m ->
  let w' := (repeat_call (nativeDestroyLibrary env) m w).2 in
  libraryReferenceCount w' = libraryReferenceCount w - Z.of_nat m /\
  trace w' = trace w.
Proof.
  induction m as [|m IH]; intros w Hc Hmin.
  - cbn. split; [lia | reflexivity].
  - cbn [repeat_call]. rewrite bind_eq, nativeDestroyLibrary_spec. cbn [fst snd].
    match goal with |- context [repeat_call _ m ?w0] => specialize (IH w0) end.
    cbn [libraryReferenceCount trace] in IH.
    rewrite wrap_i32_small in IH by lia.
    destruct IH as [IHc IHt]; [lia | lia |].
    cbv zeta. rewrite wrap_i32_small by lia. rewrite IHc, IHt. split; [lia |].
    replace (libraryReferenceCount w - 1 =? 0) with false
      by (symmetry; apply Z.eqb_neq; lia).
    apply app_nil_r.
Qed.

(** Init calls that do not lift the count above zero: none reaches PDFium. *)
Lemma repeat_init_negative (n : nat) : forall w,
  - 2 ^ 31 <= libraryReferenceCount w ->
  libraryReferenceCount w + Z.of_nat n <= 0 ->
  let w' := (repeat_call (nativeInitLibrary env) n w).2 in
  libraryReferenceCount w' = libraryReferenceCount w + Z.of_nat n /\
  trace w' = trace w.
Proof.
  induction n as [|n IH]; intros w Hmin Hc.
  - cbn. split; [lia | reflexivity].
  - cbn [repeat_call]. rewrite bind_eq, nativeInitLibrary_spec. cbn [fst snd].
    match goal with |- context [repeat_call _ n ?w0] => specialize (IH w0) end.
    cbn [libraryReferenceCount trace] in IH.
    rewrite wrap_i32_small in IH by lia.
    destruct IH as [IHc IHt]; [lia | lia |].
    cbv zeta. rewrite wrap_i32_small by lia. rewrite IHc, IHt. split; [lia |].
    replace (libraryReferenceCount w =? 0) with false
      by (symmetry; apply Z.eqb_neq; lia).
    apply app_nil_r.
Qed.

(** X1: from a count of zero, [n] init calls followed by [n] destroy calls
    initialise PDFium once, destroy it once - at the last destroy call - and
    bring the count back to zero with PDFium shut down; the next init call
    initialises it again. *)
Theorem matched_init_destroy_cycle (n : nat) (w : World) :
  (0 < n)%nat ->
  Z.of_nat n <= INT_MAX ->
  libraryReferenceCount w = 0 ->
  let w' := (repeat_call (nativeDestroyLibrary env) n
               (repeat_call (nativeInitLibrary env) n w).2).2 in
  trace w' = trace w ++ [FPDF_InitLibraryWithConfig 2; FPDF_DestroyLibrary] /\
  libraryReferenceCount w' = 0 /\
  library_initialized w' = false /\
  trace (nativeInitLibrary env w').2 = trace w' ++ [FPDF_InitLibraryWithConfig 2].
Proof.
  intros Hn Hmax Hzero.
  destruct (repeat_init_spec env n w) as [Hc Ht]; [lia | lia |].
  set (w1 := (repeat_call (nativeInitLibrary env) n w).2) in *.
  rewrite Hzero in Hc, Ht. cbn [Z.eqb] in Ht.
  replace (negb (n =? 0)%nat) with true in Ht
    by (symmetry; apply negb_true_iff, Nat.eqb_neq; lia).
  cbn [andb] in Ht.
  assert (Hsplit : (repeat_call (nativeDestroyLibrary env) n w1).2
                   = (repeat_call (nativeDestroyLibrary env) 1
                        (repeat_call (nativeDestroyLibrary env) (n - 1) w1).2).2).
  { rewrite <- repeat_call_app. do 2 f_equal. lia. }
  cbv zeta. rewrite Hsplit. clear Hsplit.
  destruct (repeat_destroy_spec env (n - 1) w1) as [Hc' Ht']; [lia |].
  set (w2 := (repeat_call (nativeDestroyLibrary env) (n - 1) w1).2) in *.
  cbn [repeat_call]. rewrite !bind_eq. cbn [ret snd].
  rewrite nativeDestroyLibrary_spec. cbn [snd].
  assert (Hone : libraryReferenceCount w2 - 1 = 0) by lia.
  rewrite Hone. cbn [Z.eqb].
  assert (Hw : wrap_i32 0 = 0) by reflexivity. rewrite Hw. cbn [Z.eqb].
  split; [| split; [| split]].
  - cbn [trace]. rewrite Ht', Ht, <- app_assoc. reflexivity.
  - reflexivity.
  - unfold library_initialized. cbn [trace]. rewrite Ht', Ht.
    rewrite !library_initialized_from_app. reflexivity.
  - rewrite nativeInitLibrary_spec. reflexivity.
Qed.

(** X2: destroy calls that no init call preceded are not forgiven.  From a
    count of zero, [m] destroy calls and then up to [m] init calls reach
    PDFium with no call at all: the init calls only climb back to zero, and
    PDFium is left as it was - not initialised, if it was not. *)
Theorem unmatched_destroy_swallows_init (m n : nat) (w : World) :
  Z.of_nat m <= 2 ^ 31 ->
  (n <= m)%nat ->
  libraryReferenceCount w = 0 ->
  let w' := (repeat_call (nativeInitLibrary env) n
               (repeat_call (nativeDestroyLibrary env) m w).2).2 in
  trace w' = trace w /\
  libraryReferenceCount w' = Z.of_nat n - Z.of_nat m /\
  library_initialized w' = library_initialized w.
Proof.
  intros Hm Hn Hzero.
  destruct (repeat_destroy_nonpositive m w) as [Hc Ht]; [lia | lia |].
  set (w1 := (repeat_call (nativeDestroyLibrary env) m w).2) in *.
  destruct (repeat_init_negative n w1) as [Hc' Ht']; [lia | lia |].
  cbv zeta. split; [congruence |]. split; [lia |].
  unfold library_initialized. congruence.
Qed.

End LifecycleComposition.

Lemma matched_init_destroy_cycle_witness :
  (0 < 3)%nat /\ Z.of_nat 3 <= INT_MAX /\ libraryReferenceCount initial_world = 0 /\
  let w' := (repeat_call (nativeDestroyLibrary demo_env) 3
               (repeat_call (nativeInitLibrary demo_env) 3 initial_world).2).2 in
  trace w' = [FPDF_InitLibraryWithConfig 2; FPDF_DestroyLibrary] /\
  libraryReferenceCount w' = 0.
Proof.
  assert (H1 : (0 < 3)%nat) by lia.
  assert (H2 : Z.of_nat 3 <= INT_MAX) by (unfold INT_MAX; lia).
  split; [exact H1 |]. split; [exact H2 |]. split; [reflexivity |].
  destruct (matched_init_destroy_cycle demo_env 3 initial_world H1 H2 eq_refl)
    as (Ht & Hc & _).
  split; [exact Ht | exact Hc].
Defined.

Lemma unmatched_destroy_swallows_init_witness :
  Z.of_nat 2 <= 2 ^ 31 /\ (2 <= 2)%nat /\ libraryReferenceCount initial_world = 0 /\
  let w' := (repeat_call (nativeInitLibrary demo_env) 2
               (repeat_call (nativeDestroyLibrary demo_env) 2 initial_world).2).2 in
  trace w' = [] /\ libraryReferenceCount w' = 0 /\ library_initialized w' = false.
Proof.
  assert (H1 : Z.of_nat 2 <= 2 ^ 31) by lia.
  assert (H2 : (2 <= 2)%nat) by lia.
  split; [exact H1 |]. split; [exact H2 |]. split; [reflexivity |].
  destruct (unmatched_destroy_swallows_init demo_env 2 2 initial_world H1 H2 eq_refl)
    as (Ht & Hc & Hi).
  split; [exact Ht |]. split; [exact Hc | exact Hi].
Defined.

(** ** Opening and closing, composed *)

Section DocumentComposition.

Variable env : Env.

(** X3: opening a document from bytes and closing the handle that came back
    is a round trip on the wrapper's state.  Provided PDFium returned a
    handle that has no entry yet, the buffer kept while the document is open
    holds exactly the caller's bytes, and after the close the ownership table
    and the heap are what they were before the open, the one buffer having
    been deleted once. *)
Theorem open_bytes_then_close_restores
        (data : list Byte.byte) (password : cstring) (w : World) :
  let b := next_block w in
  let load := FPDF_LoadMemDocument b data (Z.of_nat (length data)) password in
  let doc := r_ret (env (trace w) load) in
  doc <> 0 ->
  g_docBuffers w !! doc = None ->
  heap w !! b = None ->
  let opened := nativeOpenMemDocument env data password w in
  let closed := (nativeCloseDocument env opened.1 opened.2).2 in
  opened.1 = doc /\
  g_docBuffers opened.2 !! doc = Some b /\
  heap opened.2 !! b = Some data /\
  g_docBuffers closed = g_docBuffers w /\
  heap closed = heap w /\
  freed closed = freed w ++ [b] /\
  heap_fault closed = heap_fault w /\
  trace closed = trace w ++ [load; FPDF_GetPageCount doc; FPDF_CloseDocument doc].
Proof.
  intros b load doc Hdoc Hnew Hfresh. cbv zeta.
  rewrite nativeOpenMemDocument_spec. cbv zeta. fold b load doc.
  apply Z.eqb_neq in Hdoc. rewrite Hdoc. cbn [fst snd].
  rewrite nativeCloseDocument_spec, Hdoc. cbn [g_docBuffers heap].
  rewrite !lookup_insert_eq. cbn.
  rewrite !delete_insert_eq, (delete_id _ _ Hnew), (delete_id _ _ Hfresh).
  rewrite <- app_assoc. repeat split; reflexivity.
Qed.

(** X4: a second [nativeCloseDocument] on the same handle deletes nothing:
    whatever the world and the handle, it leaves the ownership table, the
    heap and the list of deleted blocks as the first close left them.  It
    is no no-op for PDFium, though: a non-null handle is handed to
    [FPDF_CloseDocument] a second time. *)
Theorem second_close_frees_nothing (doc : Z) (w : World) :
  let w1 := (nativeCloseDocument env doc w).2 in
  let w2 := (nativeCloseDocument env doc w1).2 in
  g_docBuffers w2 = g_docBuffers w1 /\ heap w2 = heap w1 /\
  freed w2 = freed w1 /\ heap_fault w2 = heap_fault w1 /\
  next_block w2 = next_block w1 /\
  trace w2 = trace w1 ++ (if doc =? 0 then [] else [FPDF_CloseDocument doc]).
Proof.
  cbv zeta. rewrite (nativeCloseDocument_spec env doc w).
  destruct (doc =? 0) eqn:Hdoc.
  - cbn [snd]. rewrite nativeCloseDocument_spec, Hdoc. cbn [snd].
    rewrite app_nil_r. repeat split.
  - destruct (g_docBuffers w !! doc) as [b|] eqn:Hb; cbn [snd];
      rewrite nativeCloseDocument_spec, Hdoc; cbn [g_docBuffers].
    + rewrite lookup_delete_eq. repeat split.
    + unfold set_trace. cbn [g_docBuffers]. rewrite Hb. repeat split.
Qed.

(** X5: the table relies on PDFium never returning the handle of a document
    that is still open.  If a second open from bytes is answered with the
    handle the first one got, the second buffer replaces the first in the
    table: closing the handle then deletes the second buffer only, and the
    first stays allocated with no entry left to release it. *)
Theorem reused_handle_leaks_first_buffer
        (data1 data2 : list Byte.byte) (password : cstring) (w : World) :
  let b1 := next_block w in
  let b2 := Pos.succ b1 in
  let load1 := FPDF_LoadMemDocument b1 data1 (Z.of_nat (length data1)) password in
  let doc := r_ret (env (trace w) load1) in
  let load2 := FPDF_LoadMemDocument b2 data2 (Z.of_nat (length data2)) password in
  doc <> 0 ->
  r_ret (env (trace w ++ [load1; FPDF_GetPageCount doc]) load2) = doc ->
  heap w !! b1 = None -> heap w !! b2 = None ->
  let w1 := (nativeOpenMemDocument env data1 password w).2 in
  let w2 := (nativeOpenMemDocument env data2 password w1).2 in
  let w3 := (nativeCloseDocument env doc w2).2 in
  g_docBuffers w2 !! doc = Some b2 /\
  g_docBuffers w3 = delete doc (g_docBuffers w) /\
  heap w3 = <[b1 := data1]> (heap w) /\
  freed w3 = freed w ++ [b2] /\
  heap_fault w3 = heap_fault w.
Proof.
  intros b1 b2 load1 doc load2 Hdoc Hsame Hf1 Hf2. cbv zeta.
  rewrite (nativeOpenMemDocument_spec env data1 password w). cbv zeta.
  fold b1 load1 doc. apply Z.eqb_neq in Hdoc. rewrite Hdoc. cbn [snd].
  rewrite nativeOpenMemDocument_spec. cbv zeta.
  cbn [next_block trace g_docBuffers heap libraryReferenceCount freed
       heap_fault pixel_memory].
  fold b2 load2. rewrite Hsame, Hdoc. cbn [snd].
  rewrite nativeCloseDocument_spec, Hdoc. cbn [g_docBuffers heap].
  rewrite !lookup_insert_eq. cbn.
  assert (Hne : b1 <> b2) by (unfold b2; lia).
  repeat split.
  - rewrite insert_insert_eq, delete_insert_eq. reflexivity.
  - rewrite delete_insert_eq. apply delete_id.
    rewrite lookup_insert_ne by exact Hne. exact Hf2.
Qed.

End DocumentComposition.

Lemma open_bytes_then_close_restores_witness :
  let opened := nativeOpenMemDocument demo_env [Byte.x25; Byte.x50] None initial_world in
  let closed := (nativeCloseDocument demo_env opened.1 opened.2).2 in
  opened.1 = 1001 /\ heap opened.2 !! 1%positive = Some [Byte.x25; Byte.x50] /\
  g_docBuffers closed = ∅ /\ heap closed = ∅ /\ freed closed = [1%positive].
Proof.
  assert (H1 : r_ret (demo_env [] (FPDF_LoadMemDocument 1 [Byte.x25; Byte.x50] 2 None)) <> 0)
    by (vm_compute; discriminate).
  destruct (open_bytes_then_close_restores demo_env [Byte.x25; Byte.x50] None
              initial_world H1 eq_refl eq_refl)
    as (Ho & _ & Hh & Hg & Hhp & Hf & _).
  cbv zeta. split; [exact Ho |]. split; [exact Hh |].
  split; [exact Hg |]. split; [exact Hhp | exact Hf].
Defined.

Lemma reused_handle_leaks_first_buffer_witness :
  let w1 := (nativeOpenMemDocument same_handle_env [Byte.x25] None initial_world).2 in
  let w2 := (nativeOpenMemDocument same_handle_env [Byte.x50] None w1).2 in
  let w3 := (nativeCloseDocument same_handle_env 9 w2).2 in
  g_docBuffers w3 = ∅ /\ heap w3 !! 1%positive = Some [Byte.x25] /\
  freed w3 = [2%positive].
Proof.
  assert (H1 : r_ret (same_handle_env [] (FPDF_LoadMemDocument 1 [Byte.x25] 1 None)) <> 0)
    by (vm_compute; discriminate).
  destruct (reused_handle_leaks_first_buffer same_handle_env [Byte.x25] [Byte.x50] None
              initial_world H1 eq_refl eq_refl eq_refl)
    as (_ & Hg & Hh & Hf & _).
  cbv zeta. split; [exact Hg |]. split; [| exact Hf].
  etransitivity; [exact (f_equal (fun h => h !! 1%positive) Hh) | reflexivity].
Defined.

(** ** What the descriptor route hands to the loader *)

Section DescriptorContents.

Variable env : Env.
Hypothesis Hposix : posix_read env.




End DescriptorContents.


(** ** Surfaces: locking, wrapping and drawing in turn *)

Section SurfaceFacts.

Variable env : Env.
Context `{Headers}.

Ltac run_protocol Hlock Hcreate :=
  rewrite <- ?app_assoc in Hlock; rewrite <- ?app_assoc in Hcreate;
  cbn [app] in Hlock, Hcreate;
  repeat (cbn [surface_protocol surface_step]; rewrite <- ?app_assoc;
          cbn [app];
          first [ rewrite Hlock | rewrite Hcreate | rewrite Z.eqb_refl ]);
  reflexivity.

(** X7: whatever Android and PDFium answer, the calls of
    [nativeRenderPageBitmap] and of [nativeRenderPageBitmapStart] follow the
    protocol of a surface and end with the surface released: pixels that
    were locked are unlocked, a PDFium bitmap that was created is destroyed
    before that, and PDFium draws only through a bitmap that exists, over
    pixels that are locked. *)
Theorem render_calls_follow_surface_protocol
        (pagePtr bitmap startX startY drawWidth drawHeight rotate flags : Z)
        (renderAnnot : bool) (w : World) :
  (exists calls,
      trace (nativeRenderPageBitmap env pagePtr bitmap startX startY
               drawWidth drawHeight renderAnnot w).2 = trace w ++ calls /\
      surface_protocol env (trace w) Unlocked calls = Some Unlocked) /\
  (exists calls,
      trace (nativeRenderPageBitmapStart env bitmap pagePtr startX startY
               drawWidth drawHeight rotate flags w).2 = trace w ++ calls /\
      surface_protocol env (trace w) Unlocked calls = Some Unlocked).
Proof.
  split.
  - unfold nativeRenderPageBitmap.
    case_if.
    { exists []. rewrite app_nil_r. split; reflexivity. }
    rewrite bind_eq, call_fst. case_if.
    { exists [AndroidBitmap_getInfo bitmap]. cbn [ret fst snd]. rewrite call_trace.
      split; reflexivity. }
    case_if.
    { exists [AndroidBitmap_getInfo bitmap]. cbn [ret fst snd]. rewrite call_trace.
      split; reflexivity. }
    case_if.
    { exists [AndroidBitmap_getInfo bitmap]. cbn [ret fst snd]. rewrite call_trace.
      split; reflexivity. }
    rewrite bind_eq, call_fst, call_trace. case_if.
    { eexists [_; _]. cbn [ret fst snd]. rewrite !call_trace, <- app_assoc.
      split; [reflexivity |].
      cbn [surface_protocol surface_step].
      apply negb_true_iff in Heqb3. rewrite Heqb3. reflexivity. }
    apply negb_false_iff in Heqb3.
    rewrite bind_eq, call_fst, !call_trace. case_if.
    { eexists [_; _; _; _]. step_calls. rewrite <- !app_assoc.
      split; [reflexivity |].
      run_protocol Heqb3 Heqb4. }
    eexists [_; _; _; _; _; _; _]. step_calls. rewrite <- !app_assoc.
    split; [reflexivity |].
    run_protocol Heqb3 Heqb4.
  - unfold nativeRenderPageBitmapStart.
    case_if.
    { exists []. rewrite app_nil_r. split; reflexivity. }
    rewrite bind_eq, call_fst. case_if.
    { exists [AndroidBitmap_getInfo bitmap]. cbn [ret fst snd]. rewrite call_trace.
      split; reflexivity. }
    case_if.
    { exists [AndroidBitmap_getInfo bitmap]. cbn [ret fst snd]. rewrite call_trace.
      split; reflexivity. }
    rewrite bind_eq, call_fst, call_trace. case_if.
    { eexists [_; _]. cbn [ret fst snd]. rewrite !call_trace, <- app_assoc.
      split; [reflexivity |].
      cbn [surface_protocol surface_step].
      apply negb_true_iff in Heqb2. rewrite Heqb2. reflexivity. }
    apply negb_false_iff in Heqb2.
    rewrite bind_eq, call_fst, !call_trace. case_if.
    { eexists [_; _; _; _]. step_calls. rewrite <- !app_assoc.
      split; [reflexivity |].
      run_protocol Heqb2 Heqb3. }
    eexists [_; _; _; _; _; _; _]. step_calls. rewrite <- !app_assoc.
    split; [reflexivity |].
    run_protocol Heqb2 Heqb3.
Qed.

End SurfaceFacts.

Section SurfaceEdges.

Variable env : Env.
Context `{Headers}.

(** The protocol is no formality: drawing with no pixels locked is refused. *)
Example surface_protocol_refuses_unlocked_drawing t f color :
  surface_protocol env t Unlocked [FPDFBitmap_FillRect f 0 0 1 1 color] = None.
Proof. reflexivity. Qed.

(** X8: a surface with width 0 or height 0 in the accepted format is turned
    away by [nativeRenderPageBitmap] right after the information query: no
    pixels are locked and pixel memory is as before.  The progressive entry
    point [nativeRenderPageBitmapStart] has no such guard: it goes on to lock
    the pixels and, when the lock succeeds, asks PDFium for a bitmap of the
    empty size (width, height and stride as the [int]s PDFium receives). *)
Theorem empty_surface_is_guarded_only_in_one_shot_render
        (pagePtr bitmap startX startY drawWidth drawHeight rotate flags : Z)
        (renderAnnot : bool) (w : World) :
  let gi := env (trace w) (AndroidBitmap_getInfo bitmap) in
  let info := out_info (r_out gi) in
  let lk := env (trace w ++ [AndroidBitmap_getInfo bitmap])
                (AndroidBitmap_lockPixels bitmap) in
  pagePtr <> 0 -> bitmap <> 0 ->
  wrap_i32 (r_ret gi) = ANDROID_BITMAP_RESULT_SUCCESS ->
  info_format info = ANDROID_BITMAP_FORMAT_RGBA_8888 ->
  info_width info = 0 \/ info_height info = 0 ->
  (let w' := (nativeRenderPageBitmap env pagePtr bitmap startX startY
                drawWidth drawHeight renderAnnot w).2 in
   trace w' = trace w ++ [AndroidBitmap_getInfo bitmap] /\
   pixel_memory w' = pixel_memory w) /\
  (let w' := (nativeRenderPageBitmapStart env bitmap pagePtr startX startY
                drawWidth drawHeight rotate flags w).2 in
   (exists rest,
       trace w' = trace w ++ [AndroidBitmap_getInfo bitmap;
                              AndroidBitmap_lockPixels bitmap] ++ rest) /\
   (wrap_i32 (r_ret lk) = ANDROID_BITMAP_RESULT_SUCCESS ->
    exists rest,
      trace w' = trace w ++ [AndroidBitmap_getInfo bitmap;
                             AndroidBitmap_lockPixels bitmap;
                             FPDFBitmap_CreateEx (wrap_i32 (info_width info))
                               (wrap_i32 (info_height info)) FPDFBitmap_BGRA
                               (out_pixels (r_out lk))
                               (wrap_i32 (info_stride info))]
                          ++ rest)).
Proof.
  intros gi info lk Hpage Hbitmap Hgi Hformat Hempty.
  apply Z.eqb_neq in Hpage. apply Z.eqb_neq in Hbitmap.
  apply Z.eqb_eq in Hgi. apply Z.eqb_eq in Hformat.
  assert (Hdim : (info_width info =? 0) || (info_height info =? 0) = true).
  { apply orb_true_iff. destruct Hempty as [E | E]; [left | right];
      apply Z.eqb_eq; exact E. }
  split.
  - unfold nativeRenderPageBitmap.
    rewrite Hpage, Hbitmap. cbn [orb].
    rewrite bind_eq, call_fst. fold gi. fold info.
    rewrite Hgi. cbn [negb]. rewrite Hdim.
    cbn [ret fst snd]. split; reflexivity.
  - unfold nativeRenderPageBitmapStart.
    rewrite Hpage, Hbitmap. cbn [orb].
    rewrite bind_eq, call_fst. fold gi. fold info.
    rewrite Hgi. cbn [negb]. rewrite Hformat. cbn [negb].
    rewrite bind_eq, call_fst, call_trace. fold lk.
    cbn zeta. split.
    + case_if.
      { exists []. cbn [ret fst snd]. rewrite !call_trace, <- app_assoc.
        reflexivity. }
      rewrite bind_eq, call_fst, !call_trace. case_if.
      { eexists [_; _]. step_calls. rewrite <- !app_assoc. reflexivity. }
      eexists [_; _; _; _; _]. step_calls. rewrite <- !app_assoc. reflexivity.
    + intros Hlk. apply Z.eqb_eq in Hlk. rewrite Hlk. cbn [negb].
      rewrite bind_eq, call_fst, !call_trace. case_if.
      { eexists [_]. step_calls. rewrite <- !app_assoc. reflexivity. }
      eexists [_; _; _; _]. step_calls. rewrite <- !app_assoc. reflexivity.
Qed.

End SurfaceEdges.

Lemma empty_surface_is_guarded_only_in_one_shot_render_witness :
  let w' := (nativeRenderPageBitmapStart (H := published_headers)
               flat_surface_env 5 3 0 0 100 50 0 0 initial_world).2 in
  trace (nativeRenderPageBitmap (H := published_headers) flat_surface_env
           3 5 0 0 100 50 false initial_world).2
    = [AndroidBitmap_getInfo 5] /\
  exists rest,
    trace w' = [AndroidBitmap_getInfo 5; AndroidBitmap_lockPixels 5;
                FPDFBitmap_CreateEx 0 50 4 4096 0] ++ rest.
Proof.
  pose proof (empty_surface_is_guarded_only_in_one_shot_render
                (H := published_headers) flat_surface_env
                3 5 0 0 100 50 0 0 false initial_world) as Hx.
  cbv zeta in Hx.
  destruct Hx as [[Hr _] [_ Hs]].
  - discriminate.
  - discriminate.
  - reflexivity.
  - reflexivity.
  - left. reflexivity.
  - split; [exact Hr |]. apply Hs. reflexivity.
Defined.

(** ** The two-phase getters at their edges *)

Section StringEdges.

Variable env : Env.

(** X9: [nativeGetPageLabel] never returns null, whatever PDFium answers
    and whatever the document handle is: every path ends in a string, the
    empty one where the conversion gave none. *)
Theorem page_label_is_never_null (docPtr pageIndex : Z) (w : World) :
  exists label, (nativeGetPageLabel env docPtr pageIndex w).1 = Some label.
Proof.
  unfold nativeGetPageLabel.
  case_if; [eexists; reflexivity |].
  rewrite bind_eq, call_fst. case_if; [eexists; reflexivity |].
  rewrite bind_eq. cbn [ret fst]. eexists; reflexivity.
Qed.

(** X10: when PDFium announces a size of one byte, [size / 2 - 1] is
    computed in [unsigned long] and wraps: after the fill call, made with a
    buffer of one unit, [nativeGetMetaText] and [nativeGetPageLabel] hand
    [NewString] that buffer and the length -1. *)
Theorem one_byte_announcement_gives_negative_length
        (docPtr pageIndex : Z) (tag : string) (w : World) :
  let query_meta := FPDF_GetMetaText docPtr tag NullBuffer 0 in
  let fill_meta := FPDF_GetMetaText docPtr tag (UnitBuffer 1) 1 in
  let query_label := FPDF_GetPageLabel docPtr pageIndex NullBuffer 0 in
  let fill_label := FPDF_GetPageLabel docPtr pageIndex (UnitBuffer 1) 2 in
  let buffer query fill_call :=
    fill (new_units 1) (out_units (r_out (env (trace w ++ [query]) fill_call))) in
  docPtr <> 0 ->
  wrap_u64 (r_ret (env (trace w) query_meta)) = 1 ->
  wrap_u64 (r_ret (env (trace w) query_label)) = 1 ->
  wrap_i32 (wrap_u64 (1 / 2 - 1)) = -1 /\
  nativeGetMetaText env docPtr tag w
    = (NewString (buffer query_meta fill_meta) (-1),
       set_trace (trace w ++ [query_meta; fill_meta]) w) /\
  nativeGetPageLabel env docPtr pageIndex w
    = (Some (default [] (NewString (buffer query_label fill_label) (-1))),
       set_trace (trace w ++ [query_label; fill_label]) w).
Proof.
  intros query_meta fill_meta query_label fill_label buffer Hdoc Hmeta Hlabel.
  apply Z.eqb_neq in Hdoc.
  split; [reflexivity |]. split.
  - unfold nativeGetMetaText. rewrite Hdoc.
    unfold bind, call, ret. cbn [fst snd trace set_trace].
    fold query_meta. rewrite Hmeta. cbn [Z.eqb Pos.eqb].
    replace (wrap_i32 (wrap_u64 (1 / 2 - 1))) with (-1) by reflexivity.
    destruct w; unfold set_trace; cbn [trace libraryReferenceCount g_docBuffers
      heap next_block freed heap_fault pixel_memory].
    rewrite <- app_assoc. reflexivity.
  - unfold nativeGetPageLabel. rewrite Hdoc.
    unfold bind, call, ret. cbn [fst snd trace set_trace].
    fold query_label. rewrite Hlabel. cbn [Z.eqb Pos.eqb].
    replace (wrap_i32 (wrap_u64 (1 / 2 - 1))) with (-1) by reflexivity.
    replace (wrap_u64 (1 * 2)) with 2 by reflexivity.
    destruct w; unfold set_trace; cbn [trace libraryReferenceCount g_docBuffers
      heap next_block freed heap_fault pixel_memory].
    rewrite <- app_assoc. reflexivity.
Qed.

(** X11: in both getters the byte length announced to PDFium's fill call is
    never more than the buffer holds: [nativeGetMetaText] allocates [size]
    units and announces [size] bytes, [nativeGetPageLabel] allocates [size]
    units and announces [size * 2] bytes reduced to [unsigned long]. *)
Theorem string_fill_stays_within_buffer
        (docPtr pageIndex : Z) (tag : string) (w : World) :
  (exists calls,
      trace (nativeGetMetaText env docPtr tag w).2 = trace w ++ calls /\
      forallb fill_fits_buffer calls = true) /\
  (exists calls,
      trace (nativeGetPageLabel env docPtr pageIndex w).2 = trace w ++ calls /\
      forallb fill_fits_buffer calls = true).
Proof.
  split.
  - unfold nativeGetMetaText.
    case_if.
    { exists []. rewrite app_nil_r. split; reflexivity. }
    rewrite bind_eq, call_fst. case_if.
    { eexists [_]. cbn [ret snd]. rewrite call_trace. split; reflexivity. }
    eexists [_; _]. rewrite bind_eq. cbn [ret snd]. rewrite !call_trace, <- app_assoc.
    split; [reflexivity |].
    cbn [forallb fill_fits_buffer andb app].
    pose proof (wrap_u64_range
      (r_ret (env (trace w) (FPDF_GetMetaText docPtr tag NullBuffer 0)))) as Hr.
    rewrite !andb_true_r. apply andb_true_iff. split; apply Z.leb_le; lia.
  - unfold nativeGetPageLabel.
    case_if.
    { exists []. rewrite app_nil_r. split; reflexivity. }
    rewrite bind_eq, call_fst. case_if.
    { eexists [_]. cbn [ret snd]. rewrite call_trace. split; reflexivity. }
    eexists [_; _]. rewrite bind_eq. cbn [ret snd]. rewrite !call_trace, <- app_assoc.
    split; [reflexivity |].
    cbn [forallb fill_fits_buffer andb app].
    pose proof (wrap_u64_range
      (r_ret (env (trace w) (FPDF_GetPageLabel docPtr pageIndex NullBuffer 0)))) as Hr.
    set (size := wrap_u64 _) in *.
    pose proof (wrap_u64_range (size * 2)) as Hr2.
    assert (wrap_u64 (size * 2) <= size * 2).
    { unfold wrap_u64. apply Z.mod_le; lia. }
    rewrite !andb_true_r. apply andb_true_iff. split; apply Z.leb_le; lia.
Qed.

End StringEdges.

Lemma one_byte_announcement_gives_negative_length_witness :
  trace (nativeGetMetaText one_byte_env 7 "Title" initial_world).2
  = [FPDF_GetMetaText 7 "Title" NullBuffer 0;
     FPDF_GetMetaText 7 "Title" (UnitBuffer 1) 1] /\
  trace (nativeGetPageLabel one_byte_env 7 0 initial_world).2
  = [FPDF_GetPageLabel 7 0 NullBuffer 0;
     FPDF_GetPageLabel 7 0 (UnitBuffer 1) 2].
Proof.
  destruct (one_byte_announcement_gives_negative_length one_byte_env 7 0 "Title"
              initial_world) as [_ [Hm Hl]].
  - discriminate.
  - reflexivity.
  - reflexivity.
  - rewrite Hm, Hl. split; reflexivity.
Defined.

(** * Entry points that touch no global *)

Lemma lbind_eq {A B} (m : L A) (k : A -> L B) t :
  lbind m k t = k (m t).1 (m t).2.
Proof. unfold lbind. destruct (m t); reflexivity. Qed.

Lemma lcall_fst (env : LibEnv) c t : (lcall env c t).1 = env t c.
Proof. reflexivity. Qed.

Lemma lcall_snd (env : LibEnv) c t : (lcall env c t).2 = t ++ [c].
Proof. reflexivity. Qed.

Ltac run_lib :=
  repeat first
    [ rewrite lbind_eq
    | rewrite lcall_fst
    | rewrite lcall_snd
    | progress cbn [lret fst snd] ].

(** The copy loop of [nativeTextFindStart] and [nativeSetAnnotContents]
    after [k] rounds: [k] units copied, the rest of the buffer untouched. *)
Lemma copy_loop_rounds (chars : list Z) (k : nat) :
  (k <= length chars)%nat ->
  foldl (fun buffer i => <[i := chars !! i]> buffer)
        (repeat None (length chars + 1)) (seq 0 k)
  = (Some <$> take k chars) ++ repeat None (length chars + 1 - k).
Proof.
  induction k as [| k IH]; intros Hk.
  - rewrite Nat.sub_0_r. reflexivity.
  - rewrite seq_S, foldl_app, IH by lia. cbn [foldl Nat.add].
    destruct (lookup_lt_is_Some_2 chars k ltac:(lia)) as [c Hc].
    rewrite Hc, (take_S_r _ _ _ Hc), fmap_app.
    rewrite insert_app_r_alt by (rewrite length_fmap, length_take; lia).
    rewrite length_fmap, length_take.
    replace (k - k `min` length chars)%nat with 0%nat by lia.
    replace (length chars + 1 - k)%nat with (S (length chars + 1 - S k)) by lia.
    cbn [repeat]. rewrite <- app_assoc. reflexivity.
Qed.

(** The buffer the two functions hand to PDFium: the units of the Java
    string and one terminator. *)
Lemma wide_string_copy (chars : list Z) :
  Z.of_nat (length chars) < INT_MAX ->
  <[Z.to_nat (Z.of_nat (length chars)) := Some 0]>
    (foldl (fun buffer i => <[i := chars !! i]> buffer)
           (new_units (wrap_i32 (Z.of_nat (length chars) + 1)))
           (seq 0 (Z.to_nat (Z.of_nat (length chars)))))
  = (Some <$> chars) ++ [Some 0].
Proof.
  intros Hlen. unfold INT_MAX in Hlen.
  rewrite wrap_i32_small by lia. unfold new_units.
  rewrite Nat2Z.id.
  replace (Z.to_nat (Z.of_nat (length chars) + 1)) with (length chars + 1)%nat by lia.
  rewrite copy_loop_rounds by lia.
  rewrite firstn_all.
  rewrite insert_app_r_alt by (rewrite length_fmap; lia).
  rewrite length_fmap.
  replace (length chars - length chars)%nat with 0%nat by lia.
  replace (length chars + 1 - length chars)%nat with 1%nat by lia.
  reflexivity.
Qed.

Section TextSearch.

Variable env : LibEnv.
Context `{TextHeaders}.

(** X12: [nativeTextFindStart] makes one PDFium call.  The query PDFium
    receives is the Java string unit for unit, followed by one zero
    terminator, every unit of the buffer written; the search starts at
    index 0; the result is PDFium's handle.  When the two flag constants
    are non-zero and share no bit, the flag word carries the bits of
    [FPDF_MATCHCASE] exactly when [matchCase] is set and those of
    [FPDF_MATCHWHOLEWORD] exactly when [matchWholeWord] is set. *)
Theorem text_search_receives_terminated_query
        (textPagePtr : Z) (query : list Z) (matchCase matchWholeWord : bool)
        (t : list LibCall) :
  textPagePtr <> 0 ->
  Z.of_nat (length query) < INT_MAX ->
  FPDF_MATCHCASE <> 0 -> FPDF_MATCHWHOLEWORD <> 0 ->
  Z.land FPDF_MATCHCASE FPDF_MATCHWHOLEWORD = 0 ->
  exists flags,
    let c := FPDFText_FindStart textPagePtr ((Some <$> query) ++ [Some 0])
                                flags 0 in
    nativeTextFindStart env textPagePtr query matchCase matchWholeWord t
      = (l_ret (env t c), t ++ [c]) /\
    (Z.land flags FPDF_MATCHCASE = FPDF_MATCHCASE <-> matchCase = true) /\
    (Z.land flags FPDF_MATCHWHOLEWORD = FPDF_MATCHWHOLEWORD
       <-> matchWholeWord = true).
Proof.
  intros Hpage Hlen Hmc Hww Hdisjoint.
  apply Z.eqb_neq in Hpage.
  unfold nativeTextFindStart. rewrite Hpage.
  rewrite wide_string_copy by exact Hlen.
  eexists. cbn zeta. split.
  - run_lib. reflexivity.
  - assert (Hdisjoint' : Z.land FPDF_MATCHWHOLEWORD FPDF_MATCHCASE = 0)
      by (rewrite Z.land_comm; exact Hdisjoint).
    destruct matchCase, matchWholeWord; cbn [Z.lor];
      rewrite ?Z.lor_0_l, ?Z.land_0_l, ?flags_with_annot, ?flags_keep_byte_order,
              ?Z.land_diag, ?Hdisjoint, ?Hdisjoint';
      split; split; intros E; try reflexivity; try discriminate;
      try (symmetry in E; contradiction).
Qed.

End TextSearch.

Lemma text_search_receives_terminated_query_witness :
  (nativeTextFindStart (H := published_text_headers) (fun _ _ => answer 31)
     5 [112; 100; 102] true false []).2
  = [FPDFText_FindStart 5 [Some 112; Some 100; Some 102; Some 0] 1 0].
Proof.
  destruct (text_search_receives_terminated_query
              (H := published_text_headers) (fun _ _ => answer 31)
              5 [112; 100; 102] true false []) as [flags [Hrun _]].
  - discriminate.
  - reflexivity.
  - discriminate.
  - discriminate.
  - reflexivity.
  - reflexivity.
Defined.

(** ** Annotation strings *)

Lemma wide_chars_terminated (s : list Z) :
  Forall (fun u => u <> 0) s ->
  wide_chars ((Some <$> s) ++ [Some 0]) = s.
Proof.
  induction 1 as [| u s Hu _ IH]; [reflexivity |].
  cbn [fmap list_fmap app wide_chars].
  apply Z.eqb_neq in Hu. rewrite Hu.
  f_equal. exact IH.
Qed.

Lemma string_value_app t1 t2 annot key :
  forallb (leaves_string_value annot key) t2 = true ->
  string_value (t1 ++ t2) annot key = string_value t1 annot key.
Proof.
  unfold string_value. rewrite foldl_app.
  generalize (foldl
    (fun current c =>
       match c with
       | FPDFAnnot_SetStringValue a k v =>
           if (a =? annot) && bool_decide (k = key) then wide_chars v
           else current
       | _ => current
       end) [] t1) as current.
  induction t2 as [| c t2 IH]; intros current Hleft; [reflexivity |].
  cbn [forallb] in Hleft. apply andb_true_iff in Hleft as [Hc Hleft].
  cbn [foldl].
  destruct c; try (apply IH; exact Hleft).
  cbn [leaves_string_value] in Hc. apply negb_true_iff in Hc.
  rewrite Hc. apply IH. exact Hleft.
Qed.

Lemma string_value_set t annot key v :
  string_value (t ++ [FPDFAnnot_SetStringValue annot key v]) annot key
  = wide_chars v.
Proof.
  unfold string_value. rewrite foldl_app. cbn [foldl].
  rewrite Z.eqb_refl, bool_decide_eq_true_2 by reflexivity. reflexivity.
Qed.

Section AnnotationStrings.

Variable env : LibEnv.

(** X13: what [nativeSetAnnotContents] stores, [nativeGetAnnotContents]
    returns.  With a PDFium that keeps the string values it is given, a
    string without a zero unit that was set as the contents of an
    annotation comes back unit for unit, whatever calls were made in
    between that set no contents on this annotation; the empty string
    comes back empty. *)
Theorem annot_contents_round_trip
        (annotPtr : Z) (contents : list Z) (t between : list LibCall) :
  keeps_string_values env ->
  annotPtr <> 0 ->
  Z.of_nat (length contents) < INT_MAX ->
  Forall (fun u => u <> 0) contents ->
  forallb (leaves_string_value annotPtr "Contents") between = true ->
  let t1 := (nativeSetAnnotContents env annotPtr contents t).2 in
  (nativeGetAnnotContents env annotPtr (t1 ++ between)).1
  = Some (Some <$> contents).
Proof.
  intros Hkeeps Hannot Hlen Hunits Hbetween t1.
  assert (Ht1 : t1 = t ++ [FPDFAnnot_SetStringValue annotPtr "Contents"
                             ((Some <$> contents) ++ [Some 0])]).
  { subst t1. unfold nativeSetAnnotContents.
    apply Z.eqb_neq in Hannot. rewrite Hannot.
    rewrite wide_string_copy by exact Hlen.
    run_lib. reflexivity. }
  assert (Hvalue : forall more,
             forallb (leaves_string_value annotPtr "Contents") more = true ->
             string_value ((t1 ++ between) ++ more) annotPtr "Contents" = contents).
  { intros more Hmore.
    rewrite <- app_assoc, string_value_app, Ht1, string_value_set.
    - apply wide_chars_terminated. exact Hunits.
    - rewrite forallb_app, Hbetween, Hmore. reflexivity. }
  unfold nativeGetAnnotContents.
  apply Z.eqb_neq in Hannot. rewrite Hannot.
  rewrite lbind_eq, lcall_fst, lcall_snd.
  rewrite Hkeeps. cbn [annot_store_env l_ret].
  rewrite <- (app_nil_r (t1 ++ between)), Hvalue by reflexivity.
  rewrite app_nil_r, length_app. cbn [length].
  unfold INT_MAX in Hlen.
  set (n := length contents) in *.
  rewrite wrap_u64_small by lia.
  destruct (Z.leb_spec (2 * Z.of_nat (n + 1)) 2) as [Hsmall | Hbig].
  - cbn [lret fst].
    assert (n = 0%nat) by lia.
    destruct contents; [reflexivity | cbn in n; lia].
  - rewrite lbind_eq, lcall_fst. cbn [lret fst].
    rewrite Hkeeps. cbn [annot_store_env l_units].
    rewrite Hvalue by reflexivity.
    rewrite length_app. cbn [length]. fold n.
    rewrite Z.leb_refl.
    replace (2 * Z.of_nat (n + 1) / 2) with (Z.of_nat (n + 1))
      by (rewrite Z.mul_comm, Z.div_mul; lia).
    rewrite wrap_i32_small by lia.
    unfold NewString.
    destruct (Z.ltb_spec (Z.of_nat (n + 1) - 1) 0) as [Hneg | _]; [lia |].
    f_equal.
    replace (Z.to_nat (Z.of_nat (n + 1) - 1)) with n by lia.
    rewrite take_fill.
    + rewrite take_app_le by (subst n; lia).
      subst n. rewrite firstn_all. reflexivity.
    + unfold new_units. rewrite repeat_length. lia.
    + rewrite length_app. cbn [length]. subst n. lia.
Qed.

(** X14: [nativeGetAnnotContents] allocates [bufSize / 2] units and tells
    PDFium the buffer holds [bufSize] bytes.  With an announced size above
    2 the announced length is the byte size of the buffer when the size is
    even, and one byte more than the buffer has when it is odd. *)
Theorem annot_contents_buffer_announcement (annotPtr : Z) (t : list LibCall) :
  let q := FPDFAnnot_GetStringValue annotPtr "Contents" NullBuffer 0 in
  let bufSize := wrap_u64 (l_ret (env t q)) in
  annotPtr <> 0 ->
  2 < bufSize ->
  exists capacity,
    (nativeGetAnnotContents env annotPtr t).2
      = t ++ [q; FPDFAnnot_GetStringValue annotPtr "Contents"
                   (UnitBuffer capacity) bufSize] /\
    bufSize = 2 * capacity + bufSize mod 2 /\
    (bufSize <= 2 * capacity <-> Z.even bufSize = true).
Proof.
  intros q bufSize Hannot Hsize.
  apply Z.eqb_neq in Hannot.
  exists (bufSize / 2). split; [| split].
  - unfold nativeGetAnnotContents. rewrite Hannot.
    rewrite lbind_eq, lcall_fst, lcall_snd. fold q. fold bufSize.
    destruct (Z.leb_spec bufSize 2) as [Hle | _]; [lia |].
    rewrite lbind_eq, lcall_snd. cbn [lret snd].
    rewrite <- app_assoc. reflexivity.
  - apply Z.div_mod. lia.
  - rewrite Z.even_spec. pose proof (Z.div_mod bufSize 2 ltac:(lia)) as Hdm.
    pose proof (Z.mod_pos_bound bufSize 2 ltac:(lia)) as Hm.
    split.
    + intros Hfit. exists (bufSize / 2). lia.
    + intros [k Hk]. rewrite Hk.
      rewrite (Z.mul_comm 2 k), Z.div_mul by lia. lia.
Qed.

End AnnotationStrings.

Lemma annot_store_env_keeps : keeps_string_values annot_store_env.
Proof. intros t annot key buffer buflen. reflexivity. Qed.

Lemma annot_contents_round_trip_witness :
  (nativeGetAnnotContents annot_store_env 8
     ((nativeSetAnnotContents annot_store_env 8 [72; 105] []).2
        ++ [FPDFAnnot_SetStringValue 9 "Contents" [Some 0]])).1
  = Some [Some 72; Some 105].
Proof.
  apply (annot_contents_round_trip annot_store_env 8 [72; 105] []
           [FPDFAnnot_SetStringValue 9 "Contents" [Some 0]]).
  - exact annot_store_env_keeps.
  - discriminate.
  - reflexivity.
  - repeat constructor; discriminate.
  - reflexivity.
Defined.

(** A zero unit inside the string ends what PDFium keeps of it. *)
Example annot_contents_cut_at_zero_unit :
  (nativeGetAnnotContents annot_store_env 8
     (nativeSetAnnotContents annot_store_env 8 [72; 0; 105] []).2).1
  = Some [Some 72].
Proof. reflexivity. Qed.

Lemma annot_contents_buffer_announcement_witness :
  (nativeGetAnnotContents odd_size_env 8 []).2
  = [FPDFAnnot_GetStringValue 8 "Contents" NullBuffer 0;
     FPDFAnnot_GetStringValue 8 "Contents" (UnitBuffer 3) 7].
Proof.
  destruct (annot_contents_buffer_announcement odd_size_env 8 [])
    as [capacity [Hrun [Hsize _]]].
  - discriminate.
  - reflexivity.
  - change (7 = 2 * capacity + 1) in Hsize.
    assert (capacity = 3) as -> by lia.
    exact Hrun.
Defined.

(** ** Destinations of bookmarks and links *)

Section Destinations.

Variable env : LibEnv.

Ltac dest_leaf :=
  rewrite <- ?app_assoc in *; cbn [app] in *;
  eexists; split;
  [ reflexivity
  | split;
    [ cbn [forallb passes_no_null];
      repeat match goal with
             | Hz : (?x =? 0) = false |- _ => rewrite Hz
             end;
      reflexivity
    | ] ].

(** X15: [nativeGetBookmarkDestIndex] and [nativeGetLinkDestIndex] hand no
    null handle to PDFium, whatever PDFium answers: the action is resolved
    only when it exists, the page index is asked only of a destination that
    exists.  The result is -1 or the 32-bit answer of the final
    [FPDFDest_GetDestPageIndex] call. *)
Theorem dest_index_passes_no_null (docPtr bookmarkPtr linkPtr : Z)
        (t : list LibCall) :
  (exists calls,
      (nativeGetBookmarkDestIndex env docPtr bookmarkPtr t).2 = t ++ calls /\
      forallb passes_no_null calls = true /\
      ((nativeGetBookmarkDestIndex env docPtr bookmarkPtr t).1 = -1 \/
       exists before dest,
         calls = before ++ [FPDFDest_GetDestPageIndex docPtr dest] /\
         (nativeGetBookmarkDestIndex env docPtr bookmarkPtr t).1
         = wrap_i32 (l_ret (env (t ++ before)
                               (FPDFDest_GetDestPageIndex docPtr dest))))) /\
  (exists calls,
      (nativeGetLinkDestIndex env docPtr linkPtr t).2 = t ++ calls /\
      forallb passes_no_null calls = true /\
      ((nativeGetLinkDestIndex env docPtr linkPtr t).1 = -1 \/
       exists before dest,
         calls = before ++ [FPDFDest_GetDestPageIndex docPtr dest] /\
         (nativeGetLinkDestIndex env docPtr linkPtr t).1
         = wrap_i32 (l_ret (env (t ++ before)
                               (FPDFDest_GetDestPageIndex docPtr dest))))).
Proof.
  split.
  - unfold nativeGetBookmarkDestIndex.
    destruct ((docPtr =? 0) || (bookmarkPtr =? 0)) eqn:Hnull.
    { exists []. cbn [lret fst snd]. rewrite app_nil_r.
      split; [reflexivity | split; [reflexivity | left; reflexivity]]. }
    apply orb_false_iff in Hnull as [Hdoc Hbookmark].
    rewrite lbind_eq, lcall_fst, lcall_snd.
    destruct (l_ret (env t (FPDFBookmark_GetDest docPtr bookmarkPtr)) =? 0)
      eqn:Hdirect.
    + rewrite !lbind_eq, !lcall_fst, !lcall_snd.
      destruct (negb (l_ret (env (t ++ [FPDFBookmark_GetDest docPtr bookmarkPtr])
                               (FPDFBookmark_GetAction bookmarkPtr)) =? 0))
        eqn:Haction.
      * apply negb_true_iff in Haction.
        rewrite !lbind_eq, !lcall_fst, !lcall_snd. cbn [lret fst snd].
        case_if.
        { cbn [lret fst snd]. dest_leaf. left; reflexivity. }
        run_lib. dest_leaf. right.
        eexists [_; _; _], _. split; [reflexivity |].
        reflexivity.
      * cbn [lret fst snd]. rewrite Hdirect. cbn [lret fst snd].
        dest_leaf. left; reflexivity.
    + cbn [lret fst snd]. rewrite lbind_eq. cbn [lret fst snd].
      rewrite Hdirect. run_lib. dest_leaf. right.
      eexists [_], _. split; reflexivity.
  - unfold nativeGetLinkDestIndex.
    destruct ((docPtr =? 0) || (linkPtr =? 0)) eqn:Hnull.
    { exists []. cbn [lret fst snd]. rewrite app_nil_r.
      split; [reflexivity | split; [reflexivity | left; reflexivity]]. }
    apply orb_false_iff in Hnull as [Hdoc Hlink].
    rewrite lbind_eq, lcall_fst, lcall_snd.
    destruct (l_ret (env t (FPDFLink_GetDest docPtr linkPtr)) =? 0)
      eqn:Hdirect.
    + rewrite !lbind_eq, !lcall_fst, !lcall_snd.
      destruct (negb (l_ret (env (t ++ [FPDFLink_GetDest docPtr linkPtr])
                               (FPDFLink_GetAction linkPtr)) =? 0))
        eqn:Haction.
      * apply negb_true_iff in Haction.
        rewrite !lbind_eq, !lcall_fst, !lcall_snd. cbn [lret fst snd].
        case_if.
        { cbn [lret fst snd]. dest_leaf. left; reflexivity. }
        run_lib. dest_leaf. right.
        eexists [_; _; _], _. split; [reflexivity |].
        reflexivity.
      * cbn [lret fst snd]. rewrite Hdirect. cbn [lret fst snd].
        dest_leaf. left; reflexivity.
    + cbn [lret fst snd]. rewrite lbind_eq. cbn [lret fst snd].
      rewrite Hdirect. run_lib. dest_leaf. right.
      eexists [_], _. split; reflexivity.
Qed.

End Destinations.

Example bookmark_dest_through_action :
  nativeGetBookmarkDestIndex action_dest_env 3 4 []
  = (2, [FPDFBookmark_GetDest 3 4; FPDFBookmark_GetAction 4;
         FPDFAction_GetDest 3 6; FPDFDest_GetDestPageIndex 3 7]).
Proof. reflexivity. Qed.

(** ** Text of a range *)

Section TextRange.

Variable env : LibEnv.

(** X16: [nativeGetText] makes one PDFium call, with a buffer of
    [count + 1] units.  When PDFium reports nothing written the result is
    the empty string.  When it reports [written] units, no more than the
    buffer holds and no more than it stored, the result is the first
    [written - 1] units it stored, the terminator dropped: never more than
    [count] units. *)
Theorem text_range_is_what_was_written
        (textPagePtr startIndex count : Z) (t : list LibCall) :
  let c := FPDFText_GetText textPagePtr startIndex count
                            (UnitBuffer (count + 1)) in
  let written := wrap_i32 (l_ret (env t c)) in
  let units := l_units (env t c) in
  textPagePtr <> 0 ->
  0 <= count < INT_MAX ->
  (nativeGetText env textPagePtr startIndex count t).2 = t ++ [c] /\
  (written <= 0 ->
   (nativeGetText env textPagePtr startIndex count t).1 = Some []) /\
  (0 < written <= count + 1 ->
   written <= Z.of_nat (length units) ->
   exists s,
     (nativeGetText env textPagePtr startIndex count t).1 = Some s /\
     s = Some <$> take (Z.to_nat (written - 1)) units /\
     Z.of_nat (length s) = written - 1 /\
     Z.of_nat (length s) <= count).
Proof.
  intros c written units Hpage Hcount.
  apply Z.eqb_neq in Hpage. unfold INT_MAX in Hcount.
  unfold nativeGetText. rewrite Hpage.
  rewrite wrap_i32_small by lia.
  rewrite lbind_eq, lcall_fst, lcall_snd. fold c. fold written. fold units.
  split; [| split].
  - destruct (0 <? written); reflexivity.
  - intros Hnone.
    destruct (Z.ltb_spec 0 written) as [Hpos | _]; [lia | reflexivity].
  - intros Hwritten Hstored.
    destruct (Z.ltb_spec 0 written) as [_ | Hnone]; [| lia].
    cbn [lret fst]. unfold NewString.
    destruct (Z.ltb_spec (written - 1) 0) as [Hneg | _]; [lia |].
    eexists. split; [reflexivity |].
    rewrite take_fill by (unfold new_units; rewrite ?repeat_length; lia).
    split; [reflexivity |].
    rewrite length_fmap, length_take. lia.
Qed.

End TextRange.

Lemma text_range_is_what_was_written_witness :
  (nativeGetText word_env 5 0 3 []).1 = Some [Some 80; Some 68; Some 70].
Proof.
  destruct (text_range_is_what_was_written word_env 5 0 3 [])
    as [_ [_ Hs]].
  - discriminate.
  - split; [lia | reflexivity].
  - destruct Hs as [s [Hrun [Hs _]]].
    + split; [reflexivity | discriminate].
    + discriminate.
    + rewrite Hrun, Hs. reflexivity.
Defined.

(** ** Form field highlight *)

Lemma land_shiftl_low (hi lo n : Z) :
  0 <= n -> 0 <= lo < 2 ^ n -> Z.land (Z.shiftl hi n) lo = 0.
Proof.
  intros Hn Hlo. apply Z.bits_inj'. intros i Hi.
  rewrite Z.land_spec, Z.bits_0.
  destruct (Z.lt_ge_cases i n) as [Hlow | Hhigh].
  - rewrite Z.shiftl_spec_low by lia. reflexivity.
  - replace lo with (lo mod 2 ^ n) by (apply Z.mod_small; lia).
    rewrite Z.mod_pow2_bits_high by lia. apply andb_false_r.
Qed.

Lemma lor_shiftl_low (hi lo n : Z) :
  0 <= n -> 0 <= lo < 2 ^ n -> Z.lor (Z.shiftl hi n) lo = hi * 2 ^ n + lo.
Proof.
  intros Hn Hlo.
  pose proof (Z.add_lor_land (Z.shiftl hi n) lo) as Hadd.
  rewrite land_shiftl_low in Hadd by assumption.
  rewrite Z.shiftl_mul_pow2 in * by lia. lia.
Qed.

Section Highlight.

Variable env : LibEnv.

(** X17: with three colour components in 0..255,
    [nativeSetFormFieldHighlightColor] hands PDFium the colour
    [r * 65536 + g * 256 + b] for field type 0, from which each component
    is read back from its own byte, then the alpha reduced to
    [unsigned char]: [a mod 256], which is [a] itself when [a] is within
    0..255. *)
Theorem highlight_colour_packs_components (formPtr r g b a : Z)
        (t : list LibCall) :
  formPtr <> 0 ->
  0 <= r <= 255 -> 0 <= g <= 255 -> 0 <= b <= 255 ->
  exists color,
    nativeSetFormFieldHighlightColor env formPtr r g b a t
      = (tt, t ++ [FPDF_SetFormFieldHighlightColor formPtr 0 color;
                   FPDF_SetFormFieldHighlightAlpha formPtr (a mod 256)]) /\
    color = r * 65536 + g * 256 + b /\
    Z.land (Z.shiftr color 16) 255 = r /\
    Z.land (Z.shiftr color 8) 255 = g /\
    Z.land color 255 = b /\
    0 <= a mod 256 <= 255 /\
    (0 <= a <= 255 -> a mod 256 = a).
Proof.
  intros Hform Hr Hg Hb. apply Z.eqb_neq in Hform.
  assert (Hcolor :
    wrap_u64 (Z.lor (Z.lor (wrap_i32 (Z.shiftl r 16)) (wrap_i32 (Z.shiftl g 8))) b)
    = r * 65536 + g * 256 + b).
  { rewrite !Z.shiftl_mul_pow2 by lia.
    rewrite !wrap_i32_small by lia.
    change (2 ^ 16) with (2 ^ 8 * 2 ^ 8).
    rewrite Z.mul_assoc, <- (Z.shiftl_mul_pow2 (r * 2 ^ 8) 8) by lia.
    rewrite <- (Z.shiftl_mul_pow2 g 8) by lia.
    rewrite <- Z.shiftl_lor.
    rewrite (lor_shiftl_low _ b 8) by lia.
    rewrite <- (Z.shiftl_mul_pow2 r 8) by lia.
    rewrite (lor_shiftl_low r g 8) by lia.
    rewrite wrap_u64_small by lia. lia. }
  exists (r * 65536 + g * 256 + b). split; [| split; [reflexivity |]].
  - unfold nativeSetFormFieldHighlightColor. rewrite Hform, Hcolor.
    run_lib. rewrite <- app_assoc. reflexivity.
  - assert (Hbyte : forall x, Z.land x 255 = x mod 256).
    { intros x. change 255 with (Z.ones 8). apply Z.land_ones. lia. }
    rewrite !Hbyte, !Z.shiftr_div_pow2 by lia.
    change (2 ^ 16) with 65536. change (2 ^ 8) with 256.
    split; [Z.div_mod_to_equations; lia |].
    split; [Z.div_mod_to_equations; lia |].
    split; [Z.div_mod_to_equations; lia |].
    split; [pose proof (Z.mod_pos_bound a 256); lia |].
    intros Ha. apply Z.mod_small. lia.
Qed.

End Highlight.

Lemma highlight_colour_packs_components_witness :
  (nativeSetFormFieldHighlightColor (fun _ _ => answer 0) 12 255 128 0 100 []).2
  = [FPDF_SetFormFieldHighlightColor 12 0 16744448;
     FPDF_SetFormFieldHighlightAlpha 12 100].
Proof.
  destruct (highlight_colour_packs_components (fun _ _ => answer 0)
              12 255 128 0 100 []) as [color [Hrun [Hcolor _]]].
  - discriminate.
  - lia.
  - lia.
  - lia.
  - rewrite Hrun, Hcolor. reflexivity.
Defined.

(** A green component above 255 spills into the red byte. *)
Example highlight_colour_component_overflow :
  (nativeSetFormFieldHighlightColor (fun _ _ => answer 0) 12 0 256 0 100 []).2
  = (nativeSetFormFieldHighlightColor (fun _ _ => answer 0) 12 1 0 0 100 []).2.
Proof. reflexivity. Qed.

(** ** Quad points *)

Lemma quads_of_lookup (pointsData : list float) (i : nat) :
  ((i + 1) * 8 <= length pointsData)%nat ->
  quads_of pointsData !! i
  = Some (mkQuad (to_single (nth (i * 8 + 0) pointsData 0%float))
                 (to_single (nth (i * 8 + 1) pointsData 0%float))
                 (to_single (nth (i * 8 + 2) pointsData 0%float))
                 (to_single (nth (i * 8 + 3) pointsData 0%float))
                 (to_single (nth (i * 8 + 4) pointsData 0%float))
                 (to_single (nth (i * 8 + 5) pointsData 0%float))
                 (to_single (nth (i * 8 + 6) pointsData 0%float))
                 (to_single (nth (i * 8 + 7) pointsData 0%float))).
Proof.
  revert pointsData. induction i as [| i IH]; intros pointsData Hlen.
  - do 8 (destruct pointsData as [| ? pointsData]; [cbn in Hlen; lia |]).
    reflexivity.
  - do 8 (destruct pointsData as [| ? pointsData]; [cbn in Hlen; lia |]).
    cbn [quads_of lookup list_lookup].
    rewrite IH by (cbn [length] in Hlen; lia).
    replace (S i * 8 + 0)%nat with (8 + (i * 8 + 0))%nat by lia.
    replace (S i * 8 + 1)%nat with (8 + (i * 8 + 1))%nat by lia.
    replace (S i * 8 + 2)%nat with (8 + (i * 8 + 2))%nat by lia.
    replace (S i * 8 + 3)%nat with (8 + (i * 8 + 3))%nat by lia.
    replace (S i * 8 + 4)%nat with (8 + (i * 8 + 4))%nat by lia.
    replace (S i * 8 + 5)%nat with (8 + (i * 8 + 5))%nat by lia.
    replace (S i * 8 + 6)%nat with (8 + (i * 8 + 6))%nat by lia.
    replace (S i * 8 + 7)%nat with (8 + (i * 8 + 7))%nat by lia.
    reflexivity.
Qed.

Lemma quads_of_length (pointsData : list float) (n : nat) :
  length pointsData = (n * 8)%nat -> length (quads_of pointsData) = n.
Proof.
  revert pointsData. induction n as [| n IH]; intros pointsData Hlen.
  - destruct pointsData; [reflexivity | discriminate].
  - do 8 (destruct pointsData as [| ? pointsData]; [cbn in Hlen; lia |]).
    cbn [quads_of length]. f_equal. apply IH. cbn [length] in Hlen. lia.
Qed.

Section QuadPoints.

Variable env : LibEnv.

Lemma append_quads_spec (annot : Z) (pointsData : list float) (steps : nat) :
  forall (i : nat) (t : list LibCall),
    ((i + steps) * 8 <= length pointsData)%nat ->
    exists k,
      let calls := FPDFAnnot_AppendAttachmentPoints annot
                     <$> take k (drop i (quads_of pointsData)) in
      (k <= steps)%nat /\
      (append_quads env annot pointsData steps i t).2 = t ++ calls /\
      (((append_quads env annot pointsData steps i t).1 = true /\
        k = steps /\
        Forall (fun answer => answer <> 0) (returned env t calls))
       \/
       ((append_quads env annot pointsData steps i t).1 = false /\
        exists accepted,
          returned env t calls = accepted ++ [0] /\
          Forall (fun answer => answer <> 0) accepted)).
Proof.
  induction steps as [| steps IH]; intros i t Hlen.
  - exists 0%nat. cbn [append_quads lret fst snd take fmap list_fmap returned].
    rewrite app_nil_r. split; [lia |]. split; [reflexivity |].
    left. split; [reflexivity |]. split; [reflexivity | constructor].
  - pose proof (quads_of_lookup pointsData i ltac:(lia)) as Hquad.
    cbn [append_quads]. cbv zeta.
    rewrite lbind_eq, lcall_fst, lcall_snd.
    rewrite (drop_S _ _ _ Hquad).
    set (quad := mkQuad _ _ _ _ _ _ _ _) in *.
    destruct (l_ret (env t (FPDFAnnot_AppendAttachmentPoints annot quad)) =? 0)
      eqn:Hrefused.
    + exists 1%nat. cbn [lret fst snd take fmap list_fmap returned].
      split; [lia |]. split; [reflexivity |].
      right. split; [reflexivity |]. exists [].
      apply Z.eqb_eq in Hrefused. rewrite Hrefused.
      split; [reflexivity | constructor].
    + apply Z.eqb_neq in Hrefused.
      destruct (IH (S i) (t ++ [FPDFAnnot_AppendAttachmentPoints annot quad])
                  ltac:(lia)) as [k [Hk [Htrace Hend]]].
      exists (S k). cbn [take fmap list_fmap returned].
      split; [lia |]. split; [rewrite Htrace, <- app_assoc; reflexivity |].
      destruct Hend as [(Hok & Hall & Hanswers) | (Hfail & accepted & Hanswers & Haccepted)].
      * left. split; [exact Hok |]. split; [f_equal; exact Hall |].
        constructor; [exact Hrefused | exact Hanswers].
      * right. split; [exact Hfail |].
        exists (l_ret (env t (FPDFAnnot_AppendAttachmentPoints annot quad))
                  :: accepted).
        rewrite Hanswers. split; [reflexivity |].
        constructor; [exact Hrefused | exact Haccepted].
Qed.

(** X18: [nativeSetAnnotQuadPoints] replaces the quad points of an
    annotation.  An array whose length is no multiple of 8 is refused
    before any PDFium call.  Otherwise the existing points are cleared
    first, then the groups of eight coordinates are appended one call each,
    in the order of the array, for as long as PDFium accepts them.  Either
    every group was sent and accepted, and the result is true; or the last
    call made is the first one PDFium refused, and the result is false: the
    groups after it are not sent, and the points cleared at the start are
    not restored. *)
Theorem quad_points_are_replaced_in_order
        (annotPtr : Z) (pointsData : list float) (t : list LibCall) :
  annotPtr <> 0 ->
  let run := nativeSetAnnotQuadPoints env annotPtr (Some pointsData) t in
  let clear := FPDFAnnot_SetAttachmentPoints annotPtr 0 None 0 in
  ((length pointsData mod 8)%nat <> 0%nat -> run = (false, t)) /\
  ((length pointsData mod 8)%nat = 0%nat ->
   exists k,
     let appended := FPDFAnnot_AppendAttachmentPoints annotPtr
                       <$> take k (quads_of pointsData) in
     let answers := returned env (t ++ [clear]) appended in
     run.2 = t ++ clear :: appended /\
     ((run.1 = true /\
       k = length (quads_of pointsData) /\
       (8 * k = length pointsData)%nat /\
       Forall (fun answer => answer <> 0) answers)
      \/
      (run.1 = false /\
       (k <= length (quads_of pointsData))%nat /\
       exists accepted,
         answers = accepted ++ [0] /\
         Forall (fun answer => answer <> 0) accepted))).
Proof.
  intros Hannot run clear. apply Z.eqb_neq in Hannot.
  assert (Hrem : Z.rem (Z.of_nat (length pointsData)) 8
                 = Z.of_nat (length pointsData mod 8)).
  { rewrite Z.rem_mod_nonneg by lia. rewrite Nat2Z.inj_mod. reflexivity. }
  split.
  - intros Hodd. subst run.
    unfold nativeSetAnnotQuadPoints. rewrite Hannot, Hrem.
    destruct (Z.eqb_spec (Z.of_nat (length pointsData mod 8)) 0) as [E | _];
      [lia | reflexivity].
  - intros Heven.
    set (n := Z.to_nat (Z.quot (Z.of_nat (length pointsData)) 8)).
    assert (Hrun : run = append_quads env annotPtr pointsData n 0 (t ++ [clear])).
    { subst run. unfold nativeSetAnnotQuadPoints.
      rewrite Hannot, Hrem, Heven. change (Z.of_nat 0) with 0.
      cbn [Z.eqb negb]. rewrite lbind_eq, lcall_snd. reflexivity. }
    assert (Hn : length pointsData = (n * 8)%nat).
    { subst n. rewrite Z.quot_div_nonneg by lia.
      pose proof (Nat.div_mod_eq (length pointsData) 8) as Hdm.
      rewrite <- (Nat2Z.inj_div _ 8), Nat2Z.id. lia. }
    pose proof (quads_of_length pointsData n Hn) as Hquads.
    destruct (append_quads_spec annotPtr pointsData n 0 (t ++ [clear])
                ltac:(lia)) as [k [Hk [Htrace Hend]]].
    rewrite drop_0 in *.
    clearbody run. subst run. exists k. cbv zeta.
    split; [rewrite Htrace, <- app_assoc; reflexivity |].
    destruct Hend as [(Hok & Hall & Hanswers) | (Hfail & Hrefused)].
    + left. split; [exact Hok |]. split; [lia |]. split; [lia | exact Hanswers].
    + right. split; [exact Hfail |]. split; [lia | exact Hrefused].
Qed.

End QuadPoints.

Lemma quad_points_are_replaced_in_order_witness :
  (nativeSetAnnotQuadPoints one_quad_env 8
     (Some [1; 2; 3; 4; 5; 6; 7; 8; 9; 10; 11; 12; 13; 14; 15; 16]%float) []).2
  = [FPDFAnnot_SetAttachmentPoints 8 0 None 0;
     FPDFAnnot_AppendAttachmentPoints 8
       (mkQuad (to_single 1) (to_single 2) (to_single 3) (to_single 4)
               (to_single 5) (to_single 6) (to_single 7) (to_single 8));
     FPDFAnnot_AppendAttachmentPoints 8
       (mkQuad (to_single 9) (to_single 10) (to_single 11) (to_single 12)
               (to_single 13) (to_single 14) (to_single 15) (to_single 16))]
  /\ (nativeSetAnnotQuadPoints one_quad_env 8
     (Some [1; 2; 3; 4; 5; 6; 7; 8; 9; 10; 11; 12; 13; 14; 15; 16]%float) []).1
     = false.
Proof.
  destruct (quad_points_are_replaced_in_order one_quad_env 8
              [1; 2; 3; 4; 5; 6; 7; 8; 9; 10; 11; 12; 13; 14; 15; 16]%float [])
    as [_ Hrun].
  - discriminate.
  - destruct Hrun as [k [_ _]]; [reflexivity |].
    split; reflexivity.
Defined.

(** ** XFA packets *)

Lemma take_fill_bytes (buffer : list (option Byte.byte)) (bytes : list Byte.byte)
      (n : nat) :
  (n <= length buffer)%nat -> (n <= length bytes)%nat ->
  take n (fill_bytes buffer bytes) = Some <$> take n bytes.
Proof.
  intros Hb Hu. unfold fill_bytes.
  rewrite take_app_le by (rewrite length_fmap, length_take; lia).
  rewrite <- fmap_take, take_take. f_equal. f_equal. lia.
Qed.

Lemma take_repeat {A} (x : A) (n m : nat) :
  (n <= m)%nat -> take n (repeat x m) = repeat x n.
Proof.
  revert m. induction n as [| n IH]; intros m Hle; [reflexivity |].
  destruct m as [| m]; [lia |]. cbn [repeat take]. f_equal. apply IH. lia.
Qed.

Section XfaPackets.

Variable env : LibEnv.

(** X19: [nativeGetXFAPacketContent] checks both of its PDFium calls.  A
    size query that fails or announces no byte gives the empty array
    without a second call.  A fetch that PDFium refuses gives the empty
    array as well, whatever was stored in the buffer.  A fetch that
    succeeds gives an array of as many bytes as the fetch reported through
    its length pointer (the announced size if it reported nothing), for a
    report below [2^31]: not as many as the size query announced.  They are
    the bytes PDFium stored when the report is within the buffer and within
    what was stored; where the report exceeds the buffer, the bytes of the
    array from the buffer's size on were copied from past the
    allocation. *)
Theorem xfa_content_follows_the_fetch (docPtr index : Z) (t : list LibCall) :
  let q := FPDF_GetXFAPacketContent docPtr index NullBytes 0 in
  let size := default 0 (wrap_u64 <$> l_len (env t q)) in
  let f := FPDF_GetXFAPacketContent docPtr index (ByteBuffer size) size in
  let fetched := env (t ++ [q]) f in
  let reported := default size (wrap_u64 <$> l_len fetched) in
  let run := nativeGetXFAPacketContent env docPtr index t in
  docPtr <> 0 ->
  (l_ret (env t q) = 0 \/ size = 0 -> run = (Some [], t ++ [q])) /\
  (l_ret (env t q) <> 0 -> size <> 0 ->
   run.2 = t ++ [q; f] /\
   (l_ret fetched = 0 -> run.1 = Some []) /\
   (l_ret fetched <> 0 -> reported < 2 ^ 31 ->
    exists bytes,
      run.1 = Some bytes /\
      Z.of_nat (length bytes) = reported /\
      (reported <= size ->
       reported <= Z.of_nat (length (l_bytes fetched)) ->
       bytes = Some <$> take (Z.to_nat reported) (l_bytes fetched)) /\
      (size <= reported ->
       drop (Z.to_nat size) bytes = repeat None (Z.to_nat (reported - size))))).
Proof.
  intros q size f fetched reported run Hdoc. apply Z.eqb_neq in Hdoc.
  assert (Hsize : 0 <= size).
  { subst size. destruct (l_len (env t q)) as [n |]; cbn; [| lia].
    apply wrap_u64_range. }
  assert (Hreported : 0 <= reported).
  { subst reported. destruct (l_len fetched) as [n |]; cbn; [| lia].
    apply wrap_u64_range. }
  assert (Hrun : run =
    (if (l_ret (env t q) =? 0) || (size =? 0) then (Some [], t ++ [q])
     else if l_ret fetched =? 0 then (Some [], t ++ [q; f])
     else (NewByteArray_from
             (fill_bytes (repeat None (Z.to_nat size)) (l_bytes fetched))
             (wrap_i32 reported),
           t ++ [q; f]))).
  { subst run. unfold nativeGetXFAPacketContent. rewrite Hdoc.
    rewrite lbind_eq, lcall_fst, lcall_snd. fold q. fold size.
    destruct ((l_ret (env t q) =? 0) || (size =? 0)); [reflexivity |].
    rewrite lbind_eq, lcall_fst, lcall_snd. fold f. fold fetched.
    rewrite <- app_assoc.
    destruct (l_ret fetched =? 0); reflexivity. }
  clearbody run. subst run. split.
  - intros Hnone.
    assert ((l_ret (env t q) =? 0) || (size =? 0) = true) as ->; [| reflexivity].
    apply orb_true_iff. destruct Hnone as [E | E]; [left | right];
      apply Z.eqb_eq; exact E.
  - intros Hq Hnonempty.
    apply Z.eqb_neq in Hq. apply Z.eqb_neq in Hnonempty.
    rewrite Hq, Hnonempty. cbn [orb].
    split; [| split].
    + destruct (l_ret fetched =? 0); reflexivity.
    + intros Hrefused. apply Z.eqb_eq in Hrefused. rewrite Hrefused.
      reflexivity.
    + intros Haccepted Hjsize.
      apply Z.eqb_neq in Haccepted. rewrite Haccepted.
      cbn [fst]. rewrite wrap_i32_small by lia.
      unfold NewByteArray_from.
      destruct (Z.ltb_spec reported 0) as [Hneg | _]; [lia |].
      set (buffer := fill_bytes (repeat None (Z.to_nat size)) (l_bytes fetched)).
      assert (Hbuffer : length buffer = Z.to_nat size).
      { subst buffer. unfold fill_bytes.
        rewrite length_app, length_fmap, length_take, length_drop, repeat_length.
        lia. }
      eexists. split; [reflexivity |]. split; [| split].
      * rewrite length_take, length_app, repeat_length. lia.
      * intros Hwithin Hstored.
        rewrite take_app_le by lia.
        subst buffer. apply take_fill_bytes; rewrite ?repeat_length; lia.
      * intros Hbeyond.
        rewrite take_app_ge by lia. rewrite drop_app_length' by lia.
        rewrite Hbuffer, take_repeat by lia. f_equal. lia.
Qed.

End XfaPackets.

Lemma xfa_content_follows_the_fetch_witness :
  (nativeGetXFAPacketContent shrinking_packet_env 3 0 []).1
  = Some [Some Byte.x3c; Some Byte.x61; Some Byte.x2f; Some Byte.x3e]
  /\ (nativeGetXFAPacketContent refusing_packet_env 3 0 []).1 = Some [].
Proof.
  split.
  - destruct (xfa_content_follows_the_fetch shrinking_packet_env 3 0 [])
      as [_ Hfetch]; [discriminate |].
    destruct Hfetch as [_ [_ Hbytes]]; [discriminate | discriminate |].
    destruct Hbytes as (bytes & Hrun & _ & Hwithin & _);
      [discriminate | reflexivity |].
    rewrite Hrun, Hwithin; [reflexivity | discriminate | discriminate].
  - reflexivity.
Defined.

(** ** Progressive rendering across calls *)

Section ProgressiveComposition.

Variable env : Env.
Context `{Headers}.

(** X20: [nativeRenderPageBitmapStart] releases the surface before it
    returns, whatever status PDFium gave to the start call, "to be
    continued" included.  A [nativeRenderPageContinue] that follows it makes
    its [FPDF_RenderPage_Continue] call after the PDFium bitmap the
    rendering was started on has been destroyed and the pixels unlocked. *)
Theorem progressive_continue_follows_release
        (pagePtr bitmap startX startY drawWidth drawHeight rotate flags : Z)
        (w : World) :
  let t := trace w in
  let getInfo := AndroidBitmap_getInfo bitmap in
  let lock := AndroidBitmap_lockPixels bitmap in
  let info := out_info (r_out (env t getInfo)) in
  let pixels := out_pixels (r_out (env (t ++ [getInfo]) lock)) in
  let create := FPDFBitmap_CreateEx (wrap_i32 (info_width info))
                                    (wrap_i32 (info_height info))
                                    FPDFBitmap_BGRA pixels
                                    (wrap_i32 (info_stride info)) in
  let fpdfBitmap := r_ret (env (t ++ [getInfo; lock]) create) in
  let fillRect := FPDFBitmap_FillRect fpdfBitmap 0 0
                                      (wrap_i32 (info_width info))
                                      (wrap_i32 (info_height info))
                                      0xFFFFFFFF in
  let start := FPDF_RenderPageBitmap_Start fpdfBitmap pagePtr startX startY
                 drawWidth drawHeight rotate flags None in
  let started := nativeRenderPageBitmapStart env bitmap pagePtr startX startY
                   drawWidth drawHeight rotate flags w in
  pagePtr <> 0 -> bitmap <> 0 ->
  wrap_i32 (r_ret (env t getInfo)) = ANDROID_BITMAP_RESULT_SUCCESS ->
  info_format info = ANDROID_BITMAP_FORMAT_RGBA_8888 ->
  wrap_i32 (r_ret (env (t ++ [getInfo]) lock)) = ANDROID_BITMAP_RESULT_SUCCESS ->
  fpdfBitmap <> 0 ->
  started.1
    = wrap_i32 (r_ret (env (t ++ [getInfo; lock; create; fillRect]) start)) /\
  trace (nativeRenderPageContinue env pagePtr started.2).2
    = t ++ [ getInfo; lock; create; fillRect; start;
             FPDFBitmap_Destroy fpdfBitmap;
             AndroidBitmap_unlockPixels bitmap;
             FPDF_RenderPage_Continue pagePtr None ].
Proof.
  intros t getInfo lock info pixels create fpdfBitmap fillRect start started
         Hpage Hbitmap Hinfo Hformat Hlock Hbmp.
  apply Z.eqb_neq in Hpage, Hbitmap, Hbmp.
  assert (Hstarted :
    started.1
      = wrap_i32 (r_ret (env (t ++ [getInfo; lock; create; fillRect]) start)) /\
    trace started.2 = t ++ [ getInfo; lock; create; fillRect; start;
                             FPDFBitmap_Destroy fpdfBitmap;
                             AndroidBitmap_unlockPixels bitmap ]).
  { subst started. unfold nativeRenderPageBitmapStart.
    rewrite Hpage, Hbitmap. cbn [orb].
    rewrite bind_eq, call_fst. fold t getInfo info. rewrite Hinfo, Z.eqb_refl.
    cbn [negb]. rewrite Hformat, Z.eqb_refl. cbn [negb].
    rewrite bind_eq, call_fst, call_trace. fold t getInfo lock pixels.
    rewrite Hlock, Z.eqb_refl. cbn [negb].
    rewrite bind_eq, call_fst, !call_trace. fold t getInfo lock.
    rewrite <- app_assoc. cbn [app]. fold create fpdfBitmap. rewrite Hbmp.
    step_calls. fold t. rewrite <- !app_assoc. cbn [app].
    split; reflexivity. }
  destruct Hstarted as [Hstatus Htrace].
  split; [exact Hstatus |].
  unfold nativeRenderPageContinue. rewrite Hpage.
  rewrite bind_eq. cbn [ret snd]. rewrite call_trace, Htrace.
  rewrite <- app_assoc. reflexivity.
Qed.

End ProgressiveComposition.

Lemma progressive_continue_follows_release_witness :
  trace (nativeRenderPageContinue (H := published_headers) (surface_env 1) 3
           (nativeRenderPageBitmapStart (H := published_headers) (surface_env 1)
              5 3 0 0 100 50 0 0 initial_world).2).2
  = [ AndroidBitmap_getInfo 5; AndroidBitmap_lockPixels 5;
      FPDFBitmap_CreateEx 100 50 4 4096 400;
      FPDFBitmap_FillRect 77 0 0 100 50 0xFFFFFFFF;
      FPDF_RenderPageBitmap_Start 77 3 0 0 100 50 0 0 None;
      FPDFBitmap_Destroy 77; AndroidBitmap_unlockPixels 5;
      FPDF_RenderPage_Continue 3 None ].
Proof.
  destruct (progressive_continue_follows_release (H := published_headers)
              (surface_env 1) 3 5 0 0 100 50 0 0 initial_world)
    as [_ Htrace].
  - discriminate.
  - discriminate.
  - reflexivity.
  - reflexivity.
  - reflexivity.
  - discriminate.
  - exact Htrace.
Defined.

(** A fetch that reports more than the buffer holds: the array has the
    reported length, and its last two bytes come from past the buffer. *)
Example xfa_content_read_past_the_buffer :
  (nativeGetXFAPacketContent growing_packet_env 3 0 []).1
  = Some [Some Byte.x3c; Some Byte.x61; None; None].
Proof. reflexivity. Qed.

(** * The size-query/fill protocol in every string getter *)

Lemma drop_repeat {A} (x : A) (n m : nat) :
  drop n (repeat x m) = repeat x (m - n).
Proof.
  revert m. induction n as [| n IH]; intros m.
  - rewrite Nat.sub_0_r. reflexivity.
  - destruct m as [| m]; [reflexivity |]. cbn [repeat drop Nat.sub]. apply IH.
Qed.

(** What [NewString] makes of a filled buffer. *)
Lemma NewString_made_of (capacity len : Z) (stored : list Z) :
  0 <= len <= capacity ->
  exists s,
    NewString (fill (new_units capacity) stored) len = Some s /\
    made_of s stored len.
Proof.
  intros Hlen. unfold NewString.
  destruct (Z.ltb_spec len 0) as [Hneg | _]; [lia |].
  eexists. split; [reflexivity |].
  assert (Hbuffer : length (new_units capacity) = Z.to_nat capacity)
    by (unfold new_units; apply repeat_length).
  split; [| split].
  - rewrite length_take, fill_length, Hbuffer. lia.
  - intros Henough. apply take_fill; [rewrite Hbuffer |]; lia.
  - intros Hshort. unfold fill. rewrite Hbuffer.
    rewrite (take_ge stored) by lia.
    rewrite take_app_ge by (rewrite length_fmap; lia).
    rewrite length_fmap. f_equal.
    unfold new_units. rewrite drop_repeat, take_repeat by lia. reflexivity.
Qed.

Lemma null_or_self (formPtr : Z) : (if formPtr =? 0 then 0 else formPtr) = formPtr.
Proof. destruct (Z.eqb_spec formPtr 0) as [-> | _]; reflexivity. Qed.

Lemma same_units (env env' : LibEnv) t c :
  same_but_fill_return env env' -> l_units (env' t c) = l_units (env t c).
Proof.
  intros Hsame. specialize (Hsame t c).
  destruct (fills_buffer c); [apply Hsame | rewrite Hsame; reflexivity].
Qed.

Lemma same_bytes (env env' : LibEnv) t c :
  same_but_fill_return env env' -> l_bytes (env' t c) = l_bytes (env t c).
Proof.
  intros Hsame. specialize (Hsame t c).
  destruct (fills_buffer c); [apply Hsame | rewrite Hsame; reflexivity].
Qed.

Lemma same_answer (env env' : LibEnv) t c :
  same_but_fill_return env env' -> fills_buffer c = false ->
  env' t c = env t c.
Proof.
  intros Hsame Hc. specialize (Hsame t c). rewrite Hc in Hsame. exact Hsame.
Qed.

Lemma same_document_units (env env' : Env) t c :
  same_but_document_fill_return env env' ->
  out_units (r_out (env' t c)) = out_units (r_out (env t c)).
Proof.
  intros Hsame. specialize (Hsame t c).
  destruct (fills_document_buffer c); rewrite Hsame; reflexivity.
Qed.

Lemma same_document_answer (env env' : Env) t c :
  same_but_document_fill_return env env' -> fills_document_buffer c = false ->
  env' t c = env t c.
Proof.
  intros Hsame Hc. specialize (Hsame t c). rewrite Hc in Hsame. exact Hsame.
Qed.

Ltac note_handles :=
  repeat match goal with
         | x := _ |- _ => subst x
         end;
  repeat match goal with
         | Hnz : ?x <> 0 |- _ => apply Z.eqb_neq in Hnz
         end.

Ltac use_handles :=
  repeat match goal with
         | Hnz : (?x =? 0) = false |- context [?x =? 0] => rewrite Hnz
         end;
  cbn [orb]; rewrite ?null_or_self.

Ltac step_lib :=
  rewrite ?lbind_eq, ?lcall_fst, ?lcall_snd; cbv beta; cbn [lret fst snd];
  use_handles.

(** One getter that hands its buffer to [NewString]. *)
Ltac wide_getter entry :=
  intros;
  unfold follows_byte_size, follows_half_size, follows_unit_size,
         follows_size_query;
  cbv zeta; unfold entry; note_handles; use_handles; split;
  [ do 2 step_lib; case_if;
    [ reflexivity
    | step_lib; rewrite <- ?app_assoc; cbn [app];
      split; [reflexivity | apply NewString_made_of] ]
  | let env' := fresh "env'" in
    let Hsame := fresh "Hsame" in
    intros env' Hsame;
    do 3 (step_lib; rewrite ?(same_answer _ env' _ _ Hsame) by reflexivity);
    case_if;
    [ reflexivity
    | step_lib; rewrite (same_units _ env' _ _ Hsame); reflexivity ] ].

(** One getter that hands its buffer to [NewStringUTF]. *)
Ltac utf_getter entry :=
  intros;
  unfold follows_size_query_utf;
  cbv zeta; unfold entry; note_handles; use_handles; split;
  [ do 2 step_lib; case_if;
    [ reflexivity
    | step_lib; rewrite <- ?app_assoc; cbn [app]; reflexivity ]
  | let env' := fresh "env'" in
    let Hsame := fresh "Hsame" in
    intros env' Hsame;
    do 3 (step_lib; rewrite ?(same_answer _ env' _ _ Hsame) by reflexivity);
    case_if;
    [ reflexivity
    | step_lib; rewrite (same_bytes _ env' _ _ Hsame); reflexivity ] ].

(** C2 as the code has it, for the 22 string getters of the file that use
    the size-query/fill protocol, called with non-null handles.  When the
    size query announces no string - 0 bytes; at most 2 bytes in the
    annotation and form-field getters; at most 0 units in
    [nativeGetWebLinkURL] - the getter makes no second call and returns the
    empty string, [nativeGetLinkURI] null.  Otherwise it makes one fill
    call, into a buffer allocated from the announced size, and never looks
    at what that call returns: against two PDFiums that differ only in what
    their fill calls return it does the same.  The getters that use
    [NewString] take the length from the announced size alone, [size / 2 -
    1] units for sizes below [2^32] ([size - 1] in [nativeGetWebLinkURL]):
    the string is made of the units the fill call stored when it stored
    that many, and of the stored units followed by units that nothing wrote
    when it stored fewer.  The getters that use [NewStringUTF] return the
    bytes of the filled buffer up to its first zero byte. *)
Theorem two_phase_string_follows_size_query :
  (* the two document getters *)
  (forall env w docPtr tag, docPtr <> 0 ->
     follows_size_query_doc
       (fun env => nativeGetMetaText env docPtr tag w) env w
       (FPDF_GetMetaText docPtr tag) (fun size => size)
       (fun result => result)) /\
  (forall env w docPtr pageIndex, docPtr <> 0 ->
     follows_size_query_doc
       (fun env => nativeGetPageLabel env docPtr pageIndex w) env w
       (FPDF_GetPageLabel docPtr pageIndex) (fun size => wrap_u64 (size * 2))
       (fun result => Some (default [] result))) /\
  (* sizes in bytes, as many units allocated *)
  (forall env t bookmarkPtr, bookmarkPtr <> 0 ->
     follows_byte_size
       (fun env => nativeGetBookmarkTitle env bookmarkPtr t) env t
       (FPDFBookmark_GetTitle bookmarkPtr)) /\
  (forall env t docPtr index, docPtr <> 0 ->
     let get := FPDFDoc_GetAttachment docPtr index in
     let attachment := l_ret (env t get) in
     attachment <> 0 ->
     follows_byte_size
       (fun env => nativeGetAttachmentName env docPtr index t) env (t ++ [get])
       (FPDFAttachment_GetName attachment)) /\
  (forall env t structElemPtr, structElemPtr <> 0 ->
     follows_byte_size
       (fun env => nativeStructElementGetType env structElemPtr t) env t
       (FPDF_StructElement_GetType structElemPtr)) /\
  (forall env t structElemPtr, structElemPtr <> 0 ->
     follows_byte_size
       (fun env => nativeStructElementGetAltText env structElemPtr t) env t
       (FPDF_StructElement_GetAltText structElemPtr)) /\
  (* sizes in bytes, half as many units allocated *)
  (forall env t formPtr annotPtr, annotPtr <> 0 ->
     follows_half_size
       (fun env => nativeGetFormFieldName env formPtr annotPtr t) env t
       (FPDFAnnot_GetFormFieldName formPtr annotPtr)) /\
  (forall env t formPtr annotPtr, annotPtr <> 0 ->
     follows_half_size
       (fun env => nativeGetFormFieldValue env formPtr annotPtr t) env t
       (FPDFAnnot_GetFormFieldValue formPtr annotPtr)) /\
  (forall env t formPtr annotPtr, formPtr <> 0 -> annotPtr <> 0 ->
     follows_half_size
       (fun env => nativeGetFormFieldDefaultValue env formPtr annotPtr t) env t
       (FPDFAnnot_GetFormFieldValue formPtr annotPtr)) /\
  (forall env t formPtr annotPtr index, annotPtr <> 0 ->
     follows_half_size
       (fun env => nativeGetFormFieldOptionLabel env formPtr annotPtr index t)
       env t (FPDFAnnot_GetOptionLabel formPtr annotPtr index)) /\
  (forall env t formPtr annotPtr index, annotPtr <> 0 ->
     follows_half_size
       (fun env => nativeGetFormFieldOptionValue env formPtr annotPtr index t)
       env t (FPDFAnnot_GetOptionLabel formPtr annotPtr index)) /\
  (forall env t annotPtr, annotPtr <> 0 ->
     follows_half_size
       (fun env => nativeGetAnnotContents env annotPtr t) env t
       (FPDFAnnot_GetStringValue annotPtr "Contents")) /\
  (forall env t annotPtr, annotPtr <> 0 ->
     follows_half_size
       (fun env => nativeGetAnnotAuthor env annotPtr t) env t
       (FPDFAnnot_GetStringValue annotPtr "T")) /\
  (forall env t annotPtr, annotPtr <> 0 ->
     follows_half_size
       (fun env => nativeGetAnnotSubject env annotPtr t) env t
       (FPDFAnnot_GetStringValue annotPtr "Subj")) /\
  (forall env t annotPtr, annotPtr <> 0 ->
     follows_half_size
       (fun env => nativeGetAnnotModificationDate env annotPtr t) env t
       (FPDFAnnot_GetStringValue annotPtr "M")) /\
  (forall env t annotPtr, annotPtr <> 0 ->
     follows_half_size
       (fun env => nativeGetAnnotCreationDate env annotPtr t) env t
       (FPDFAnnot_GetStringValue annotPtr "CreationDate")) /\
  (* a size in units *)
  (forall env t pageLinksPtr index, pageLinksPtr <> 0 ->
     follows_unit_size
       (fun env => nativeGetWebLinkURL env pageLinksPtr index t) env t
       (FPDFLink_GetURL pageLinksPtr index)) /\
  (* the getters that use NewStringUTF *)
  (forall env t docPtr linkPtr, docPtr <> 0 -> linkPtr <> 0 ->
     let get := FPDFLink_GetAction linkPtr in
     let action := l_ret (env t get) in
     action <> 0 ->
     follows_size_query_utf
       (fun env => nativeGetLinkURI env docPtr linkPtr t) env (t ++ [get])
       (FPDFAction_GetURIPath docPtr action) None) /\
  (forall env t sigObjPtr, sigObjPtr <> 0 ->
     follows_size_query_utf
       (fun env => nativeGetSignatureReason env sigObjPtr t) env t
       (FPDFSignatureObj_GetReason sigObjPtr) (Some (utf_of []))) /\
  (forall env t sigObjPtr, sigObjPtr <> 0 ->
     follows_size_query_utf
       (fun env => nativeGetSignatureTime env sigObjPtr t) env t
       (FPDFSignatureObj_GetTime sigObjPtr) (Some (utf_of []))) /\
  (forall env t actionPtr, actionPtr <> 0 ->
     follows_size_query_utf
       (fun env => nativeGetActionFilePath env actionPtr t) env t
       (FPDFAction_GetFilePath actionPtr) (Some (utf_of []))) /\
  (forall env t docPtr index, docPtr <> 0 ->
     follows_size_query_utf
       (fun env => nativeGetXFAPacketName env docPtr index t) env t
       (FPDF_GetXFAPacketName docPtr index) (Some (utf_of []))) /\
  (* the lengths, for sizes that fit *)
  (forall size, 2 <= size < 2 ^ 32 ->
     wrap_i32 (wrap_u64 (size / 2 - 1)) = size / 2 - 1 /\
     wrap_i32 (size / 2 - 1) = size / 2 - 1 /\
     0 <= size / 2 - 1 <= size / 2 /\ size / 2 <= size) /\
  (forall size, 1 <= size <= INT_MAX -> wrap_i32 (size - 1) = size - 1).
Proof.
  repeat match goal with |- _ /\ _ => split end.
  - intros env w docPtr tag Hdoc. apply Z.eqb_neq in Hdoc.
    unfold follows_size_query_doc. cbv zeta. unfold nativeGetMetaText.
    rewrite Hdoc. destruct w as [c g h n f ft px t]. cbn [trace]. split.
    + run_monad. case_if; [reflexivity |].
      run_monad. rewrite <- app_assoc.
      split; [reflexivity | apply NewString_made_of].
    + intros env' Hsame. run_monad.
      rewrite !(same_document_answer _ env' _ _ Hsame) by reflexivity.
      case_if; [reflexivity |]. run_monad.
      rewrite (same_document_units _ env' _ _ Hsame). reflexivity.
  - intros env w docPtr pageIndex Hdoc. apply Z.eqb_neq in Hdoc.
    unfold follows_size_query_doc. cbv zeta. unfold nativeGetPageLabel.
    rewrite Hdoc. destruct w as [c g h n f ft px t]. cbn [trace]. split.
    + run_monad. case_if; [reflexivity |].
      run_monad. rewrite <- app_assoc.
      split; [reflexivity |]. intros Hlen.
      destruct (NewString_made_of _ _
                  (out_units (r_out (env (t ++ [FPDF_GetPageLabel docPtr pageIndex NullBuffer 0])
                     (FPDF_GetPageLabel docPtr pageIndex
                        (UnitBuffer (wrap_u64 (r_ret (env t (FPDF_GetPageLabel docPtr pageIndex NullBuffer 0)))))
                        (wrap_u64 (wrap_u64 (r_ret (env t (FPDF_GetPageLabel docPtr pageIndex NullBuffer 0))) * 2))))))
                  Hlen) as (s & Hs & Hmade).
      exists s. rewrite Hs. split; [reflexivity | exact Hmade].
    + intros env' Hsame. run_monad.
      rewrite !(same_document_answer _ env' _ _ Hsame) by reflexivity.
      case_if; [reflexivity |]. run_monad.
      rewrite (same_document_units _ env' _ _ Hsame). reflexivity.
  - wide_getter nativeGetBookmarkTitle.
  - wide_getter nativeGetAttachmentName.
  - wide_getter nativeStructElementGetType.
  - wide_getter nativeStructElementGetAltText.
  - wide_getter nativeGetFormFieldName.
  - wide_getter nativeGetFormFieldValue.
  - wide_getter nativeGetFormFieldDefaultValue.
  - wide_getter nativeGetFormFieldOptionLabel.
  - wide_getter nativeGetFormFieldOptionValue.
  - wide_getter nativeGetAnnotContents.
  - wide_getter nativeGetAnnotAuthor.
  - wide_getter nativeGetAnnotSubject.
  - wide_getter nativeGetAnnotModificationDate.
  - wide_getter nativeGetAnnotCreationDate.
  - wide_getter nativeGetWebLinkURL.
  - utf_getter nativeGetLinkURI.
  - utf_getter nativeGetSignatureReason.
  - utf_getter nativeGetSignatureTime.
  - utf_getter nativeGetActionFilePath.
  - utf_getter nativeGetXFAPacketName.
  - intros size Hsize.
    assert (0 <= size / 2 - 1 < 2 ^ 31).
    { pose proof (Z.div_le_lower_bound size 2 1 ltac:(lia) ltac:(lia)).
      pose proof (Z.div_lt_upper_bound size 2 (2 ^ 31) ltac:(lia) ltac:(lia)). lia. }
    rewrite wrap_u64_small by lia. rewrite wrap_i32_small by lia.
    repeat split; try lia.
    pose proof (Z.div_le_upper_bound size 2 size ltac:(lia) ltac:(lia)). lia.
  - intros size Hsize. unfold INT_MAX in Hsize. apply wrap_i32_small. lia.
Qed.

Lemma two_phase_string_follows_size_query_witness :
  follows_size_query_doc
    (fun env => nativeGetMetaText env 1 "Title" initial_world)
    title_env initial_world (FPDF_GetMetaText 1 "Title") (fun size => size)
    (fun result => result) /\
  follows_byte_size (fun env => nativeGetBookmarkTitle env 5 [])
    bookmark_env [] (FPDFBookmark_GetTitle 5).
Proof.
  destruct two_phase_string_follows_size_query as (Hmeta & _ & Hbookmark & _).
  split; [apply Hmeta | apply Hbookmark]; discriminate.
Defined.

(** The two runs of the witness: a title of four letters, stored in full. *)
Example two_phase_titles :
  (nativeGetMetaText title_env 1 "Title" initial_world).1
  = Some [Some 84; Some 101; Some 115; Some 116] /\
  nativeGetBookmarkTitle bookmark_env 5 []
  = (Some [Some 84; Some 101; Some 115; Some 116],
     [FPDFBookmark_GetTitle 5 NullBuffer 0;
      FPDFBookmark_GetTitle 5 (UnitBuffer 10) 10]).
Proof. split; reflexivity. Qed.
